(** * MAPS SiO archive search: the table pipeline of [maps_sio_archive_search.py]

    The script queries an observation archive for a list of sources, keeps the
    spectral windows whose frequency range brackets a SiO(v=0) rest frequency
    and writes a per-window and a per-MOUS summary.  Everything it computes is
    a handful of pandas operations on one table.  This development embeds those
    operations as functions on an explicit table type and proves the properties
    the specification states about them.

    Conventions.
    - A pandas [DataFrame] is a list of column names with a list of rows; a
      row holds one cell per column, in column order.
    - A cell is a Python [str] or a [float64]; a missing value is the float
      NaN, as in pandas.  Floats are the binary64 floats of the kernel, so a
      literal is the float Python reads from it and [<] is the comparison of
      the machine.
    - Python exceptions are values of [exn]; code that can raise returns a
      [result]. *)

From Stdlib Require Import List String Ascii Bool Arith ZArith Lia.
From Stdlib Require Import Floats Permutation Sorted.
Import ListNotations.

Set Warnings "-inexact-float".
Local Open Scope string_scope.
Local Open Scope list_scope.

(** ** Exceptions *)

Inductive exn : Type :=
| KeyError (msg : string)
| RuntimeError (msg : string)
| ValueError (msg : string)
| TypeError.

Inductive result (A : Type) : Type :=
| Ok (a : A)
| Raise (e : exn).

Arguments Ok {A} a.
Arguments Raise {A} e.

Definition bind {A B : Type} (m : result A) (k : A -> result B) : result B :=
  match m with
  | Ok a => k a
  | Raise e => Raise e
  end.

Notation "x <- m ;; k" := (bind m (fun x => k))
  (at level 61, m at next level, right associativity).

(** [mapM f xs] runs [f] over [xs] left to right and stops at the first
    exception, as an element-wise pandas operation does. *)
Fixpoint mapM {A B : Type} (f : A -> result B) (xs : list A) : result (list B) :=
  match xs with
  | [] => Ok []
  | x :: xs' => y <- f x ;; ys <- mapM f xs' ;; Ok (y :: ys)
  end.

(** ** Cells and tables *)

Inductive cell : Type :=
| Str (s : string)
| Num (x : float).

(** [float("nan")] *)
Definition NaN : cell := Num nan.

Definition isna (c : cell) : bool :=
  match c with
  | Str _ => false
  | Num x => is_nan x
  end.

Record DataFrame : Type := mkDataFrame {
  columns : list string;
  rows : list (list cell)
}.

(** [pd.DataFrame()] *)
Definition empty_frame : DataFrame := mkDataFrame [] [].

(** [len(df)] *)
Definition len (df : DataFrame) : nat := List.length (rows df).

(** [df.empty]: some axis has length zero. *)
Definition empty (df : DataFrame) : bool :=
  (List.length (columns df) =? 0)%nat || (List.length (rows df) =? 0)%nat.

(** [c in df.columns] *)
Definition has_column (c : string) (df : DataFrame) : bool :=
  existsb (String.eqb c) (columns df).

(** The cell of row [r] under column [c], when [r] is laid out along [cols]. *)
Fixpoint cell_at (cols : list string) (r : list cell) (c : string) : option cell :=
  match cols, r with
  | c' :: cols', v :: r' => if String.eqb c c' then Some v else cell_at cols' r' c
  | _, _ => None
  end.

Definition value_at (cols : list string) (r : list cell) (c : string) : cell :=
  match cell_at cols r c with
  | Some v => v
  | None => NaN
  end.

(** [df[c]]: the column as a list of cells, [KeyError] when it is absent. *)
Definition getitem (df : DataFrame) (c : string) : result (list cell) :=
  if has_column c df
  then Ok (map (fun r => value_at (columns df) r c) (rows df))
  else Raise (KeyError c).

(** Writing cell [v] under column [c]: in place when the column exists, at the
    end of the row when it is new. *)
Fixpoint set_cell (cols : list string) (r : list cell) (c : string) (v : cell)
  : list cell :=
  match cols, r with
  | c' :: cols', u :: r' =>
      if String.eqb c c' then v :: r' else u :: set_cell cols' r' c v
  | _, _ => r ++ [v]
  end.

(** [df[c] = ...], the new cell of each row computed from the row by [f]. *)
Definition assign (df : DataFrame) (c : string) (f : list cell -> cell) : DataFrame :=
  mkDataFrame
    (if has_column c df then columns df else columns df ++ [c])
    (map (fun r => set_cell (columns df) r c (f r)) (rows df)).

(** [df[c] = v] for a scalar [v]. *)
Definition setitem_scalar (df : DataFrame) (c : string) (v : cell) : DataFrame :=
  assign df c (fun _ => v).

(** [df[c] = df[src]] *)
Definition setitem_column (df : DataFrame) (c src : string) : DataFrame :=
  assign df c (fun r => value_at (columns df) r src).

(** A table is well formed when its column names are distinct and every row
    has one cell per column. *)
Fixpoint distinct (l : list string) : bool :=
  match l with
  | [] => true
  | c :: l' => negb (existsb (String.eqb c) l') && distinct l'
  end.

Definition well_formed (df : DataFrame) : bool :=
  distinct (columns df)
  && forallb (fun r => (List.length r =? List.length (columns df))%nat) (rows df).

(** The cells under the columns [cs] are all numbers (a float64 column). *)
Definition numeric (c : cell) : bool :=
  match c with
  | Num _ => true
  | Str _ => false
  end.

Definition float_columns (df : DataFrame) (cs : list string) : bool :=
  forallb (fun r => forallb (fun c => numeric (value_at (columns df) r c)) cs)
          (rows df).

(** ** 3. Standardize and clean ObsCore fields *)

(** The loop [for col in (...): if col not in df.columns: raise KeyError(...)]. *)
Fixpoint require_columns (df : DataFrame) (cols : list string) : result unit :=
  match cols with
  | [] => Ok tt
  | col :: cols' =>
      if has_column col df
      then require_columns df cols'
      else Raise (KeyError ("Missing required ObsCore column: " ++ col))
  end.

Definition harmonize_columns (df : DataFrame) : result DataFrame :=
  (* Angular resolution *)
  let df :=
    if negb (has_column "ang_res_arcsec" df) then
      if has_column "best_ang_res" df
      then setitem_column df "ang_res_arcsec" "best_ang_res"
      else setitem_scalar df "ang_res_arcsec" NaN
    else df in
  (* Band column *)
  let df :=
    if negb (has_column "band_list" df) && has_column "band" df
    then setitem_column df "band_list" "band"
    else df in
  (* Frequency columns *)
  _ <- require_columns df ["min_freq_GHz"; "max_freq_GHz"] ;;
  (* MOUS ID *)
  if has_column "member_ous_uid" df then
    Ok (setitem_column df "MOUS_ID" "member_ous_uid")
  else if has_column "member_ous_id" df then
    Ok (setitem_column df "MOUS_ID" "member_ous_id")
  else
    Raise (KeyError
      "ObsCore table missing MOUS identifier (member_ous_uid / member_ous_id).").

(** ** Row selection, concatenation, projection *)

(** [df[mask]] for a boolean mask aligned with the rows. *)
Fixpoint select (mask : list bool) (rs : list (list cell)) : list (list cell) :=
  match mask, rs with
  | b :: mask', r :: rs' => if b then r :: select mask' rs' else select mask' rs'
  | _, _ => []
  end.

Definition boolean_index (df : DataFrame) (mask : list bool) : DataFrame :=
  mkDataFrame (columns df) (select mask (rows df)).

(** Element-wise [&] of two masks. *)
Fixpoint mask_and (m1 m2 : list bool) : list bool :=
  match m1, m2 with
  | a :: m1', b :: m2' => (a && b) :: mask_and m1' m2'
  | _, _ => []
  end.

(** The columns of [pd.concat(frames)]: the union, in order of first
    appearance. *)
Definition union_columns (frames : list DataFrame) : list string :=
  fold_left
    (fun acc df =>
       acc ++ filter (fun c => negb (existsb (String.eqb c) acc)) (columns df))
    frames [].

(** The rows of [df] laid out along [cols], NaN where [df] has no such column. *)
Definition reindex (cols : list string) (df : DataFrame) : list (list cell) :=
  map (fun r => map (value_at (columns df) r) cols) (rows df).

(** [pd.concat(frames, ignore_index=True)] *)
Definition concat (frames : list DataFrame) : result DataFrame :=
  match frames with
  | [] => Raise (ValueError "No objects to concatenate")
  | _ =>
      let cols := union_columns frames in
      Ok (mkDataFrame cols (flat_map (reindex cols) frames))
  end.

(** [df[cols]] for a list of labels. *)
Definition getitem_columns (df : DataFrame) (cols : list string) : result DataFrame :=
  match find (fun c => negb (has_column c df)) cols with
  | Some c => Raise (KeyError c)
  | None => Ok (mkDataFrame cols (reindex cols df))
  end.

Fixpoint lookup (c : string) (mapping : list (string * string)) : option string :=
  match mapping with
  | [] => None
  | (k, v) :: rest => if String.eqb c k then Some v else lookup c rest
  end.

Definition renamed (mapping : list (string * string)) (c : string) : string :=
  match lookup c mapping with
  | Some c' => c'
  | None => c
  end.

(** [df.rename(columns=mapping)] *)
Definition rename (df : DataFrame) (mapping : list (string * string)) : DataFrame :=
  mkDataFrame (map (renamed mapping) (columns df)) (rows df).

(** ** Ordering of cells and sorting *)

(** Numbers by their float order, strings by code point, NaN after everything
    (pandas' [na_position='last']).  A column holds either numbers or strings;
    across the two kinds the order puts numbers first. *)
Definition cell_compare (a b : cell) : comparison :=
  match a, b with
  | Num x, Num y =>
      if is_nan x then (if is_nan y then Eq else Gt)
      else if is_nan y then Lt
      else if PrimFloat.ltb x y then Lt
      else if PrimFloat.ltb y x then Gt
      else Eq
  | Num x, Str _ => if is_nan x then Gt else Lt
  | Str _, Num y => if is_nan y then Lt else Gt
  | Str s, Str t => String.compare s t
  end.

Definition cell_ltb (a b : cell) : bool :=
  match cell_compare a b with Lt => true | _ => false end.

Definition cell_leb (a b : cell) : bool :=
  match cell_compare a b with Gt => false | _ => true end.

(** [==] on cells. *)
Definition cell_eqb (a b : cell) : bool :=
  match a, b with
  | Str s, Str t => String.eqb s t
  | Num x, Num y => PrimFloat.eqb x y
  | _, _ => false
  end.

(** Lexicographic comparison of sort keys. *)
Fixpoint key_compare (k1 k2 : list cell) : comparison :=
  match k1, k2 with
  | a :: k1', b :: k2' =>
      match cell_compare a b with
      | Eq => key_compare k1' k2'
      | c => c
      end
  | _, _ => Eq
  end.

Definition key_leb (k1 k2 : list cell) : bool :=
  match key_compare k1 k2 with Gt => false | _ => true end.

(** A stable sort: an element is put in front of the first element that is
    not below it, and elements are inserted from the right. *)
Section Sort.
Context {A : Type} (leb : A -> A -> bool).

Fixpoint insert (x : A) (l : list A) : list A :=
  match l with
  | [] => [x]
  | h :: t => if leb x h then x :: h :: t else h :: insert x t
  end.

Definition sort (l : list A) : list A := fold_right insert [] l.
End Sort.

(** The sort key of a row: its cells under the [by] columns. *)
Definition sort_key (cols by_ : list string) (r : list cell) : list cell :=
  map (value_at cols r) by_.

(** [df.sort_values(by)] for a list of column labels. *)
Definition sort_values (df : DataFrame) (by_ : list string) : result DataFrame :=
  match find (fun c => negb (has_column c df)) by_ with
  | Some c => Raise (KeyError c)
  | None =>
      let key := sort_key (columns df) by_ in
      Ok (mkDataFrame (columns df)
            (sort (fun r1 r2 => key_leb (key r1) (key r2)) (rows df)))
  end.

(** ** 1. User configuration *)

Definition MAPS_SOURCES : list string :=
  ["IM Lup"; "AS 209"; "GM Aur"; "HD 163296"; "MWC 480"].

(** SiO(v=0) transitions in GHz, in the order the dictionary lists them. *)
Definition SIO_V0_TRANSITIONS_GHZ : list (string * float) :=
  [ ("J=1-0",    43.423864%float);
    ("J=2-1",    86.846960%float);
    ("J=3-2",   130.268610%float);
    ("J=4-3",   173.688310%float);
    ("J=5-4",   217.104980%float);
    ("J=6-5",   260.518200%float);
    ("J=7-6",   303.927030%float);
    ("J=8-7",   347.331000%float);
    ("J=9-8",   390.728730%float);
    ("J=10-9",  434.120450%float);
    ("J=11-10", 477.506120%float);
    ("J=12-11", 520.885480%float);
    ("J=13-12", 564.258560%float);
    ("J=14-13", 607.625260%float);
    ("J=15-14", 650.985560%float);
    ("J=16-15", 694.339440%float);
    ("J=17-16", 737.686780%float);
    ("J=18-17", 781.027470%float);
    ("J=19-18", 824.361490%float);
    ("J=20-19", 867.688720%float) ].

Definition DO_DOWNLOAD : bool := false.

(** ** 2. Query ALMA Archive (public only) for ALL MAPS sources *)

(** What one call of [alminer.target([src], ...)] comes back with: an
    exception, [None], or a table. *)
Inductive query_outcome : Type :=
| QueryFailed (exc : string)
| NoTable
| Table (df : DataFrame).

Section Query.
(** The archive client, an external collaborator. *)
Variable target : string -> query_outcome.

(** The loop over the sources, which fills [all_obs]. *)
Fixpoint collect_observations (sources : list string) : list DataFrame :=
  match sources with
  | [] => []
  | src :: rest =>
      match target src with
      | QueryFailed _ => collect_observations rest
      | NoTable => collect_observations rest
      | Table df =>
          if (len df =? 0)%nat then collect_observations rest
          else setitem_scalar df "Source" (Str src) :: collect_observations rest
      end
  end.

Definition query_maps_sources (sources : list string) : result DataFrame :=
  let all_obs := collect_observations sources in
  match all_obs with
  | [] => Raise (RuntimeError "No observations returned for any MAPS source.")
  | _ =>
      combined <- concat all_obs ;;
      _ <- getitem combined "Source" ;;
      Ok combined
  end.
End Query.

(** ** 4. Frequency filtering for SiO(v=0) *)

(** [series < nu] and [series > nu] on one cell; a string does not compare
    with a float. *)
Definition lt_scalar (nu : float) (c : cell) : result bool :=
  match c with
  | Num x => Ok (PrimFloat.ltb x nu)
  | Str _ => Raise TypeError
  end.

Definition gt_scalar (nu : float) (c : cell) : result bool :=
  match c with
  | Num x => Ok (PrimFloat.ltb nu x)
  | Str _ => Raise TypeError
  end.

(** [(obs_df["min_freq_GHz"] < nu) & (obs_df["max_freq_GHz"] > nu)] *)
Definition transition_mask (obs_df : DataFrame) (nu : float) : result (list bool) :=
  lo <- getitem obs_df "min_freq_GHz" ;;
  below <- mapM (lt_scalar nu) lo ;;
  hi <- getitem obs_df "max_freq_GHz" ;;
  above <- mapM (gt_scalar nu) hi ;;
  Ok (mask_and below above).

(** The two annotations a selection gets. *)
Definition tag (sel : DataFrame) (trans : string) (nu : float) : DataFrame :=
  setitem_scalar (setitem_scalar sel "SiO_transition" (Str trans))
                 "SiO_freq_GHz" (Num nu).

(** The loop over the transitions, which fills [matches]. *)
Fixpoint scan_transitions (transitions : list (string * float)) (obs_df : DataFrame)
  : result (list DataFrame) :=
  match transitions with
  | [] => Ok []
  | (trans, nu) :: rest =>
      mask <- transition_mask obs_df nu ;;
      let sel := boolean_index obs_df mask in
      matches <- scan_transitions rest obs_df ;;
      Ok (if (0 <? len sel)%nat then tag sel trans nu :: matches else matches)
  end.

(** The matcher over an explicit transition table. *)
Definition find_matches (transitions : list (string * float)) (obs_df : DataFrame)
  : result DataFrame :=
  matches <- scan_transitions transitions obs_df ;;
  match matches with
  | [] => Ok empty_frame
  | _ =>
      all_matches <- concat matches ;;
      (* the per-source count that is printed reads the "Source" column *)
      _ <- getitem all_matches "Source" ;;
      Ok all_matches
  end.

Definition find_sio_spw_matches (obs_df : DataFrame) : result DataFrame :=
  find_matches SIO_V0_TRANSITIONS_GHZ obs_df.

(** ** 5. Build per-SPW and per-MOUS tables *)

Definition build_per_spw_table (df : DataFrame) : result DataFrame :=
  let keep_cols :=
    [ "Source"; "project_code"; "band_list";
      "min_freq_GHz"; "max_freq_GHz";
      "SiO_transition"; "SiO_freq_GHz";
      "ang_res_arcsec"; "MOUS_ID" ] in
  let keep_cols := filter (fun c => has_column c df) keep_cols in
  kept <- getitem_columns df keep_cols ;;
  let spw := rename kept [("project_code", "Project"); ("band_list", "ALMA_Band")] in
  sort_values spw ["Source"; "Project"; "ALMA_Band"; "SiO_freq_GHz"].

(** [", ".join(...)] *)
Fixpoint join (sep : string) (l : list string) : string :=
  match l with
  | [] => ""
  | [x] => x
  | x :: rest => x ++ sep ++ join sep rest
  end.

(** [Series.unique()]: the values in order of first appearance, [seen] being
    the values met so far. *)
Fixpoint unique_from {A : Type} (eqb : A -> A -> bool) (seen l : list A) : list A :=
  match l with
  | [] => []
  | x :: l' =>
      if existsb (eqb x) seen then unique_from eqb seen l'
      else x :: unique_from eqb (x :: seen) l'
  end.

Definition unique {A : Type} (eqb : A -> A -> bool) (l : list A) : list A :=
  unique_from eqb [] l.

Section Aggregation.
(** [str(x)] of a float, the text pandas' [astype(str)] gives a number. *)
Variable float_str : float -> string.

Definition astype_str (c : cell) : string :=
  match c with
  | Str s => s
  | Num x => float_str x
  end.

(** [", ".join(sorted(series.astype(str).unique()))] *)
Definition join_unique (series : list cell) : string :=
  join ", " (sort String.leb (unique String.eqb (map astype_str series))).

(** How [agg] reduces each column, in the order of its dictionary. *)
Inductive reduction : Type := JoinUnique | Min | Max.

(** The reductions ["min"] and ["max"] skip NaN and give NaN for a group with
    nothing else.  The values left are compared one after the other with [<]
    (with [>] for the maximum); a string does not compare with a float, so a
    group that holds both raises [TypeError].

    Two floats can be equal without being the same, the zeros of either sign.
    Which of the two the reduction keeps is decided inside pandas and is not
    the same on all its code paths: [later_of_equal how acc y] tells whether
    the reduction [how], holding [acc], takes the later, equal [y] instead. *)
Variable later_of_equal : reduction -> float -> float -> bool.

Definition min_step (acc y : cell) : result cell :=
  match acc, y with
  | Num a, Num b =>
      Ok (if PrimFloat.ltb b a then y
          else if PrimFloat.eqb b a && later_of_equal Min a b then y
          else acc)
  | Str s, Str t => Ok (if String.ltb t s then y else acc)
  | _, _ => Raise TypeError
  end.

Definition max_step (acc y : cell) : result cell :=
  match acc, y with
  | Num a, Num b =>
      Ok (if PrimFloat.ltb a b then y
          else if PrimFloat.eqb b a && later_of_equal Max a b then y
          else acc)
  | Str s, Str t => Ok (if String.ltb s t then y else acc)
  | _, _ => Raise TypeError
  end.

(** The running value of a reduction over the cells of a group, which stops
    at the first comparison that raises. *)
Fixpoint reduce_left (step : cell -> cell -> result cell) (acc : cell)
         (l : list cell) : result cell :=
  match l with
  | [] => Ok acc
  | y :: l' => acc' <- step acc y ;; reduce_left step acc' l'
  end.

Definition agg_min (l : list cell) : result cell :=
  match filter (fun c => negb (isna c)) l with
  | [] => Ok NaN
  | x :: xs => reduce_left min_step x xs
  end.

Definition agg_max (l : list cell) : result cell :=
  match filter (fun c => negb (isna c)) l with
  | [] => Ok NaN
  | x :: xs => reduce_left max_step x xs
  end.

Definition reduce (how : reduction) (series : list cell) : result cell :=
  match how with
  | JoinUnique => Ok (Str (join_unique series))
  | Min => agg_min series
  | Max => agg_max series
  end.

Definition aggregations : list (string * reduction) :=
  [ ("Source", JoinUnique);
    ("project_code", JoinUnique);
    ("band_list", JoinUnique);
    ("min_freq_GHz", Min);
    ("max_freq_GHz", Max);
    ("SiO_transition", JoinUnique);
    ("SiO_freq_GHz", JoinUnique);
    ("ang_res_arcsec", Min) ].

(** The keys of [df.groupby(by)]: the distinct values that are not missing,
    sorted. *)
Definition group_keys (cols : list string) (by_ : string) (rs : list (list cell))
  : list cell :=
  sort cell_leb
    (unique cell_eqb
       (filter (fun k => negb (isna k)) (map (fun r => value_at cols r by_) rs))).

(** The rows of one group, in their order in the table. *)
Definition group_rows (cols : list string) (by_ : string) (key : cell)
           (rs : list (list cell)) : list (list cell) :=
  filter (fun r => cell_eqb (value_at cols r by_) key) rs.

(** The row [agg] makes of one group, after [reset_index]: the key, then one
    cell per aggregated column.  A reduction that raises ends the call. *)
Definition summary_row (cols : list string) (by_ : string)
           (aggs : list (string * reduction)) (rs : list (list cell)) (key : cell)
  : result (list cell) :=
  cells <- mapM (fun '(c, how) =>
                   reduce how (map (fun r => value_at cols r c)
                                   (group_rows cols by_ key rs)))
                aggs ;;
  Ok (key :: cells).

(** [df.groupby(by).agg(aggs).reset_index()].  [groupby] raises on a key that
    is no column; [agg] then raises on the aggregated columns that are
    absent, which its message lists sorted by name. *)
Definition groupby_agg (df : DataFrame) (by_ : string)
           (aggs : list (string * reduction)) : result DataFrame :=
  if negb (has_column by_ df) then Raise (KeyError by_)
  else
    match filter (fun c => negb (has_column c df)) (map fst aggs) with
    | [] =>
        summaries <- mapM (summary_row (columns df) by_ aggs (rows df))
                          (group_keys (columns df) by_ (rows df)) ;;
        Ok (mkDataFrame (by_ :: map fst aggs) summaries)
    | missing =>
        Raise (KeyError ("Column(s) ['" ++ join "', '" (sort String.leb missing)
                         ++ "'] do not exist"))
    end.

Definition build_per_mous_table (df : DataFrame) : result DataFrame :=
  grouped <- groupby_agg df "MOUS_ID" aggregations ;;
  let grouped := rename grouped
    [ ("project_code", "Project");
      ("band_list", "ALMA_Band");
      ("SiO_transition", "SiO_transitions");
      ("SiO_freq_GHz", "SiO_freqs_GHz") ] in
  sort_values grouped ["Source"; "Project"].

(** ** 6. Save all output tables *)

(** The serializers of pandas, external collaborators: the text of
    [to_csv(index=False)] and of
    [to_latex(index=False, float_format="%.6f", columns=...)], which raises on
    a column the table does not have. *)
Variable to_csv : DataFrame -> string.
Variable to_latex : list string -> DataFrame -> result string.

(** The file system, an external collaborator: opening a path for writing,
    which creates the file or empties it, and writing a text to the file
    opened at a path, up to closing it.  Either can raise. *)
Variable open_w : string -> result unit.
Variable write : string -> string -> result unit.

(** What a file holds at the end of a run: the text written to it, or some
    part of that text when the write raised. *)
Inductive content : Type :=
| Text (s : string)
| CutShort.

(** A run leaves the files it wrote, oldest first, and ends normally or with
    an exception. *)
Record run : Type := mkRun {
  written : list (string * content);
  status : result unit
}.

(** One file written after the files [files]: the path is opened, the text is
    computed, the text is written.  An exception ends the run with what is on
    disk at that point. *)
Definition write_file (files : list (string * content)) (path : string)
           (text : result string) : run :=
  match open_w path with
  | Raise e => mkRun files (Raise e)
  | Ok _ =>
      match text with
      | Raise e => mkRun (files ++ [(path, Text "")]) (Raise e)
      | Ok s =>
          match write path s with
          | Raise e => mkRun (files ++ [(path, CutShort)]) (Raise e)
          | Ok _ => mkRun (files ++ [(path, Text s)]) (Ok tt)
          end
      end
  end.

(** The next statement runs when the one before ended normally. *)
Definition and_then (r : run) (k : list (string * content) -> run) : run :=
  match status r with
  | Ok _ => k (written r)
  | Raise _ => r
  end.

Definition save_tables (spw mous : DataFrame) : run :=
  (* CSV *)
  and_then (write_file [] "sio_spw_matches.csv" (Ok (to_csv spw))) (fun files =>
  and_then (write_file files "sio_mous_summary.csv" (Ok (to_csv mous))) (fun files =>
  (* LaTeX *)
  and_then (write_file files "sio_spw_matches.tex"
              (to_latex [ "Source"; "Project"; "ALMA_Band";
                          "min_freq_GHz"; "max_freq_GHz";
                          "SiO_transition"; "SiO_freq_GHz";
                          "ang_res_arcsec" ] spw)) (fun files =>
  write_file files "sio_mous_summary.tex"
    (to_latex [ "MOUS_ID"; "Source"; "Project"; "ALMA_Band";
                "SiO_transitions"; "SiO_freqs_GHz";
                "min_freq_GHz"; "max_freq_GHz";
                "ang_res_arcsec" ] mous)))).

(** ** 7. Optional: Download SiO-covering MOUS IDs *)

(** Every retrieval failure is caught inside the loop; only reading the
    column of identifiers can raise. *)
Definition download_mous_products (mous_table : DataFrame) : result unit :=
  _ <- getitem mous_table "MOUS_ID" ;;
  Ok tt.

(** ** 8. Main execution *)

Variable target : string -> query_outcome.

(** The stages before the writer write nothing: when one of them raises, the
    run ends there with no file. *)
Definition stage {A : Type} (m : result A) (k : A -> run) : run :=
  match m with
  | Ok a => k a
  | Raise e => mkRun [] (Raise e)
  end.

Definition main : run :=
  stage (query_maps_sources target MAPS_SOURCES) (fun obs =>
  stage (harmonize_columns obs) (fun obs =>
  stage (find_sio_spw_matches obs) (fun sio_spw =>
  if empty sio_spw then mkRun [] (Ok tt)
  else
    stage (build_per_spw_table sio_spw) (fun spw_table =>
    stage (build_per_mous_table sio_spw) (fun mous_table =>
    let saved := save_tables spw_table mous_table in
    match status saved with
    | Raise e => saved
    | Ok _ =>
        if DO_DOWNLOAD
        then mkRun (written saved) (download_mous_products mous_table)
        else saved
    end))))).
End Aggregation.

(** ** 7, in detail: the download loop *)

(** [Series.unique()] takes two cells for the same value when they are equal
    or both missing. *)
Definition cell_same (a b : cell) : bool :=
  cell_eqb a b || (isna a && isna b).

(** What the download loop does, in order: it asks for an identifier, and it
    reports the exception when the retrieval raised. *)
Inductive download_event : Type :=
| Requested (uid : cell)
| ReportedFailure (uid : cell) (e : exn).

Section Download.
(** [alma.retrieve_data_from_uid(uid, cache=True)], an external collaborator. *)
Variable retrieve_data_from_uid : cell -> result unit.

(** The loop [for uid in uids: try: ... except Exception: ...]. *)
Fixpoint download_loop (uids : list cell) : list download_event :=
  match uids with
  | [] => []
  | uid :: rest =>
      match retrieve_data_from_uid uid with
      | Ok _ => Requested uid :: download_loop rest
      | Raise e => Requested uid :: ReportedFailure uid e :: download_loop rest
      end
  end.

(** [download_mous_products], with what it does. *)
Definition download_events (mous_table : DataFrame) : result (list download_event) :=
  ids <- getitem mous_table "MOUS_ID" ;;
  Ok (download_loop (unique cell_same ids)).

(** The identifiers asked for, in order. *)
Definition requests (events : list download_event) : list cell :=
  flat_map (fun ev => match ev with
                      | Requested uid => [uid]
                      | ReportedFailure _ _ => []
                      end) events.
End Download.

(** ** Vocabulary of the properties *)

(** The columns after [df[c] = ...]. *)
Definition add_column (cols : list string) (c : string) : list string :=
  if existsb (String.eqb c) cols then cols else cols ++ [c].

(** The columns of a table of matches over observations with columns [cols]. *)
Definition matched_columns (cols : list string) : list string :=
  add_column (add_column cols "SiO_transition") "SiO_freq_GHz".

(** The MatchRecord of row [r] for one transition: [r] with the two
    annotations written. *)
Definition match_record (cols : list string) (r : list cell)
           (trans : string) (nu : float) : list cell :=
  set_cell (add_column cols "SiO_transition")
           (set_cell cols r "SiO_transition" (Str trans))
           "SiO_freq_GHz" (Num nu).

(** [min_freq_GHz < nu < max_freq_GHz] on the window of row [r]. *)
Definition strictly_inside (cols : list string) (r : list cell) (nu : float) : bool :=
  match value_at cols r "min_freq_GHz", value_at cols r "max_freq_GHz" with
  | Num lo, Num hi => PrimFloat.ltb lo nu && PrimFloat.ltb nu hi
  | _, _ => false
  end.

(** The transitions of a table that row [r] covers, and its MatchRecords, one
    per covered transition. *)
Definition covered (transitions : list (string * float)) (cols : list string)
           (r : list cell) : list (string * float) :=
  filter (fun t => strictly_inside cols r (snd t)) transitions.

Definition matches_of (transitions : list (string * float)) (cols : list string)
           (r : list cell) : list (list cell) :=
  map (fun t => match_record cols r (fst t) (snd t)) (covered transitions cols r).

(** A query outcome that the loop keeps: a table with at least one row. *)
Definition yields_rows (o : query_outcome) : bool :=
  match o with
  | Table df => negb (len df =? 0)%nat
  | QueryFailed _ | NoTable => false
  end.

(** The cells of the rows [rs] under column [c]. *)
Definition column_of (cols : list string) (c : string) (rs : list (list cell))
  : list cell :=
  map (fun r => value_at cols r c) rs.

(** [v] is the text of the sorted, deduplicated, comma-joined union of the
    string representations of [series]. *)
Definition joined_union (float_str : float -> string) (series : list cell)
           (v : cell) : Prop :=
  exists names,
    v = Str (join ", " names)
    /\ Sorted (fun s t => String.leb s t = true) names
    /\ NoDup names
    /\ forall s, In s names <-> In s (map (astype_str float_str) series).

(** [m] is the minimum (maximum) of a series of floats: NaN when every value
    is missing, and otherwise a value of the series that is not missing and
    that no value of the series is below (above), in the order of the
    machine. *)
Definition minimum_of (series : list cell) (m : cell) : Prop :=
  ((forall v, In v series -> isna v = true) /\ m = NaN)
  \/ (exists x,
        m = Num x /\ In (Num x) series /\ is_nan x = false
        /\ forall y, In (Num y) series -> PrimFloat.ltb y x = false).

Definition maximum_of (series : list cell) (m : cell) : Prop :=
  ((forall v, In v series -> isna v = true) /\ m = NaN)
  \/ (exists x,
        m = Num x /\ In (Num x) series /\ is_nan x = false
        /\ forall y, In (Num y) series -> PrimFloat.ltb x y = false).

(** The columns the per-group builder reads, and the columns of its table. *)
Definition mous_input_columns : list string :=
  [ "MOUS_ID"; "Source"; "project_code"; "band_list"; "min_freq_GHz";
    "max_freq_GHz"; "SiO_transition"; "SiO_freq_GHz"; "ang_res_arcsec" ].

Definition mous_summary_columns : list string :=
  [ "MOUS_ID"; "Source"; "Project"; "ALMA_Band"; "min_freq_GHz";
    "max_freq_GHz"; "SiO_transitions"; "SiO_freqs_GHz"; "ang_res_arcsec" ].

Definition has_columns (cs : list string) (df : DataFrame) : bool :=
  forallb (fun c => has_column c df) cs.

(** The rows of [df] whose dataset-group identifier is [key], in their order
    in [df]. *)
Definition mous_group (df : DataFrame) (key : cell) : list (list cell) :=
  filter (fun r => cell_eqb (value_at (columns df) r "MOUS_ID") key) (rows df).

(** The text of a cell that holds a string. *)
Definition text_of (c : cell) : string :=
  match c with
  | Str s => s
  | Num _ => ""
  end.

(** The pair (Source, Project) of a summary row, and the order of such pairs:
    by the first string, then by the second, each by code point. *)
Definition source_project (cols : list string) (row : list cell) : string * string :=
  (text_of (value_at cols row "Source"), text_of (value_at cols row "Project")).

Definition pair_leb (a b : string * string) : bool :=
  match String.compare (fst a) (fst b) with
  | Lt => true
  | Eq => String.leb (snd a) (snd b)
  | Gt => false
  end.

(** [df[c]] of a table that has the column, as a plain list. *)
Definition column (df : DataFrame) (c : string) : list cell :=
  column_of (columns df) c (rows df).

(** ** Auxiliary definitions of the proofs *)

(** The table after the two defaulting steps of the harmonizer (angular
    resolution, band), before it checks the frequency columns. *)
Definition defaulted (df : DataFrame) : DataFrame :=
  let df :=
    if negb (has_column "ang_res_arcsec" df) then
      if has_column "best_ang_res" df
      then setitem_column df "ang_res_arcsec" "best_ang_res"
      else setitem_scalar df "ang_res_arcsec" NaN
    else df in
  if negb (has_column "band_list" df) && has_column "band" df
  then setitem_column df "band_list" "band"
  else df.

(** The float under a column, zero when the cell is no number (never read on
    a float64 column). *)
Definition float_at (cols : list string) (r : list cell) (c : string) : float :=
  match value_at cols r c with
  | Num x => x
  | Str _ => 0%float
  end.

(** The frames the loop of the matcher collects: one per transition with a
    selection that is not empty. *)
Definition selections (transitions : list (string * float)) (obs_df : DataFrame)
  : list DataFrame :=
  flat_map
    (fun t =>
       let sel := mkDataFrame (columns obs_df)
                    (filter (fun r => strictly_inside (columns obs_df) r (snd t))
                            (rows obs_df)) in
       if (0 <? len sel)%nat then [tag sel (fst t) (snd t)] else [])
    transitions.

(** The constants of the per-SPW builder: the columns it keeps, its renaming
    and the columns it sorts by. *)
Definition spw_keep_columns : list string :=
  [ "Source"; "project_code"; "band_list"; "min_freq_GHz"; "max_freq_GHz";
    "SiO_transition"; "SiO_freq_GHz"; "ang_res_arcsec"; "MOUS_ID" ].

Definition spw_renaming : list (string * string) :=
  [("project_code", "Project"); ("band_list", "ALMA_Band")].

Definition spw_sort_columns : list string :=
  ["Source"; "Project"; "ALMA_Band"; "SiO_freq_GHz"].

Definition add_columns (acc : list string) (df : DataFrame) : list string :=
  acc ++ filter (fun c => negb (existsb (String.eqb c) acc)) (columns df).

(** The table the per-SPW builder sorts: the kept columns that are present,
    renamed. *)
Definition spw_projection (df : DataFrame) : DataFrame :=
  rename (mkDataFrame (filter (fun c => has_column c df) spw_keep_columns)
                      (reindex (filter (fun c => has_column c df) spw_keep_columns) df))
         spw_renaming.

(** [r1] is below [r2] in the order [sort_values] sorts by. *)
Definition row_leb (cols by_ : list string) (r1 r2 : list cell) : bool :=
  key_leb (sort_key cols by_ r1) (sort_key cols by_ r2).

(** A row whose window strictly brackets its matched frequency. *)
Definition bracketed (cols : list string) (r : list cell) : Prop :=
  exists lo nu hi,
    value_at cols r "min_freq_GHz" = Num lo
    /\ value_at cols r "SiO_freq_GHz" = Num nu
    /\ value_at cols r "max_freq_GHz" = Num hi
    /\ PrimFloat.ltb lo nu = true /\ PrimFloat.ltb nu hi = true.

(** Two elements are tied in an order when each is below the other. *)
Definition tied {A : Type} (leb : A -> A -> bool) (a b : A) : bool :=
  leb a b && leb b a.

(** ** Example tables *)

(** A reduction that takes the later of two equal floats, and one that keeps
    the earlier. *)
Definition later_kept : reduction -> float -> float -> bool := fun _ _ _ => true.

Definition earlier_kept : reduction -> float -> float -> bool := fun _ _ _ => false.

(** A table with a source and a MOUS identifier but no frequency column. *)
Definition no_frequency_frame : DataFrame :=
  mkDataFrame ["Source"; "member_ous_uid"]
              [[Str "AS 209"; Str "uid://A001/X1/X2"]].

(** Five harmonized rows: a window around J=2-1, a window whose lower edge is
    the J=1-0 frequency, one whose upper edge is the J=2-1 frequency, one that
    covers no line, and a wide one that covers J=2-1 and J=3-2. *)
Definition example_obs : DataFrame :=
  mkDataFrame
    [ "Source"; "project_code"; "band_list"; "min_freq_GHz"; "max_freq_GHz";
      "ang_res_arcsec"; "MOUS_ID" ]
    [ [ Str "AS 209"; Str "2018.1.01055.L"; Str "3"; Num 86.0; Num 87.0;
        Num 0.3; Str "uid://A001/X133d/X1a" ];
      [ Str "GM Aur"; Str "2018.1.01055.L"; Str "1"; Num 43.423864; Num 44.0;
        Num 0.5; Str "uid://A001/X133d/X2b" ];
      [ Str "IM Lup"; Str "2016.1.00484.L"; Str "3"; Num 85.0; Num 86.84696;
        Num 0.4; Str "uid://A001/X133d/X3c" ];
      [ Str "HD 163296"; Str "2016.1.00484.L"; Str "3"; Num 100.0; Num 110.0;
        Num 0.2; Str "uid://A001/X133d/X4d" ];
      [ Str "MWC 480"; Str "2018.1.01055.L"; Str "3"; Num 80.0; Num 135.0;
        Num 0.6; Str "uid://A001/X133d/X1a" ] ].

(** An archive that fails for one source, has nothing for another and, for
    the rest, one window between the J=2-1 and J=3-2 lines. *)
Definition quiet_target (src : string) : query_outcome :=
  if String.eqb src "AS 209" then QueryFailed "timeout"
  else if String.eqb src "GM Aur" then NoTable
  else Table (mkDataFrame
                [ "project_code"; "band"; "min_freq_GHz"; "max_freq_GHz";
                  "best_ang_res"; "member_ous_uid" ]
                [ [ Str "2018.1.01055.L"; Str "3"; Num 100.0; Num 110.0;
                    Num 0.3; Str "uid://A001/X133d/X1a" ] ]).

(** What the query stage and the harmonizer make of that archive. *)
Definition quiet_obs : DataFrame :=
  Eval vm_compute in
    match query_maps_sources quiet_target MAPS_SOURCES with
    | Ok df => df
    | Raise _ => empty_frame
    end.

Definition quiet_harmonized : DataFrame :=
  Eval vm_compute in
    match harmonize_columns quiet_obs with
    | Ok df => df
    | Raise _ => empty_frame
    end.

(** The text Python prints for the rest frequencies of the table
    ([str(130.268610)] is ["130.26861"]); a float that is none of them prints
    as ["nan"] here. *)
Definition transition_str (x : float) : string :=
  match find (fun e => PrimFloat.eqb x (fst e))
             [ (43.423864%float, "43.423864"); (86.846960%float, "86.84696");
               (130.268610%float, "130.26861"); (173.688310%float, "173.68831");
               (217.104980%float, "217.10498"); (260.518200%float, "260.5182");
               (303.927030%float, "303.92703"); (347.331000%float, "347.331");
               (390.728730%float, "390.72873"); (434.120450%float, "434.12045");
               (477.506120%float, "477.50612"); (520.885480%float, "520.88548");
               (564.258560%float, "564.25856"); (607.625260%float, "607.62526");
               (650.985560%float, "650.98556"); (694.339440%float, "694.33944");
               (737.686780%float, "737.68678"); (781.027470%float, "781.02747");
               (824.361490%float, "824.36149"); (867.688720%float, "867.68872") ] with
  | Some e => snd e
  | None => "nan"
  end.

(** MatchRecords of two dataset groups.  The first has the windows [80, 90]
    and [85, 95] GHz of two sources; the second is one wide window that
    covers J=1-0 and J=3-2. *)
Definition example_matches : DataFrame :=
  mkDataFrame
    [ "Source"; "project_code"; "band_list"; "min_freq_GHz"; "max_freq_GHz";
      "ang_res_arcsec"; "MOUS_ID"; "SiO_transition"; "SiO_freq_GHz" ]
    [ [ Str "GM Aur"; Str "2018.1.01055.L"; Str "3"; Num 85.0; Num 95.0;
        Num 0.5; Str "uid://A001/X133d/X1a"; Str "J=2-1"; Num 86.84696 ];
      [ Str "IM Lup"; Str "2016.1.00484.L"; Str "1 4"; Num 40.0; Num 135.0;
        Num 0.4; Str "uid://A001/X133d/X3c"; Str "J=1-0"; Num 43.423864 ];
      [ Str "AS 209"; Str "2018.1.01055.L"; Str "3"; Num 80.0; Num 90.0;
        Num 0.3; Str "uid://A001/X133d/X1a"; Str "J=2-1"; Num 86.84696 ];
      [ Str "IM Lup"; Str "2016.1.00484.L"; Str "1 4"; Num 40.0; Num 135.0;
        Num 0.4; Str "uid://A001/X133d/X3c"; Str "J=3-2"; Num 130.26861 ] ].

(** A group covering J=1-0 and J=3-2 only. *)
Definition two_line_matches : DataFrame :=
  mkDataFrame
    [ "Source"; "project_code"; "band_list"; "min_freq_GHz"; "max_freq_GHz";
      "ang_res_arcsec"; "MOUS_ID"; "SiO_transition"; "SiO_freq_GHz" ]
    [ [ Str "IM Lup"; Str "2016.1.00484.L"; Str "1 4"; Num 40.0; Num 135.0;
        Num 0.4; Str "uid://A001/X133d/X3c"; Str "J=1-0"; Num 43.423864 ];
      [ Str "IM Lup"; Str "2016.1.00484.L"; Str "1 4"; Num 40.0; Num 135.0;
        Num 0.4; Str "uid://A001/X133d/X3c"; Str "J=3-2"; Num 130.26861 ] ].

(** An archive table with neither [band_list] nor [band], which the
    harmonizer accepts as it is. *)
Definition no_band_obs : DataFrame :=
  mkDataFrame
    [ "Source"; "project_code"; "min_freq_GHz"; "max_freq_GHz";
      "best_ang_res"; "member_ous_uid" ]
    [ [ Str "AS 209"; Str "2018.1.01055.L"; Num 86.0; Num 87.0;
        Num 0.3; Str "uid://A001/X133d/X1a" ] ].

(** What the harmonizer and the matcher make of it. *)
Definition no_band_matches : DataFrame :=
  mkDataFrame
    [ "Source"; "project_code"; "min_freq_GHz"; "max_freq_GHz"; "best_ang_res";
      "member_ous_uid"; "ang_res_arcsec"; "MOUS_ID"; "SiO_transition";
      "SiO_freq_GHz" ]
    [ [ Str "AS 209"; Str "2018.1.01055.L"; Num 86.0; Num 87.0; Num 0.3;
        Str "uid://A001/X133d/X1a"; Num 0.3; Str "uid://A001/X133d/X1a";
        Str "J=2-1"; Num 86.84696 ] ].

(** An archive table with the legacy names of the resolution and of the
    identifier, and with [band]. *)
Definition legacy_obs : DataFrame :=
  mkDataFrame
    [ "Source"; "band"; "min_freq_GHz"; "max_freq_GHz"; "best_ang_res";
      "member_ous_id" ]
    [ [ Str "AS 209"; Str "3"; Num 86.0; Num 87.0; Num 0.3;
        Str "uid://A001/X133d/X1a" ];
      [ Str "GM Aur"; Str "6"; Num 217.0; Num 218.0; NaN;
        Str "uid://A001/X133d/X2b" ] ].

Definition legacy_harmonized : DataFrame :=
  mkDataFrame
    [ "Source"; "band"; "min_freq_GHz"; "max_freq_GHz"; "best_ang_res";
      "member_ous_id"; "ang_res_arcsec"; "band_list"; "MOUS_ID" ]
    [ [ Str "AS 209"; Str "3"; Num 86.0; Num 87.0; Num 0.3;
        Str "uid://A001/X133d/X1a"; Num 0.3; Str "3";
        Str "uid://A001/X133d/X1a" ];
      [ Str "GM Aur"; Str "6"; Num 217.0; Num 218.0; NaN;
        Str "uid://A001/X133d/X2b"; NaN; Str "6";
        Str "uid://A001/X133d/X2b" ] ].

(** MatchRecords without their angular resolution and their identifier. *)
Definition partial_matches : DataFrame :=
  mkDataFrame
    [ "Source"; "project_code"; "band_list"; "min_freq_GHz"; "max_freq_GHz";
      "SiO_transition"; "SiO_freq_GHz"; "best_ang_res" ]
    [ [ Str "GM Aur"; Str "2018.1.01055.L"; Str "3"; Num 85.0; Num 95.0;
        Str "J=2-1"; Num 86.84696; Num 0.5 ];
      [ Str "AS 209"; Str "2018.1.01055.L"; Str "3"; Num 80.0; Num 135.0;
        Str "J=3-2"; Num 130.26861; Num 0.3 ];
      [ Str "AS 209"; Str "2018.1.01055.L"; Str "3"; Num 80.0; Num 135.0;
        Str "J=2-1"; Num 86.84696; Num 0.3 ] ].

(** The summary of [example_matches]. *)
Definition example_summary : DataFrame :=
  mkDataFrame mous_summary_columns
    [ [ Str "uid://A001/X133d/X1a"; Str "AS 209, GM Aur"; Str "2018.1.01055.L";
        Str "3"; Num 80.0; Num 95.0; Str "J=2-1"; Str "86.84696"; Num 0.3 ];
      [ Str "uid://A001/X133d/X3c"; Str "IM Lup"; Str "2016.1.00484.L";
        Str "1 4"; Num 40.0; Num 135.0; Str "J=1-0, J=3-2";
        Str "130.26861, 43.423864"; Num 0.4 ] ].

(** MatchRecords of four dataset groups, one row each: X4 and X2 of AS 209
    in one project, X1 of IM Lup, X3 of AS 209 in an earlier project. *)
Definition order_matches : DataFrame :=
  mkDataFrame
    [ "Source"; "project_code"; "band_list"; "min_freq_GHz"; "max_freq_GHz";
      "ang_res_arcsec"; "MOUS_ID"; "SiO_transition"; "SiO_freq_GHz" ]
    [ [ Str "AS 209"; Str "2018.1.01055.L"; Str "3"; Num 85.0; Num 95.0;
        Num 0.5; Str "uid://A001/X133d/X4"; Str "J=2-1"; Num 86.84696 ];
      [ Str "IM Lup"; Str "2018.1.01055.L"; Str "3"; Num 85.0; Num 95.0;
        Num 0.4; Str "uid://A001/X133d/X1"; Str "J=2-1"; Num 86.84696 ];
      [ Str "AS 209"; Str "2018.1.01055.L"; Str "3"; Num 80.0; Num 90.0;
        Num 0.3; Str "uid://A001/X133d/X2"; Str "J=2-1"; Num 86.84696 ];
      [ Str "AS 209"; Str "2016.1.00484.L"; Str "3"; Num 80.0; Num 90.0;
        Num 0.3; Str "uid://A001/X133d/X3"; Str "J=2-1"; Num 86.84696 ] ].

(** An archive with one table, for AS 209, whose window is around J=2-1. *)
Definition line_target (src : string) : query_outcome :=
  if String.eqb src "AS 209" then
    Table (mkDataFrame
             [ "project_code"; "band_list"; "min_freq_GHz"; "max_freq_GHz";
               "best_ang_res"; "member_ous_uid" ]
             [ [ Str "2018.1.01055.L"; Str "3"; Num 86.0; Num 87.0;
                 Num 0.3; Str "uid://A001/X133d/X1a" ] ])
  else NoTable.

(** What the query stage and the harmonizer make of that archive. *)
Definition line_obs : DataFrame :=
  Eval vm_compute in
    match query_maps_sources line_target MAPS_SOURCES with
    | Ok df => df
    | Raise _ => empty_frame
    end.

Definition line_harmonized : DataFrame :=
  Eval vm_compute in
    match harmonize_columns line_obs with
    | Ok df => df
    | Raise _ => empty_frame
    end.

(** ** Facts about columns *)

Lemma has_column_In c df : has_column c df = true <-> In c (columns df).
Proof.
  unfold has_column. rewrite existsb_exists. split.
  - intros [x [Hin Heq]]. apply String.eqb_eq in Heq. now subst.
  - intros Hin. exists c. split; [assumption | apply String.eqb_refl].
Qed.

Lemma has_column_assign c c' df f :
  has_column c' (assign df c f) = has_column c' df || String.eqb c' c.
Proof.
  unfold assign, has_column at 1. simpl.
  destruct (has_column c df) eqn:Hc.
  - fold (has_column c' df).
    destruct (String.eqb c' c) eqn:Heq; [| now rewrite orb_false_r].
    apply String.eqb_eq in Heq. subst. now rewrite Hc.
  - rewrite existsb_app. simpl. now rewrite orb_false_r.
Qed.

Lemma has_column_defaulted c df :
  c <> "ang_res_arcsec" -> c <> "band_list" ->
  has_column c (defaulted df) = has_column c df.
Proof.
  intros Ha Hb. apply String.eqb_neq in Ha, Hb.
  unfold defaulted, setitem_column, setitem_scalar.
  repeat match goal with
         | |- context [if ?b then _ else _] => destruct b
         end;
    rewrite ?has_column_assign, ?Ha, ?Hb, ?orb_false_r; reflexivity.
Qed.

Lemma harmonize_columns_unfold df :
  harmonize_columns df =
  (_ <- require_columns (defaulted df) ["min_freq_GHz"; "max_freq_GHz"] ;;
   if has_column "member_ous_uid" (defaulted df) then
     Ok (setitem_column (defaulted df) "MOUS_ID" "member_ous_uid")
   else if has_column "member_ous_id" (defaulted df) then
     Ok (setitem_column (defaulted df) "MOUS_ID" "member_ous_id")
   else
     Raise (KeyError
       "ObsCore table missing MOUS identifier (member_ous_uid / member_ous_id).")).
Proof. reflexivity. Qed.

(** C6. Whenever [min_freq_GHz] or [max_freq_GHz] is absent from its input the
    harmonizer raises a [KeyError] whose message names the missing column, and
    it names [min_freq_GHz] whenever that one is absent, so also when both
    are. *)
Theorem harmonize_columns_missing_frequency (df : DataFrame) :
  has_column "min_freq_GHz" df = false \/ has_column "max_freq_GHz" df = false ->
  harmonize_columns df =
    Raise (KeyError ("Missing required ObsCore column: " ++
                     (if has_column "min_freq_GHz" df then "max_freq_GHz"
                      else "min_freq_GHz")))
  /\ (has_column "min_freq_GHz" df = false ->
      has_column "max_freq_GHz" df = false ->
      harmonize_columns df =
        Raise (KeyError "Missing required ObsCore column: min_freq_GHz")).
Proof.
  intros H.
  assert (Hmin : has_column "min_freq_GHz" (defaulted df) = has_column "min_freq_GHz" df)
    by (apply has_column_defaulted; discriminate).
  assert (Hmax : has_column "max_freq_GHz" (defaulted df) = has_column "max_freq_GHz" df)
    by (apply has_column_defaulted; discriminate).
  rewrite harmonize_columns_unfold. unfold require_columns. rewrite Hmin, Hmax.
  split.
  - destruct (has_column "min_freq_GHz" df); [| reflexivity].
    destruct H as [H | H]; [discriminate | now rewrite H].
  - intros H1 _. now rewrite H1.
Qed.

Lemma harmonize_columns_missing_frequency_witness :
  harmonize_columns no_frequency_frame =
    Raise (KeyError "Missing required ObsCore column: min_freq_GHz").
Proof.
  apply (harmonize_columns_missing_frequency no_frequency_frame).
  - left. reflexivity.
  - reflexivity.
  - reflexivity.
Defined.

(** ** The order of floats

    [PrimFloat.ltb] is the IEEE comparison of the machine; its specification
    on [spec_float] gives the two facts the sorting and the reductions need. *)

Ltac cmp_cases :=
  repeat match goal with
         | |- context [Z.compare ?a ?b] => destruct (Z.compare_spec a b)
         | H : context [Z.compare ?a ?b] |- _ => destruct (Z.compare_spec a b)
         | |- context [Pos.compare ?a ?b] => destruct (Pos.compare_spec a b)
         | H : context [Pos.compare ?a ?b] |- _ => destruct (Pos.compare_spec a b)
         end.

Ltac by_sign :=
  repeat match goal with
         | s : bool |- _ => destruct s
         end;
  simpl; intros; first [discriminate | reflexivity | idtac].

Ltac plain_pos_compare :=
  repeat match goal with
         | H : Some _ = Some _ |- _ => injection H as H
         | H : context [Pos.compare_cont Eq ?a ?b] |- _ =>
             change (Pos.compare_cont Eq a b) with (Pos.compare a b) in H
         | |- context [Pos.compare_cont Eq ?a ?b] =>
             change (Pos.compare_cont Eq a b) with (Pos.compare a b)
         end.

Lemma SFcompare_antisym x y :
  SFcompare y x = option_map CompOpp (SFcompare x y).
Proof.
  destruct x as [sx | sx | | sx mx ex], y as [sy | sy | | sy my ey];
    simpl; try reflexivity; by_sign.
  all: plain_pos_compare; f_equal; cmp_cases; simpl; try reflexivity; subst; lia.
Qed.

Lemma SFcompare_lt_trans x y z :
  SFcompare x y = Some Lt -> SFcompare y z = Some Lt -> SFcompare x z = Some Lt.
Proof.
  destruct x as [sx | sx | | sx mx ex], y as [sy | sy | | sy my ey],
    z as [sz | sz | | sz mz ez]; simpl; try discriminate; by_sign.
  all: plain_pos_compare; f_equal; cmp_cases; simpl in *; subst;
    try discriminate; try reflexivity; lia.
Qed.

Lemma SFcompare_eq_trans x y z :
  SFcompare x y = Some Eq -> SFcompare y z = Some Eq -> SFcompare x z = Some Eq.
Proof.
  destruct x as [sx | sx | | sx mx ex], y as [sy | sy | | sy my ey],
    z as [sz | sz | | sz mz ez]; simpl; try discriminate; by_sign.
  all: plain_pos_compare; f_equal; cmp_cases; simpl in *; subst;
    try discriminate; try reflexivity; lia.
Qed.

Lemma SFcompare_le_trans x y z c1 c2 :
  SFcompare x y = Some c1 -> SFcompare y z = Some c2 ->
  c1 <> Gt -> c2 <> Gt ->
  exists c3, SFcompare x z = Some c3 /\ c3 <> Gt.
Proof.
  destruct x as [sx | sx | | sx mx ex], y as [sy | sy | | sy my ey],
    z as [sz | sz | | sz mz ez]; simpl; try discriminate;
    intros H1 H2 N1 N2; injection H1 as <-; injection H2 as <-;
    eexists; (split; [reflexivity |]);
    repeat match goal with
           | s : bool |- _ => destruct s
           end;
    simpl in *; try discriminate; try congruence.
  all: plain_pos_compare; cmp_cases; simpl in *; subst;
    try discriminate; try congruence; lia.
Qed.

Lemma SFcompare_refl x : x <> S754_nan -> SFcompare x x = Some Eq.
Proof.
  destruct x as [sx | sx | | sx mx ex]; simpl; intros H;
    try reflexivity; try (now destruct sx); [now contradiction H |].
  plain_pos_compare. rewrite Z.compare_refl, Pos.compare_refl. now destruct sx.
Qed.

Lemma ltb_asym x y : PrimFloat.ltb x y = true -> PrimFloat.ltb y x = false.
Proof.
  rewrite !ltb_spec. unfold SFltb.
  rewrite (SFcompare_antisym (Prim2SF x) (Prim2SF y)).
  destruct (SFcompare (Prim2SF x) (Prim2SF y)) as [[]|]; simpl; congruence.
Qed.

Lemma ltb_irrefl x : PrimFloat.ltb x x = false.
Proof.
  destruct (PrimFloat.ltb x x) eqn:H; [| reflexivity].
  now rewrite (ltb_asym x x H) in H.
Qed.

Lemma ltb_trans x y z :
  PrimFloat.ltb x y = true -> PrimFloat.ltb y z = true -> PrimFloat.ltb x z = true.
Proof.
  rewrite !ltb_spec. unfold SFltb. intros Hxy Hyz.
  rewrite (SFcompare_lt_trans (Prim2SF x) (Prim2SF y) (Prim2SF z)); try reflexivity.
  - destruct (SFcompare (Prim2SF x) (Prim2SF y)) as [[]|]; congruence.
  - destruct (SFcompare (Prim2SF y) (Prim2SF z)) as [[]|]; congruence.
Qed.

Lemma eqb_sym x y : PrimFloat.eqb x y = PrimFloat.eqb y x.
Proof.
  rewrite !eqb_spec. unfold SFeqb.
  rewrite (SFcompare_antisym (Prim2SF x) (Prim2SF y)).
  destruct (SFcompare (Prim2SF x) (Prim2SF y)) as [[]|]; reflexivity.
Qed.

Lemma eqb_trans x y z :
  PrimFloat.eqb x y = true -> PrimFloat.eqb y z = true -> PrimFloat.eqb x z = true.
Proof.
  rewrite !eqb_spec. unfold SFeqb. intros Hxy Hyz.
  rewrite (SFcompare_eq_trans (Prim2SF x) (Prim2SF y) (Prim2SF z)); try reflexivity.
  - destruct (SFcompare (Prim2SF x) (Prim2SF y)) as [[]|]; congruence.
  - destruct (SFcompare (Prim2SF y) (Prim2SF z)) as [[]|]; congruence.
Qed.

Lemma eqb_refl_notna x : is_nan x = false -> PrimFloat.eqb x x = true.
Proof. unfold is_nan. now destruct (PrimFloat.eqb x x). Qed.

(** ** Rows and columns *)

Lemma existsb_eqb_In c cols : existsb (String.eqb c) cols = true <-> In c cols.
Proof.
  rewrite existsb_exists. split.
  - intros [x [Hin Heq]]. apply String.eqb_eq in Heq. now subst.
  - intros Hin. exists c. split; [assumption | apply String.eqb_refl].
Qed.

Lemma existsb_eqb_notin c cols : existsb (String.eqb c) cols = false <-> ~ In c cols.
Proof.
  rewrite <- existsb_eqb_In. destruct (existsb (String.eqb c) cols); split;
    congruence.
Qed.

Lemma distinct_NoDup cols : distinct cols = true <-> NoDup cols.
Proof.
  induction cols as [| c cols IH]; simpl.
  - split; [constructor | reflexivity].
  - rewrite andb_true_iff, negb_true_iff, existsb_eqb_notin, IH. split.
    + intros [H1 H2]. now constructor.
    + intros H. inversion H. now split.
Qed.

Lemma columns_assign df c f : columns (assign df c f) = add_column (columns df) c.
Proof. reflexivity. Qed.

Lemma distinct_add_column cols c :
  distinct cols = true -> distinct (add_column cols c) = true.
Proof.
  unfold add_column. intros H. destruct (existsb (String.eqb c) cols) eqn:Hc; [assumption |].
  apply distinct_NoDup. apply distinct_NoDup in H. apply existsb_eqb_notin in Hc.
  apply NoDup_app; [assumption | repeat constructor; intros [] | ].
  intros x Hx [Hin | []]. now subst.
Qed.

Lemma length_set_cell cols r c v :
  List.length r = List.length cols ->
  List.length (set_cell cols r c v) = List.length (add_column cols c).
Proof.
  unfold add_column. revert r.
  induction cols as [| c' cols IH]; intros [| u r] Hlen; simpl in *; try discriminate.
  - reflexivity.
  - destruct (String.eqb c c') eqn:Heq; simpl.
    + congruence.
    + injection Hlen as Hlen. specialize (IH r Hlen).
      destruct (existsb (String.eqb c) cols); simpl in *; congruence.
Qed.

Lemma cell_at_set_cell_other cols r c v c' :
  List.length r = List.length cols -> c' <> c ->
  cell_at (add_column cols c) (set_cell cols r c v) c' = cell_at cols r c'.
Proof.
  unfold add_column. revert r.
  induction cols as [| c0 cols IH]; intros [| u r] Hlen Hne; simpl in *; try discriminate.
  - apply String.eqb_neq in Hne. now rewrite Hne.
  - injection Hlen as Hlen. specialize (IH r Hlen Hne).
    destruct (String.eqb c c0) eqn:Heq; simpl.
    + apply String.eqb_eq in Heq. subst c0.
      apply String.eqb_neq in Hne. now rewrite Hne.
    + destruct (existsb (String.eqb c) cols); simpl;
        destruct (String.eqb c' c0); auto.
Qed.

Lemma cell_at_set_cell_same cols r c v :
  List.length r = List.length cols ->
  cell_at (add_column cols c) (set_cell cols r c v) c = Some v.
Proof.
  unfold add_column. revert r.
  induction cols as [| c0 cols IH]; intros [| u r] Hlen; simpl in *; try discriminate.
  - now rewrite String.eqb_refl.
  - injection Hlen as Hlen. specialize (IH r Hlen).
    destruct (String.eqb c c0) eqn:Heq; simpl.
    + now rewrite Heq.
    + destruct (existsb (String.eqb c) cols); simpl; now rewrite Heq.
Qed.

Lemma value_at_set_cell_other cols r c v c' :
  List.length r = List.length cols -> c' <> c ->
  value_at (add_column cols c) (set_cell cols r c v) c' = value_at cols r c'.
Proof. intros. unfold value_at. now rewrite cell_at_set_cell_other. Qed.

Lemma value_at_set_cell_same cols r c v :
  List.length r = List.length cols ->
  value_at (add_column cols c) (set_cell cols r c v) c = v.
Proof. intros. unfold value_at. now rewrite cell_at_set_cell_same. Qed.

(** Reading a well-formed row along its own columns gives the row back. *)
Lemma map_value_at_self cols r :
  NoDup cols -> List.length r = List.length cols ->
  map (value_at cols r) cols = r.
Proof.
  revert r. induction cols as [| c cols IH]; intros [| u r] Hnd Hlen;
    simpl in *; try discriminate; [reflexivity |].
  inversion Hnd as [| ? ? Hnotin Hnd']; subst. injection Hlen as Hlen.
  unfold value_at at 1. simpl. rewrite String.eqb_refl. f_equal.
  rewrite <- (IH r Hnd' Hlen) at 2.
  apply map_ext_in. intros c' Hin. unfold value_at. simpl.
  destruct (String.eqb_spec c' c) as [-> | _]; [contradiction | reflexivity].
Qed.

(** ** The matcher, row by row *)

Lemma length_match_record cols r trans nu :
  List.length r = List.length cols ->
  List.length (match_record cols r trans nu) = List.length (matched_columns cols).
Proof.
  intros H. unfold match_record, matched_columns.
  apply length_set_cell. now apply length_set_cell.
Qed.

Lemma value_at_match_record cols r trans nu c :
  List.length r = List.length cols ->
  c <> "SiO_transition" -> c <> "SiO_freq_GHz" ->
  value_at (matched_columns cols) (match_record cols r trans nu) c = value_at cols r c.
Proof.
  intros H H1 H2. unfold match_record, matched_columns.
  rewrite value_at_set_cell_other by (try apply length_set_cell; assumption).
  now apply value_at_set_cell_other.
Qed.

Lemma value_at_match_record_freq cols r trans nu :
  List.length r = List.length cols ->
  value_at (matched_columns cols) (match_record cols r trans nu) "SiO_freq_GHz" = Num nu.
Proof.
  intros H. unfold match_record, matched_columns.
  apply value_at_set_cell_same. now apply length_set_cell.
Qed.

Lemma value_at_match_record_transition cols r trans nu :
  List.length r = List.length cols ->
  value_at (matched_columns cols) (match_record cols r trans nu) "SiO_transition"
  = Str trans.
Proof.
  intros H. unfold match_record, matched_columns.
  rewrite value_at_set_cell_other by (try apply length_set_cell; (assumption || discriminate)).
  now apply value_at_set_cell_same.
Qed.

Lemma tag_columns sel trans nu : columns (tag sel trans nu) = matched_columns (columns sel).
Proof. reflexivity. Qed.

Lemma tag_rows sel trans nu :
  rows (tag sel trans nu)
  = map (fun r => match_record (columns sel) r trans nu) (rows sel).
Proof.
  unfold tag, setitem_scalar, assign. simpl. rewrite map_map. reflexivity.
Qed.

Lemma select_map (f : list cell -> bool) rs : select (map f rs) rs = filter f rs.
Proof.
  induction rs as [| r rs IH]; simpl; [reflexivity |].
  destruct (f r); now rewrite IH.
Qed.

Lemma Ok_inj {A : Type} (a b : A) : Ok a = Ok b -> a = b.
Proof. intros H. now injection H. Qed.

Lemma mapM_Ok {A B : Type} (f : A -> result B) (g : A -> B) xs :
  (forall x, In x xs -> f x = Ok (g x)) -> mapM f xs = Ok (map g xs).
Proof.
  induction xs as [| x xs IH]; intros H; simpl; [reflexivity |].
  rewrite (H x (or_introl eq_refl)). simpl.
  rewrite IH by (intros y Hy; apply H; now right). reflexivity.
Qed.

Lemma mask_and_map {A : Type} (f g : A -> bool) xs :
  mask_and (map f xs) (map g xs) = map (fun x => f x && g x) xs.
Proof. induction xs as [| x xs IH]; simpl; [reflexivity | now rewrite IH]. Qed.

Lemma float_columns_numeric df cs r c :
  float_columns df cs = true -> In r (rows df) -> In c cs ->
  value_at (columns df) r c = Num (float_at (columns df) r c).
Proof.
  unfold float_columns. rewrite forallb_forall. intros H Hr Hc.
  specialize (H r Hr). rewrite forallb_forall in H. specialize (H c Hc).
  unfold float_at. now destruct (value_at (columns df) r c).
Qed.

Lemma transition_mask_numeric obs_df nu :
  has_column "min_freq_GHz" obs_df = true ->
  has_column "max_freq_GHz" obs_df = true ->
  float_columns obs_df ["min_freq_GHz"; "max_freq_GHz"] = true ->
  transition_mask obs_df nu
  = Ok (map (fun r => strictly_inside (columns obs_df) r nu) (rows obs_df)).
Proof.
  intros Hmin Hmax Hnum. unfold transition_mask, getitem. rewrite Hmin, Hmax. simpl.
  rewrite (mapM_Ok _ (fun c => match c with Num x => PrimFloat.ltb x nu | Str _ => false end)).
  2:{ intros c Hc. apply in_map_iff in Hc. destruct Hc as [r [<- Hr]].
      rewrite (float_columns_numeric _ _ r "min_freq_GHz" Hnum Hr) by (simpl; auto).
      reflexivity. }
  simpl.
  rewrite (mapM_Ok _ (fun c => match c with Num x => PrimFloat.ltb nu x | Str _ => false end)).
  2:{ intros c Hc. apply in_map_iff in Hc. destruct Hc as [r [<- Hr]].
      rewrite (float_columns_numeric _ _ r "max_freq_GHz" Hnum Hr) by (simpl; auto).
      reflexivity. }
  simpl. rewrite !map_map, mask_and_map. f_equal.
  apply map_ext_in. intros r Hr. unfold strictly_inside.
  rewrite (float_columns_numeric _ _ r "min_freq_GHz" Hnum Hr) by (simpl; auto).
  rewrite (float_columns_numeric _ _ r "max_freq_GHz" Hnum Hr) by (simpl; auto).
  reflexivity.
Qed.

Lemma scan_transitions_numeric transitions obs_df :
  has_column "min_freq_GHz" obs_df = true ->
  has_column "max_freq_GHz" obs_df = true ->
  float_columns obs_df ["min_freq_GHz"; "max_freq_GHz"] = true ->
  scan_transitions transitions obs_df = Ok (selections transitions obs_df).
Proof.
  intros Hmin Hmax Hnum.
  induction transitions as [| [trans nu] rest IH]; simpl; [reflexivity |].
  rewrite (transition_mask_numeric _ _ Hmin Hmax Hnum). simpl.
  rewrite IH. simpl. unfold boolean_index. rewrite select_map.
  unfold selections at 2. simpl.
  destruct (0 <? len _)%nat; reflexivity.
Qed.

Lemma filter_known cols :
  filter (fun c => negb (existsb (String.eqb c) cols)) cols = [].
Proof.
  assert (H : forall l, incl l cols ->
              filter (fun c => negb (existsb (String.eqb c) cols)) l = []).
  { induction l as [| c l IH]; intros Hincl; simpl; [reflexivity |].
    assert (Hc : existsb (String.eqb c) cols = true)
      by (apply existsb_eqb_In, Hincl; now left).
    rewrite Hc. simpl. apply IH. intros x Hx. apply Hincl. now right. }
  apply H, incl_refl.
Qed.

Lemma filter_all {A : Type} (l : list A) : filter (fun _ => true) l = l.
Proof. induction l as [| x l IH]; simpl; [reflexivity | now rewrite IH]. Qed.

Lemma union_columns_uniform cols frames :
  frames <> [] ->
  (forall df, In df frames -> columns df = cols) ->
  union_columns frames = cols.
Proof.
  intros Hne Hcols. unfold union_columns.
  destruct frames as [| df frames]; [contradiction |]. simpl.
  rewrite (Hcols df (or_introl eq_refl)).
  change (filter _ cols) with (filter (fun _ : string => true) cols).
  rewrite filter_all.
  assert (Hrest : forall df', In df' frames -> columns df' = cols)
    by (intros; apply Hcols; now right).
  clear Hcols Hne. induction frames as [| df' frames IH]; simpl; [reflexivity |].
  rewrite (Hrest df' (or_introl eq_refl)), filter_known, app_nil_r.
  apply IH. intros. apply Hrest. now right.
Qed.

Lemma reindex_self df :
  well_formed df = true -> reindex (columns df) df = rows df.
Proof.
  unfold well_formed, reindex. rewrite andb_true_iff, forallb_forall.
  intros [Hd Hlen]. apply distinct_NoDup in Hd.
  rewrite <- (map_id (rows df)) at 2. apply map_ext_in. intros r Hr.
  apply map_value_at_self; [assumption |]. now apply Nat.eqb_eq, Hlen.
Qed.

(** Concatenating well-formed frames that share their columns appends their
    rows. *)
Lemma concat_uniform cols frames :
  frames <> [] ->
  (forall df, In df frames -> columns df = cols /\ well_formed df = true) ->
  concat frames = Ok (mkDataFrame cols (flat_map rows frames)).
Proof.
  intros Hne H. unfold concat.
  rewrite (union_columns_uniform cols frames Hne) by (intros; now apply H).
  destruct frames as [| df0 frames0] eqn:E; [contradiction |]. rewrite <- E in *.
  do 2 f_equal. clear E Hne.
  induction frames as [| df frames IH]; simpl; [reflexivity |].
  destruct (H df (or_introl eq_refl)) as [Hc Hwf].
  rewrite <- Hc at 1. rewrite (reindex_self df Hwf). f_equal.
  apply IH. intros. apply H. now right.
Qed.

Lemma well_formed_tag sel trans nu :
  well_formed sel = true -> well_formed (tag sel trans nu) = true.
Proof.
  unfold well_formed. rewrite !andb_true_iff, !forallb_forall. intros [Hd Hlen].
  rewrite tag_columns, tag_rows. split.
  - unfold matched_columns. now do 2 apply distinct_add_column.
  - intros r Hr. apply in_map_iff in Hr. destruct Hr as [r0 [<- Hr0]].
    apply Nat.eqb_eq, length_match_record. now apply Nat.eqb_eq, Hlen.
Qed.

Lemma well_formed_filter df f :
  well_formed df = true ->
  well_formed (mkDataFrame (columns df) (filter f (rows df))) = true.
Proof.
  unfold well_formed. simpl. rewrite !andb_true_iff, !forallb_forall.
  intros [Hd Hlen]. split; [assumption |].
  intros r Hr. apply filter_In in Hr. now apply Hlen.
Qed.

Lemma selections_uniform transitions obs_df df :
  well_formed obs_df = true ->
  In df (selections transitions obs_df) ->
  columns df = matched_columns (columns obs_df) /\ well_formed df = true.
Proof.
  intros Hwf Hin. unfold selections in Hin. apply in_flat_map in Hin.
  destruct Hin as [t [_ Hin]]. cbv zeta in Hin.
  destruct (0 <? len _)%nat; [| destruct Hin].
  destruct Hin as [<- | []]. split; [reflexivity |].
  apply well_formed_tag. now apply well_formed_filter.
Qed.

Lemma selections_rows transitions obs_df :
  flat_map rows (selections transitions obs_df)
  = flat_map
      (fun t => map (fun r => match_record (columns obs_df) r (fst t) (snd t))
                    (filter (fun r => strictly_inside (columns obs_df) r (snd t))
                            (rows obs_df)))
      transitions.
Proof.
  unfold selections. induction transitions as [| t rest IH]; [reflexivity |].
  cbn [flat_map]. rewrite flat_map_app, IH. f_equal. unfold len. cbn [rows].
  destruct (filter _ (rows obs_df)) as [| r rs] eqn:E; [reflexivity |].
  cbn [List.length Nat.ltb Nat.leb flat_map].
  rewrite app_nil_r, tag_rows. reflexivity.
Qed.

Lemma has_column_matched c cols :
  In c cols -> In c (matched_columns cols).
Proof.
  assert (H : forall cs c0, In c cs -> In c (add_column cs c0)).
  { intros cs c0 Hin. unfold add_column.
    destruct (existsb (String.eqb c0) cs); [assumption |].
    apply in_or_app. now left. }
  intros Hin. unfold matched_columns. now do 2 apply H.
Qed.

(** On a well-formed table with numeric frequency columns the matcher returns,
    and its rows are the MatchRecords of the covered (transition, row) pairs,
    transition by transition. *)
Lemma find_matches_rows transitions obs_df :
  well_formed obs_df = true ->
  has_column "Source" obs_df = true ->
  has_column "min_freq_GHz" obs_df = true ->
  has_column "max_freq_GHz" obs_df = true ->
  float_columns obs_df ["min_freq_GHz"; "max_freq_GHz"] = true ->
  exists out,
    find_matches transitions obs_df = Ok out
    /\ rows out
       = flat_map
           (fun t => map (fun r => match_record (columns obs_df) r (fst t) (snd t))
                         (filter (fun r => strictly_inside (columns obs_df) r (snd t))
                                 (rows obs_df)))
           transitions
    /\ (rows out <> [] -> columns out = matched_columns (columns obs_df)).
Proof.
  intros Hwf Hsrc Hmin Hmax Hnum. unfold find_matches.
  rewrite (scan_transitions_numeric _ _ Hmin Hmax Hnum). simpl.
  rewrite <- selections_rows.
  destruct (selections transitions obs_df) as [| df0 frames] eqn:E.
  - exists empty_frame. simpl. repeat split; auto. intros H. now contradiction H.
  - rewrite <- E.
    rewrite (concat_uniform (matched_columns (columns obs_df))).
    + simpl. unfold getitem.
      assert (Hs : has_column "Source"
                     (mkDataFrame (matched_columns (columns obs_df))
                        (flat_map rows (selections transitions obs_df))) = true).
      { apply has_column_In. simpl. apply has_column_matched.
        now apply has_column_In. }
      rewrite Hs. simpl. eexists. repeat split; reflexivity.
    + rewrite E. discriminate.
    + intros df Hdf. now apply (selections_uniform transitions obs_df).
Qed.

Lemma find_matches_In transitions obs_df out r trans nu :
  well_formed obs_df = true ->
  rows out
  = flat_map
      (fun t => map (fun r => match_record (columns obs_df) r (fst t) (snd t))
                    (filter (fun r => strictly_inside (columns obs_df) r (snd t))
                            (rows obs_df)))
      transitions ->
  In (trans, nu) transitions -> In r (rows obs_df) ->
  In (match_record (columns obs_df) r trans nu) (rows out)
  <-> strictly_inside (columns obs_df) r nu = true.
Proof.
  intros Hwf Hrows Ht Hr. rewrite Hrows, in_flat_map.
  unfold well_formed in Hwf. apply andb_true_iff in Hwf. destruct Hwf as [_ Hlen].
  rewrite forallb_forall in Hlen.
  assert (Hl : forall x, In x (rows obs_df) -> List.length x = List.length (columns obs_df))
    by (intros x Hx; now apply Nat.eqb_eq, Hlen).
  split.
  - intros [[trans' nu'] [_ Hin]]. simpl in Hin. apply in_map_iff in Hin.
    destruct Hin as [r' [Heq Hin]]. apply filter_In in Hin. destruct Hin as [Hr' Hins].
    assert (Hnu : Num nu' = Num nu).
    { rewrite <- (value_at_match_record_freq (columns obs_df) r' trans' nu' (Hl r' Hr')).
      rewrite Heq. apply value_at_match_record_freq. now apply Hl. }
    injection Hnu as ->.
    unfold strictly_inside in *.
    rewrite <- (value_at_match_record (columns obs_df) r trans nu "min_freq_GHz")
      by (try apply Hl; (assumption || discriminate)).
    rewrite <- (value_at_match_record (columns obs_df) r trans nu "max_freq_GHz")
      by (try apply Hl; (assumption || discriminate)).
    rewrite <- Heq.
    rewrite !value_at_match_record by (try apply Hl; (assumption || discriminate)).
    exact Hins.
  - intros Hins. exists (trans, nu). split; [assumption |]. simpl.
    apply in_map_iff. exists r. split; [reflexivity |].
    apply filter_In. now split.
Qed.

Lemma strictly_inside_iff cols r nu lo hi :
  value_at cols r "min_freq_GHz" = Num lo ->
  value_at cols r "max_freq_GHz" = Num hi ->
  strictly_inside cols r nu = true
  <-> PrimFloat.ltb lo nu = true /\ PrimFloat.ltb nu hi = true.
Proof.
  intros Hlo Hhi. unfold strictly_inside. rewrite Hlo, Hhi. apply andb_true_iff.
Qed.

(** ** Exchanging the two loops *)

Lemma flat_map_app_Permutation {B C : Type} (g h : B -> list C) bs :
  Permutation (flat_map (fun b => g b ++ h b) bs) (flat_map g bs ++ flat_map h bs).
Proof.
  induction bs as [| b bs IH]; simpl; [constructor |].
  rewrite IH, <- !app_assoc. apply Permutation_app_head.
  rewrite !app_assoc. apply Permutation_app_tail, Permutation_app_comm.
Qed.

Lemma flat_map_swap {A B C : Type} (f : A -> B -> list C) xs ys :
  Permutation (flat_map (fun a => flat_map (f a) ys) xs)
              (flat_map (fun b => flat_map (fun a => f a b) xs) ys).
Proof.
  induction xs as [| a xs IH]; simpl.
  - induction ys as [| b ys IHy]; simpl; [constructor | exact IHy].
  - rewrite flat_map_app_Permutation. now apply Permutation_app_head.
Qed.

Lemma map_filter_flat_map {A B : Type} (g : A -> B) (p : A -> bool) l :
  map g (filter p l) = flat_map (fun x => if p x then [g x] else []) l.
Proof.
  induction l as [| x l IH]; simpl; [reflexivity |].
  destruct (p x); simpl; now rewrite IH.
Qed.

Lemma matches_per_record transitions cols rs :
  Permutation
    (flat_map
       (fun t => map (fun r => match_record cols r (fst t) (snd t))
                     (filter (fun r => strictly_inside cols r (snd t)) rs))
       transitions)
    (flat_map (matches_of transitions cols) rs).
Proof.
  erewrite flat_map_ext by (intros t; apply map_filter_flat_map).
  rewrite (flat_map_swap
             (fun t r => if strictly_inside cols r (snd t)
                         then [match_record cols r (fst t) (snd t)] else [])).
  erewrite (flat_map_ext (matches_of transitions cols)).
  - apply Permutation_refl.
  - intros r. unfold matches_of, covered.
    apply (map_filter_flat_map (fun t => match_record cols r (fst t) (snd t))
                               (fun t => strictly_inside cols r (snd t))).
Qed.

(** MatchRecords of one row for transitions with different labels differ. *)
Lemma NoDup_matches_of transitions cols r :
  List.length r = List.length cols ->
  NoDup (map fst transitions) ->
  NoDup (matches_of transitions cols r).
Proof.
  intros Hlen Hnd. unfold matches_of, covered.
  induction transitions as [| t ts IH]; simpl; [constructor |].
  inversion Hnd as [| ? ? Hnotin Hnd']; subst.
  destruct (strictly_inside cols r (snd t)); [| now apply IH].
  simpl. constructor; [| now apply IH].
  intros Hin. apply in_map_iff in Hin. destruct Hin as [t' [Heq Hin]].
  apply filter_In in Hin. destruct Hin as [Hin _].
  apply Hnotin. apply in_map_iff. exists t'. split; [| assumption].
  assert (H : Str (fst t') = Str (fst t)).
  { rewrite <- (value_at_match_record_transition cols r (fst t') (snd t') Hlen).
    rewrite Heq. now apply value_at_match_record_transition. }
  now injection H.
Qed.

(** ** The transition matcher (claims C1, C2) *)

(** C1. For every transition of the table and every row [r] of a harmonized
    table, [r] tagged with that transition is a row of the matcher's output if
    and only if [min_freq_GHz < frequency] and [frequency < max_freq_GHz],
    both strictly; a row whose lower or upper edge is the transition frequency
    itself is not matched for it. *)
Theorem find_sio_spw_matches_strict_window (obs_df : DataFrame) :
  well_formed obs_df = true ->
  has_column "Source" obs_df = true ->
  has_column "min_freq_GHz" obs_df = true ->
  has_column "max_freq_GHz" obs_df = true ->
  float_columns obs_df ["min_freq_GHz"; "max_freq_GHz"] = true ->
  exists out,
    find_sio_spw_matches obs_df = Ok out
    /\ forall trans nu r lo hi,
         In (trans, nu) SIO_V0_TRANSITIONS_GHZ ->
         In r (rows obs_df) ->
         value_at (columns obs_df) r "min_freq_GHz" = Num lo ->
         value_at (columns obs_df) r "max_freq_GHz" = Num hi ->
         (In (match_record (columns obs_df) r trans nu) (rows out)
          <-> PrimFloat.ltb lo nu = true /\ PrimFloat.ltb nu hi = true)
         /\ (lo = nu \/ hi = nu ->
             ~ In (match_record (columns obs_df) r trans nu) (rows out)).
Proof.
  intros Hwf Hsrc Hmin Hmax Hnum.
  destruct (find_matches_rows SIO_V0_TRANSITIONS_GHZ obs_df Hwf Hsrc Hmin Hmax Hnum)
    as [out [Hout [Hrows _]]].
  exists out. split; [exact Hout |].
  intros trans nu r lo hi Ht Hr Hlo Hhi.
  assert (Hiff : In (match_record (columns obs_df) r trans nu) (rows out)
                 <-> PrimFloat.ltb lo nu = true /\ PrimFloat.ltb nu hi = true).
  { rewrite (find_matches_In _ _ _ _ _ _ Hwf Hrows Ht Hr).
    now apply strictly_inside_iff. }
  split; [exact Hiff |].
  intros Hedge Hin. apply Hiff in Hin. destruct Hin as [H1 H2].
  destruct Hedge as [-> | ->]; [rewrite ltb_irrefl in H1 | rewrite ltb_irrefl in H2];
    discriminate.
Qed.

Lemma find_sio_spw_matches_strict_window_witness :
  exists out,
    find_sio_spw_matches example_obs = Ok out
    /\ forall trans nu r lo hi,
         In (trans, nu) SIO_V0_TRANSITIONS_GHZ ->
         In r (rows example_obs) ->
         value_at (columns example_obs) r "min_freq_GHz" = Num lo ->
         value_at (columns example_obs) r "max_freq_GHz" = Num hi ->
         (In (match_record (columns example_obs) r trans nu) (rows out)
          <-> PrimFloat.ltb lo nu = true /\ PrimFloat.ltb nu hi = true)
         /\ (lo = nu \/ hi = nu ->
             ~ In (match_record (columns example_obs) r trans nu) (rows out)).
Proof.
  apply (find_sio_spw_matches_strict_window example_obs); reflexivity.
Defined.

(** The matcher on the example: the two edge rows and the row off every line
    give nothing, the wide row gives two records. *)
Example find_sio_spw_matches_example :
  find_sio_spw_matches example_obs =
  Ok (mkDataFrame
        [ "Source"; "project_code"; "band_list"; "min_freq_GHz"; "max_freq_GHz";
          "ang_res_arcsec"; "MOUS_ID"; "SiO_transition"; "SiO_freq_GHz" ]
        [ [ Str "AS 209"; Str "2018.1.01055.L"; Str "3"; Num 86.0; Num 87.0;
            Num 0.3; Str "uid://A001/X133d/X1a"; Str "J=2-1"; Num 86.84696 ];
          [ Str "MWC 480"; Str "2018.1.01055.L"; Str "3"; Num 80.0; Num 135.0;
            Num 0.6; Str "uid://A001/X133d/X1a"; Str "J=2-1"; Num 86.84696 ];
          [ Str "MWC 480"; Str "2018.1.01055.L"; Str "3"; Num 80.0; Num 135.0;
            Num 0.6; Str "uid://A001/X133d/X1a"; Str "J=3-2"; Num 130.26861 ] ]).
Proof. vm_compute. reflexivity. Qed.

(** C2. The rows of the matcher's output are, up to their order, the
    MatchRecords of each row, one per transition the row covers and no two of
    them equal; a row that covers no transition has none, a row that covers
    two has exactly two, and every MatchRecord of a row agrees with the row,
    hence with the row's other MatchRecords, on every column but the
    transition label and the transition frequency. *)
Theorem find_matches_one_per_covered_transition
        (transitions : list (string * float)) (obs_df : DataFrame) :
  NoDup (map fst transitions) ->
  well_formed obs_df = true ->
  has_column "Source" obs_df = true ->
  has_column "min_freq_GHz" obs_df = true ->
  has_column "max_freq_GHz" obs_df = true ->
  float_columns obs_df ["min_freq_GHz"; "max_freq_GHz"] = true ->
  exists out,
    find_matches transitions obs_df = Ok out
    /\ Permutation (rows out)
                   (flat_map (matches_of transitions (columns obs_df)) (rows obs_df))
    /\ forall r, In r (rows obs_df) ->
         let records := matches_of transitions (columns obs_df) r in
         NoDup records
         /\ List.length records
            = List.length (covered transitions (columns obs_df) r)
         /\ (covered transitions (columns obs_df) r = [] -> records = [])
         /\ (forall t1 t2,
               covered transitions (columns obs_df) r = [t1; t2] ->
               records = [ match_record (columns obs_df) r (fst t1) (snd t1);
                           match_record (columns obs_df) r (fst t2) (snd t2) ])
         /\ (forall m c,
               In m records ->
               c <> "SiO_transition" -> c <> "SiO_freq_GHz" ->
               value_at (matched_columns (columns obs_df)) m c
               = value_at (columns obs_df) r c).
Proof.
  intros Hnd Hwf Hsrc Hmin Hmax Hnum.
  destruct (find_matches_rows transitions obs_df Hwf Hsrc Hmin Hmax Hnum)
    as [out [Hout [Hrows _]]].
  exists out. split; [exact Hout |]. split.
  - rewrite Hrows. apply matches_per_record.
  - intros r Hr records.
    assert (Hlen : List.length r = List.length (columns obs_df)).
    { unfold well_formed in Hwf. apply andb_true_iff in Hwf.
      destruct Hwf as [_ Hl]. rewrite forallb_forall in Hl.
      now apply Nat.eqb_eq, Hl. }
    subst records. unfold matches_of. repeat split.
    + now apply NoDup_matches_of.
    + apply length_map.
    + intros ->. reflexivity.
    + intros t1 t2 ->. reflexivity.
    + intros m c Hm Hc1 Hc2. apply in_map_iff in Hm.
      destruct Hm as [t [<- _]]. now apply value_at_match_record.
Qed.

Lemma find_matches_one_per_covered_transition_witness :
  exists out,
    find_matches SIO_V0_TRANSITIONS_GHZ example_obs = Ok out
    /\ Permutation (rows out)
         (flat_map (matches_of SIO_V0_TRANSITIONS_GHZ (columns example_obs))
                   (rows example_obs))
    /\ forall r, In r (rows example_obs) ->
         let records := matches_of SIO_V0_TRANSITIONS_GHZ (columns example_obs) r in
         NoDup records
         /\ List.length records
            = List.length (covered SIO_V0_TRANSITIONS_GHZ (columns example_obs) r)
         /\ (covered SIO_V0_TRANSITIONS_GHZ (columns example_obs) r = [] ->
             records = [])
         /\ (forall t1 t2,
               covered SIO_V0_TRANSITIONS_GHZ (columns example_obs) r = [t1; t2] ->
               records = [ match_record (columns example_obs) r (fst t1) (snd t1);
                           match_record (columns example_obs) r (fst t2) (snd t2) ])
         /\ (forall m c,
               In m records ->
               c <> "SiO_transition" -> c <> "SiO_freq_GHz" ->
               value_at (matched_columns (columns example_obs)) m c
               = value_at (columns example_obs) r c).
Proof.
  apply (find_matches_one_per_covered_transition SIO_V0_TRANSITIONS_GHZ example_obs);
    try reflexivity.
  apply distinct_NoDup. reflexivity.
Defined.

(** The example of the specification: a window over J=1-0 and a synthetic line
    at 43.5 GHz gives exactly two records, equal but for the two annotations. *)
Example find_matches_two_transitions :
  find_matches [("J=1-0", 43.423864%float); ("synthetic", 43.5%float)]
    (mkDataFrame ["Source"; "min_freq_GHz"; "max_freq_GHz"]
                 [[Str "AS 209"; Num 43.0; Num 44.0]])
  = Ok (mkDataFrame
          ["Source"; "min_freq_GHz"; "max_freq_GHz"; "SiO_transition"; "SiO_freq_GHz"]
          [ [Str "AS 209"; Num 43.0; Num 44.0; Str "J=1-0"; Num 43.423864];
            [Str "AS 209"; Num 43.0; Num 44.0; Str "synthetic"; Num 43.5] ]).
Proof. vm_compute. reflexivity. Qed.

(** ** The target query stage (claim C7) *)

Section QueryFacts.
Variable target : string -> query_outcome.

Lemma collect_observations_app xs ys :
  collect_observations target (xs ++ ys)
  = collect_observations target xs ++ collect_observations target ys.
Proof.
  induction xs as [| x xs IH]; simpl; [reflexivity |].
  destruct (target x) as [exc | | df]; try exact IH.
  destruct (len df =? 0)%nat; [exact IH | simpl; now rewrite IH].
Qed.

Lemma collect_observations_skip src rest :
  yields_rows (target src) = false ->
  collect_observations target (src :: rest) = collect_observations target rest.
Proof.
  simpl. destruct (target src) as [exc | | df]; simpl; try reflexivity.
  destruct (len df =? 0)%nat; [reflexivity | discriminate].
Qed.

Lemma collect_observations_nil sources :
  collect_observations target sources = []
  <-> forall src, In src sources -> yields_rows (target src) = false.
Proof.
  induction sources as [| src rest IH]; simpl.
  - split; [intros _ src [] | reflexivity].
  - destruct (target src) as [exc | | df] eqn:E.
    + rewrite IH. split.
      * intros H s [<- | Hs]; [now rewrite E | now apply H].
      * intros H s Hs. apply H. now right.
    + rewrite IH. split.
      * intros H s [<- | Hs]; [now rewrite E | now apply H].
      * intros H s Hs. apply H. now right.
    + destruct (len df =? 0)%nat eqn:El.
      * rewrite IH. split.
        -- intros H s [<- | Hs]; [rewrite E; simpl; now rewrite El | now apply H].
        -- intros H s Hs. apply H. now right.
      * split; [discriminate |]. intros H.
        specialize (H src (or_introl eq_refl)). rewrite E in H. simpl in H.
        rewrite El in H. discriminate.
Qed.

Lemma collect_observations_Source df sources :
  In df (collect_observations target sources) -> has_column "Source" df = true.
Proof.
  induction sources as [| src rest IH]; simpl; [intros [] |].
  destruct (target src) as [exc | | df0]; try exact IH.
  destruct (len df0 =? 0)%nat; [exact IH |].
  cbn [In]. intros [<- | Hin]; [| now apply IH].
  unfold setitem_scalar. rewrite has_column_assign, String.eqb_refl.
  apply orb_true_r.
Qed.
End QueryFacts.

Lemma union_columns_first df frames c :
  In c (columns df) -> In c (union_columns (df :: frames)).
Proof.
  intros Hin. unfold union_columns. simpl.
  change (filter _ (columns df)) with (filter (fun _ : string => true) (columns df)).
  rewrite filter_all.
  generalize dependent (columns df). induction frames as [| df' frames IH];
    intros acc Hin; simpl; [assumption |].
  apply IH. apply in_or_app. now left.
Qed.

(** C7. A target whose query fails, returns nothing or returns no row is
    skipped wherever it stands in the sequence, the targets after it being
    queried as before; and the stage raises its exhaustion error if and only
    if no target of the sequence produced a row, returning the combined table
    otherwise. *)
Theorem query_maps_sources_skip_and_exhaustion
        (target : string -> query_outcome) (sources : list string) :
  (forall before src after,
      yields_rows (target src) = false ->
      query_maps_sources target (before ++ src :: after)
      = query_maps_sources target (before ++ after))
  /\ (query_maps_sources target sources
      = Raise (RuntimeError "No observations returned for any MAPS source.")
      <-> forall src, In src sources -> yields_rows (target src) = false)
  /\ ((exists src, In src sources /\ yields_rows (target src) = true) ->
      exists combined, query_maps_sources target sources = Ok combined).
Proof.
  assert (Hok : forall srcs,
             collect_observations target srcs <> [] ->
             exists combined, query_maps_sources target srcs = Ok combined).
  { intros srcs Hne. unfold query_maps_sources.
    assert (Hsrc : forall df, In df (collect_observations target srcs) ->
                              has_column "Source" df = true)
      by (intros df; apply collect_observations_Source).
    destruct (collect_observations target srcs) as [| df frames];
      [now contradiction Hne |].
    cbn [concat bind]. unfold getitem.
    assert (Hs : has_column "Source"
                   (mkDataFrame (union_columns (df :: frames))
                      (flat_map (reindex (union_columns (df :: frames)))
                                (df :: frames))) = true).
    { apply has_column_In. cbn [columns]. apply union_columns_first.
      apply has_column_In. apply (Hsrc df). now left. }
    rewrite Hs. cbn [bind]. eexists. reflexivity. }
  split; [| split].
  - intros before src after Hskip. unfold query_maps_sources.
    rewrite !collect_observations_app, (collect_observations_skip _ _ _ Hskip).
    reflexivity.
  - rewrite <- collect_observations_nil. split.
    + intros Hraise.
      destruct (collect_observations target sources) as [| df frames] eqn:E;
        [reflexivity |].
      destruct (Hok sources) as [combined Hc]; [rewrite E; discriminate |].
      rewrite Hc in Hraise. discriminate.
    + intros Hnil. unfold query_maps_sources. now rewrite Hnil.
  - intros [src [Hin Hy]]. apply Hok. intros Hnil.
    rewrite collect_observations_nil in Hnil. rewrite (Hnil src Hin) in Hy.
    discriminate.
Qed.

(** On the archive of the example the failed and the empty query are passed
    over and the three other sources are kept; an archive that fails for
    every source exhausts the stage. *)
Example query_maps_sources_example :
  query_maps_sources quiet_target MAPS_SOURCES = Ok quiet_obs.
Proof. reflexivity. Qed.

Example query_maps_sources_exhausted :
  query_maps_sources (fun _ => QueryFailed "timeout") MAPS_SOURCES
  = Raise (RuntimeError "No observations returned for any MAPS source.").
Proof. reflexivity. Qed.

(** ** The empty match (claim C8) *)

Lemma selections_nil transitions obs_df :
  (forall r trans nu,
      In r (rows obs_df) -> In (trans, nu) transitions ->
      strictly_inside (columns obs_df) r nu = false) ->
  selections transitions obs_df = [].
Proof.
  intros H. unfold selections.
  induction transitions as [| [trans nu] rest IH]; [reflexivity |].
  cbn [flat_map].
  rewrite IH by (intros r t n Hr Ht; apply (H r t n Hr); now right).
  rewrite app_nil_r. cbn [snd fst].
  replace (filter (fun r => strictly_inside (columns obs_df) r nu) (rows obs_df))
    with (@nil (list cell)); [reflexivity |].
  symmetry. induction (rows obs_df) as [| r rs IHr] in H |- *; [reflexivity |].
  simpl. rewrite (H r trans nu) by (now left).
  apply IHr. intros r' t' nu' Hr' Ht'. apply (H r' t' nu'); [now right | assumption].
Qed.

Lemma harmonize_columns_frequency_columns df out :
  harmonize_columns df = Ok out ->
  has_column "min_freq_GHz" out = true /\ has_column "max_freq_GHz" out = true.
Proof.
  rewrite harmonize_columns_unfold. unfold require_columns.
  destruct (has_column "min_freq_GHz" (defaulted df)) eqn:Hmin; [| discriminate].
  destruct (has_column "max_freq_GHz" (defaulted df)) eqn:Hmax; [| discriminate].
  cbn [bind].
  destruct (has_column "member_ous_uid" (defaulted df));
    [| destruct (has_column "member_ous_id" (defaulted df)); [| discriminate]];
    intros H; injection H as <-; unfold setitem_column;
    rewrite !has_column_assign, Hmin, Hmax; split; reflexivity.
Qed.

Lemma no_cover_forallb (transitions : list (string * float)) df :
  forallb (fun r => forallb (fun t => negb (strictly_inside (columns df) r (snd t)))
                            transitions)
          (rows df) = true ->
  forall r trans nu,
    In r (rows df) -> In (trans, nu) transitions ->
    strictly_inside (columns df) r nu = false.
Proof.
  rewrite forallb_forall. intros H r trans nu Hr Ht.
  specialize (H r Hr). rewrite forallb_forall in H.
  specialize (H (trans, nu) Ht). now apply negb_true_iff in H.
Qed.

(** C8. When the query and the harmonizer succeeded and no row's window
    strictly brackets a configured transition frequency, the matcher returns
    the empty table and the run ends normally with no file written. *)
Theorem main_no_match_writes_nothing
        (float_str : float -> string)
        (later_of_equal : reduction -> float -> float -> bool)
        (to_csv : DataFrame -> string)
        (to_latex : list string -> DataFrame -> result string)
        (open_w : string -> result unit)
        (write : string -> string -> result unit)
        (target : string -> query_outcome)
        (obs harmonized : DataFrame) :
  query_maps_sources target MAPS_SOURCES = Ok obs ->
  harmonize_columns obs = Ok harmonized ->
  float_columns harmonized ["min_freq_GHz"; "max_freq_GHz"] = true ->
  (forall r trans nu,
      In r (rows harmonized) -> In (trans, nu) SIO_V0_TRANSITIONS_GHZ ->
      strictly_inside (columns harmonized) r nu = false) ->
  find_sio_spw_matches harmonized = Ok empty_frame
  /\ main float_str later_of_equal to_csv to_latex open_w write target
     = mkRun [] (Ok tt).
Proof.
  intros Hq Hh Hnum Hnone.
  destruct (harmonize_columns_frequency_columns _ _ Hh) as [Hmin Hmax].
  assert (Hm : find_sio_spw_matches harmonized = Ok empty_frame).
  { unfold find_sio_spw_matches, find_matches.
    rewrite (scan_transitions_numeric _ _ Hmin Hmax Hnum).
    now rewrite (selections_nil _ _ Hnone). }
  split; [exact Hm |].
  unfold main, stage. rewrite Hq, Hh, Hm. reflexivity.
Qed.

Lemma main_no_match_writes_nothing_witness :
  find_sio_spw_matches quiet_harmonized = Ok empty_frame
  /\ main (fun _ => "nan") later_kept (fun _ => "") (fun _ _ => Ok "")
          (fun _ => Ok tt) (fun _ _ => Ok tt) quiet_target
     = mkRun [] (Ok tt).
Proof.
  apply (main_no_match_writes_nothing _ _ _ _ _ _ quiet_target
           quiet_obs quiet_harmonized).
  - reflexivity.
  - reflexivity.
  - reflexivity.
  - apply no_cover_forallb. reflexivity.
Defined.

Example quiet_obs_rows :
  quiet_obs =
  mkDataFrame
    [ "project_code"; "band"; "min_freq_GHz"; "max_freq_GHz"; "best_ang_res";
      "member_ous_uid"; "Source" ]
    [ [ Str "2018.1.01055.L"; Str "3"; Num 100.0; Num 110.0; Num 0.3;
        Str "uid://A001/X133d/X1a"; Str "IM Lup" ];
      [ Str "2018.1.01055.L"; Str "3"; Num 100.0; Num 110.0; Num 0.3;
        Str "uid://A001/X133d/X1a"; Str "HD 163296" ];
      [ Str "2018.1.01055.L"; Str "3"; Num 100.0; Num 110.0; Num 0.3;
        Str "uid://A001/X133d/X1a"; Str "MWC 480" ] ].
Proof. reflexivity. Qed.

(** ** The stable sort *)

Section SortFacts.
Context {A : Type} (leb : A -> A -> bool).

Lemma insert_Permutation x l : Permutation (insert leb x l) (x :: l).
Proof.
  induction l as [| h t IH]; simpl; [apply Permutation_refl |].
  destruct (leb x h); [apply Permutation_refl |].
  rewrite IH. apply perm_swap.
Qed.

Lemma sort_Permutation l : Permutation (sort leb l) l.
Proof.
  induction l as [| x l IH]; simpl; [constructor |].
  rewrite insert_Permutation. now constructor.
Qed.

Hypothesis leb_total : forall a b, leb a b = false -> leb b a = true.

Lemma insert_Sorted x l :
  Sorted (fun a b => leb a b = true) l ->
  Sorted (fun a b => leb a b = true) (insert leb x l).
Proof.
  induction l as [| h t IH]; intros Hs; simpl.
  - repeat constructor.
  - destruct (leb x h) eqn:E.
    + constructor; [assumption | now constructor].
    + inversion Hs as [| ? ? Hst Hhd]; subst. constructor; [now apply IH |].
      destruct t as [| h' t']; simpl.
      * constructor. now apply leb_total.
      * destruct (leb x h'); constructor.
        -- now apply leb_total.
        -- now inversion Hhd.
Qed.

Lemma sort_Sorted l : Sorted (fun a b => leb a b = true) (sort leb l).
Proof.
  induction l as [| x l IH]; simpl; [constructor | now apply insert_Sorted].
Qed.
End SortFacts.

(** ** The order of cells *)

Lemma ascii_compare_lt_trans a b c :
  Ascii.compare a b = Lt -> Ascii.compare b c = Lt -> Ascii.compare a c = Lt.
Proof.
  unfold Ascii.compare. rewrite !N.compare_lt_iff. apply N.lt_trans.
Qed.

Lemma string_compare_lt_trans s t u :
  String.compare s t = Lt -> String.compare t u = Lt -> String.compare s u = Lt.
Proof.
  revert t u. induction s as [| a s IH]; intros [| b t] [| c u]; simpl;
    try discriminate; try reflexivity.
  destruct (Ascii.compare a b) eqn:Eab; try discriminate;
    destruct (Ascii.compare b c) eqn:Ebc; try discriminate; intros H1 H2.
  - apply Ascii.compare_eq_iff in Eab, Ebc. subst.
    replace (Ascii.compare c c) with Eq; [now apply (IH t u) |].
    symmetry. unfold Ascii.compare. apply N.compare_refl.
  - apply Ascii.compare_eq_iff in Eab. subst. now rewrite Ebc.
  - apply Ascii.compare_eq_iff in Ebc. subst. now rewrite Eab.
  - now rewrite (ascii_compare_lt_trans a b c Eab Ebc).
Qed.

Lemma cell_compare_antisym a b : cell_compare b a = CompOpp (cell_compare a b).
Proof.
  destruct a as [s | x], b as [t | y]; simpl.
  - apply String.compare_antisym.
  - now destruct (is_nan y).
  - now destruct (is_nan x).
  - destruct (is_nan x), (is_nan y); try reflexivity.
    destruct (PrimFloat.ltb x y) eqn:Exy.
    + now rewrite (ltb_asym x y Exy).
    + now destruct (PrimFloat.ltb y x).
Qed.

Lemma cell_compare_lt_trans a b c :
  cell_compare a b = Lt -> cell_compare b c = Lt -> cell_compare a c = Lt.
Proof.
  destruct a as [s | x], b as [t | y], c as [u | z]; simpl;
    try apply string_compare_lt_trans;
    repeat match goal with
           | |- context [is_nan ?v] => destruct (is_nan v)
           end; try discriminate; try reflexivity.
  destruct (PrimFloat.ltb x y) eqn:Exy.
  - destruct (PrimFloat.ltb y z) eqn:Eyz.
    + now rewrite (ltb_trans x y z Exy Eyz).
    + now destruct (PrimFloat.ltb z y).
  - now destruct (PrimFloat.ltb y x).
Qed.

Lemma cell_ltb_irrefl a : cell_ltb a a = false.
Proof.
  unfold cell_ltb. pose proof (cell_compare_antisym a a) as H.
  destruct (cell_compare a a); (reflexivity || discriminate).
Qed.

Lemma cell_leb_of_not_ltb a b : cell_ltb b a = false -> cell_leb a b = true.
Proof.
  unfold cell_ltb, cell_leb. rewrite (cell_compare_antisym b a).
  now destruct (cell_compare b a).
Qed.

Lemma cell_leb_total a b : cell_leb a b = false -> cell_leb b a = true.
Proof.
  unfold cell_leb. rewrite (cell_compare_antisym a b).
  now destruct (cell_compare a b).
Qed.

Lemma key_compare_antisym k1 k2 :
  List.length k1 = List.length k2 ->
  key_compare k2 k1 = CompOpp (key_compare k1 k2).
Proof.
  revert k2. induction k1 as [| a k1 IH]; intros [| b k2] Hlen; simpl in *;
    try discriminate; [reflexivity |].
  rewrite (cell_compare_antisym a b).
  destruct (cell_compare a b); simpl; try reflexivity.
  apply IH. now injection Hlen.
Qed.

Lemma sort_key_leb_total cols by_ r1 r2 :
  key_leb (sort_key cols by_ r1) (sort_key cols by_ r2) = false ->
  key_leb (sort_key cols by_ r2) (sort_key cols by_ r1) = true.
Proof.
  unfold key_leb.
  rewrite (key_compare_antisym (sort_key cols by_ r1) (sort_key cols by_ r2))
    by (unfold sort_key; now rewrite !length_map).
  now destruct (key_compare (sort_key cols by_ r1) (sort_key cols by_ r2)).
Qed.

Lemma string_leb_total s t : String.leb s t = false -> String.leb t s = true.
Proof.
  intros H. destruct (String.leb_total s t) as [H' | H']; [congruence | exact H'].
Qed.

(** ** Distinct values *)

Section UniqueFacts.
Context {A : Type} (eqb : A -> A -> bool).

Lemma unique_from_In seen l x :
  In x (unique_from eqb seen l) -> In x l /\ existsb (eqb x) seen = false.
Proof.
  revert seen. induction l as [| y l IH]; intros seen; simpl; [intros [] |].
  destruct (existsb (eqb y) seen) eqn:E.
  - intros H. destruct (IH _ H). auto.
  - intros [<- | H]; [auto |].
    destruct (IH _ H) as [H1 H2]. simpl in H2. apply orb_false_iff in H2.
    destruct H2. auto.
Qed.

(** Every value of the list is seen already or has an equal among the values
    that are kept. *)
Lemma unique_from_covers seen l x :
  eqb x x = true -> In x l ->
  existsb (eqb x) seen = true
  \/ exists y, In y (unique_from eqb seen l) /\ eqb x y = true.
Proof.
  intros Hrefl. revert seen. induction l as [| y l IH]; intros seen; simpl; [intros [] |].
  intros [-> | Hin].
  - destruct (existsb (eqb x) seen) eqn:E; [now left |].
    right. exists x. split; [now left | assumption].
  - destruct (existsb (eqb y) seen) eqn:E.
    + apply IH, Hin.
    + destruct (IH (y :: seen) Hin) as [H | [z [Hz Hxz]]].
      * simpl in H. apply orb_true_iff in H. destruct H as [H | H]; [| now left].
        right. exists y. split; [now left | assumption].
      * right. exists z. split; [now right | assumption].
Qed.

(** A value that is kept has no equal among the values kept before it. *)
Lemma unique_from_pairwise seen l :
  ForallOrdPairs (fun a b => eqb b a = false) (unique_from eqb seen l).
Proof.
  revert seen. induction l as [| y l IH]; intros seen; simpl; [constructor |].
  destruct (existsb (eqb y) seen) eqn:E; [apply IH |].
  constructor; [| apply IH].
  apply Forall_forall. intros b Hb. apply unique_from_In in Hb.
  destruct Hb as [_ Hb]. simpl in Hb. now apply orb_false_iff in Hb.
Qed.
End UniqueFacts.

Lemma unique_strings_In l s : In s (unique String.eqb l) <-> In s l.
Proof.
  unfold unique. split.
  - intros H. now apply unique_from_In in H.
  - intros H.
    destruct (unique_from_covers String.eqb [] l s (String.eqb_refl s) H)
      as [Hs | [y [Hy Heq]]]; [discriminate |].
    apply String.eqb_eq in Heq. now subst.
Qed.

Lemma unique_strings_NoDup l : NoDup (unique String.eqb l).
Proof.
  unfold unique. pose proof (unique_from_pairwise String.eqb [] l) as H.
  induction H as [| a u Ha Hu IH]; constructor; [| exact IH].
  intros Hin. rewrite Forall_forall in Ha. specialize (Ha a Hin).
  now rewrite String.eqb_refl in Ha.
Qed.

(** ** The order of cells is a total preorder *)

Lemma is_nan_spec x : is_nan x = false <-> Prim2SF x <> S754_nan.
Proof.
  unfold is_nan. rewrite eqb_spec. unfold SFeqb. split.
  - intros H E. rewrite E in H. discriminate.
  - intros H. now rewrite (SFcompare_refl _ H).
Qed.

Lemma SFcompare_total x y :
  x <> S754_nan -> y <> S754_nan -> exists c, SFcompare x y = Some c.
Proof.
  destruct x, y; simpl; intros Hx Hy; try (now contradiction Hx);
    try (now contradiction Hy); eexists; reflexivity.
Qed.

(** Between two numbers that are not NaN, [cell_compare] is the comparison of
    their specifications. *)
Lemma cell_compare_Num x y :
  is_nan x = false -> is_nan y = false ->
  SFcompare (Prim2SF x) (Prim2SF y) = Some (cell_compare (Num x) (Num y)).
Proof.
  intros Hx Hy. simpl. rewrite Hx, Hy, !ltb_spec. unfold SFltb.
  rewrite (SFcompare_antisym (Prim2SF x) (Prim2SF y)).
  apply is_nan_spec in Hx, Hy.
  destruct (SFcompare_total _ _ Hx Hy) as [c ->]. now destruct c.
Qed.

Lemma string_leb_trans s t u :
  String.leb s t = true -> String.leb t u = true -> String.leb s u = true.
Proof.
  unfold String.leb.
  destruct (String.compare s t) eqn:Est; try discriminate;
    destruct (String.compare t u) eqn:Etu; try discriminate; intros _ _.
  - apply String.compare_eq_iff in Est. subst. now rewrite Etu.
  - apply String.compare_eq_iff in Est. subst. now rewrite Etu.
  - apply String.compare_eq_iff in Etu. subst. now rewrite Est.
  - now rewrite (string_compare_lt_trans s t u Est Etu).
Qed.

Lemma cell_leb_trans a b c :
  cell_leb a b = true -> cell_leb b c = true -> cell_leb a c = true.
Proof.
  destruct a as [s | x], b as [t | y], c as [u | z];
    try (apply string_leb_trans);
    unfold cell_leb; simpl;
    try (repeat match goal with
                | |- context [is_nan ?v] => destruct (is_nan v)
                end; simpl; congruence).
  destruct (is_nan x) eqn:Hx, (is_nan y) eqn:Hy, (is_nan z) eqn:Hz;
    try (simpl; congruence).
  pose proof (cell_compare_Num x y Hx Hy) as Hxy.
  pose proof (cell_compare_Num y z Hy Hz) as Hyz.
  pose proof (cell_compare_Num x z Hx Hz) as Hxz.
  simpl in Hxy, Hyz, Hxz. rewrite Hx, Hy in Hxy. rewrite Hy, Hz in Hyz.
  rewrite Hx, Hz in Hxz. intros H1 H2.
  destruct (SFcompare_le_trans _ _ _ _ _ Hxy Hyz) as [c3 [Hc3 Hne]].
  - intros E. rewrite E in H1. discriminate.
  - intros E. rewrite E in H2. discriminate.
  - rewrite Hxz in Hc3. injection Hc3 as Hc3. rewrite Hc3.
    now destruct c3.
Qed.

Lemma cell_leb_of_ltb a b : cell_ltb a b = true -> cell_leb a b = true.
Proof. unfold cell_ltb, cell_leb. now destruct (cell_compare a b). Qed.

(** ** The reductions of the per-group table *)

Lemma join_unique_spec float_str series :
  joined_union float_str series (Str (join_unique float_str series)).
Proof.
  unfold joined_union, join_unique.
  exists (sort String.leb (unique String.eqb (map (astype_str float_str) series))).
  split; [reflexivity |]. split; [| split].
  - apply sort_Sorted, string_leb_total.
  - apply (Permutation_NoDup (l := unique String.eqb (map (astype_str float_str) series))).
    + symmetry. apply sort_Permutation.
    + apply unique_strings_NoDup.
  - intros s. split; intros H.
    + apply unique_strings_In.
      eapply Permutation_in; [apply sort_Permutation | exact H].
    + eapply Permutation_in; [symmetry; apply sort_Permutation |].
      now apply unique_strings_In.
Qed.

Lemma ltb_notnan x y :
  PrimFloat.ltb x y = true -> is_nan x = false /\ is_nan y = false.
Proof.
  rewrite ltb_spec. unfold SFltb. intros H.
  split; apply is_nan_spec; intros E; rewrite E in H;
    [| destruct (Prim2SF x)]; discriminate.
Qed.

Lemma eqb_notnan x y :
  PrimFloat.eqb x y = true -> is_nan x = false /\ is_nan y = false.
Proof.
  rewrite eqb_spec. unfold SFeqb. intros H.
  split; apply is_nan_spec; intros E; rewrite E in H;
    [| destruct (Prim2SF x)]; discriminate.
Qed.

Lemma ltb_compare x y :
  PrimFloat.ltb x y = true <-> SFcompare (Prim2SF x) (Prim2SF y) = Some Lt.
Proof.
  rewrite ltb_spec. unfold SFltb.
  destruct (SFcompare (Prim2SF x) (Prim2SF y)) as [[]|]; split; congruence.
Qed.

Lemma eqb_compare x y :
  PrimFloat.eqb x y = true <-> SFcompare (Prim2SF x) (Prim2SF y) = Some Eq.
Proof.
  rewrite eqb_spec. unfold SFeqb.
  destruct (SFcompare (Prim2SF x) (Prim2SF y)) as [[]|]; split; congruence.
Qed.

Lemma SFcompare_eq_lt x y z :
  SFcompare x y = Some Eq -> SFcompare y z = Some Lt -> SFcompare x z = Some Lt.
Proof.
  destruct x as [sx | sx | | sx mx ex], y as [sy | sy | | sy my ey],
    z as [sz | sz | | sz mz ez]; simpl; try discriminate; by_sign.
  all: plain_pos_compare; f_equal; cmp_cases; simpl in *; subst;
    try discriminate; try reflexivity; lia.
Qed.

Lemma SFcompare_lt_eq x y z :
  SFcompare x y = Some Lt -> SFcompare y z = Some Eq -> SFcompare x z = Some Lt.
Proof.
  destruct x as [sx | sx | | sx mx ex], y as [sy | sy | | sy my ey],
    z as [sz | sz | | sz mz ez]; simpl; try discriminate; by_sign.
  all: plain_pos_compare; f_equal; cmp_cases; simpl in *; subst;
    try discriminate; try reflexivity; lia.
Qed.

(** [x == y < z] and [x < y == z] *)
Lemma eqb_ltb_trans x y z :
  PrimFloat.eqb x y = true -> PrimFloat.ltb y z = true -> PrimFloat.ltb x z = true.
Proof.
  rewrite eqb_compare, !ltb_compare. apply SFcompare_eq_lt.
Qed.

Lemma ltb_eqb_trans x y z :
  PrimFloat.ltb x y = true -> PrimFloat.eqb y z = true -> PrimFloat.ltb x z = true.
Proof.
  rewrite eqb_compare, !ltb_compare. apply SFcompare_lt_eq.
Qed.

(** Among floats that are not NaN, what is not above is below or equal:
    [x <= y < z] and [x < y <= z]. *)
Lemma not_ltb_ltb_trans x y z :
  is_nan x = false -> is_nan y = false ->
  PrimFloat.ltb y x = false -> PrimFloat.ltb y z = true -> PrimFloat.ltb x z = true.
Proof.
  intros Hx Hy Hyx Hyz. apply is_nan_spec in Hx, Hy.
  destruct (SFcompare_total _ _ Hx Hy) as [c Hc].
  apply ltb_compare in Hyz. apply ltb_compare.
  destruct c.
  - now apply (SFcompare_eq_lt _ (Prim2SF y)).
  - now apply (SFcompare_lt_trans _ (Prim2SF y)).
  - assert (H : PrimFloat.ltb y x = true).
    { apply ltb_compare. rewrite SFcompare_antisym, Hc. reflexivity. }
    congruence.
Qed.

Lemma ltb_not_ltb_trans x y z :
  is_nan y = false -> is_nan z = false ->
  PrimFloat.ltb x y = true -> PrimFloat.ltb z y = false -> PrimFloat.ltb x z = true.
Proof.
  intros Hy Hz Hxy Hzy. apply is_nan_spec in Hy, Hz.
  destruct (SFcompare_total _ _ Hy Hz) as [c Hc].
  apply ltb_compare in Hxy. apply ltb_compare.
  destruct c.
  - now apply (SFcompare_lt_eq _ (Prim2SF y)).
  - now apply (SFcompare_lt_trans _ (Prim2SF y)).
  - assert (H : PrimFloat.ltb z y = true).
    { apply ltb_compare. rewrite SFcompare_antisym, Hc. reflexivity. }
    congruence.
Qed.

Section ReductionFacts.
Variable later_of_equal : reduction -> float -> float -> bool.

(** The running minimum of floats that are not NaN is one of them, and none
    of them is below it, whichever of two equal floats is kept. *)
Lemma reduce_min_spec xs x :
  is_nan x = false ->
  (forall c, In c xs -> exists y, c = Num y /\ is_nan y = false) ->
  exists m,
    reduce_left (min_step later_of_equal) (Num x) xs = Ok (Num m)
    /\ In (Num m) (Num x :: xs) /\ is_nan m = false
    /\ forall y, In (Num y) (Num x :: xs) -> PrimFloat.ltb y m = false.
Proof.
  revert x. induction xs as [| c xs IH]; intros x Hx Hxs.
  - exists x. split; [reflexivity |]. split; [now left |]. split; [exact Hx |].
    intros y [E | []]. injection E as <-. apply ltb_irrefl.
  - destruct (Hxs c (or_introl eq_refl)) as [b [-> Hb]].
    assert (Hxs' : forall c, In c xs -> exists y, c = Num y /\ is_nan y = false)
      by (intros c Hc; apply Hxs; now right).
    cbn [reduce_left min_step bind].
    destruct (PrimFloat.ltb b x) eqn:Ebx;
      [| destruct (PrimFloat.eqb b x && later_of_equal Min x b) eqn:Etie].
    + destruct (IH b Hb Hxs') as [m [Hm [Hin [Hna Hlow]]]].
      exists m. split; [exact Hm |]. split; [now right |]. split; [exact Hna |].
      intros y [E | Hy]; [| now apply Hlow].
      injection E as <-. destruct (PrimFloat.ltb x m) eqn:Exm; [| reflexivity].
      rewrite <- (Hlow b (or_introl eq_refl)). symmetry.
      now apply (ltb_trans b x m).
    + apply andb_true_iff in Etie. destruct Etie as [Eeq _].
      destruct (IH b Hb Hxs') as [m [Hm [Hin [Hna Hlow]]]].
      exists m. split; [exact Hm |]. split; [now right |]. split; [exact Hna |].
      intros y [E | Hy]; [| now apply Hlow].
      injection E as <-. destruct (PrimFloat.ltb x m) eqn:Exm; [| reflexivity].
      rewrite <- (Hlow b (or_introl eq_refl)). symmetry.
      now apply (eqb_ltb_trans b x m).
    + destruct (IH x Hx Hxs') as [m [Hm [Hin [Hna Hlow]]]].
      exists m. split; [exact Hm |].
      split; [destruct Hin as [Hin | Hin]; [now left | right; now right] |].
      split; [exact Hna |].
      intros y [E | [E | Hy]].
      * apply Hlow. now left.
      * injection E as <-. destruct (PrimFloat.ltb b m) eqn:Ebm; [| reflexivity].
        rewrite <- (Hlow x (or_introl eq_refl)). symmetry.
        now apply (not_ltb_ltb_trans x b m).
      * apply Hlow. now right.
Qed.

Lemma reduce_max_spec xs x :
  is_nan x = false ->
  (forall c, In c xs -> exists y, c = Num y /\ is_nan y = false) ->
  exists m,
    reduce_left (max_step later_of_equal) (Num x) xs = Ok (Num m)
    /\ In (Num m) (Num x :: xs) /\ is_nan m = false
    /\ forall y, In (Num y) (Num x :: xs) -> PrimFloat.ltb m y = false.
Proof.
  revert x. induction xs as [| c xs IH]; intros x Hx Hxs.
  - exists x. split; [reflexivity |]. split; [now left |]. split; [exact Hx |].
    intros y [E | []]. injection E as <-. apply ltb_irrefl.
  - destruct (Hxs c (or_introl eq_refl)) as [b [-> Hb]].
    assert (Hxs' : forall c, In c xs -> exists y, c = Num y /\ is_nan y = false)
      by (intros c Hc; apply Hxs; now right).
    cbn [reduce_left max_step bind].
    destruct (PrimFloat.ltb x b) eqn:Exb;
      [| destruct (PrimFloat.eqb b x && later_of_equal Max x b) eqn:Etie].
    + destruct (IH b Hb Hxs') as [m [Hm [Hin [Hna Hup]]]].
      exists m. split; [exact Hm |]. split; [now right |]. split; [exact Hna |].
      intros y [E | Hy]; [| now apply Hup].
      injection E as <-. destruct (PrimFloat.ltb m x) eqn:Emx; [| reflexivity].
      rewrite <- (Hup b (or_introl eq_refl)). symmetry.
      now apply (ltb_trans m x b).
    + apply andb_true_iff in Etie. destruct Etie as [Eeq _].
      destruct (IH b Hb Hxs') as [m [Hm [Hin [Hna Hup]]]].
      exists m. split; [exact Hm |]. split; [now right |]. split; [exact Hna |].
      intros y [E | Hy]; [| now apply Hup].
      injection E as <-. destruct (PrimFloat.ltb m x) eqn:Emx; [| reflexivity].
      rewrite <- (Hup b (or_introl eq_refl)). symmetry.
      apply (ltb_eqb_trans m x b Emx). now rewrite eqb_sym.
    + destruct (IH x Hx Hxs') as [m [Hm [Hin [Hna Hup]]]].
      exists m. split; [exact Hm |].
      split; [destruct Hin as [Hin | Hin]; [now left | right; now right] |].
      split; [exact Hna |].
      intros y [E | [E | Hy]].
      * apply Hup. now left.
      * injection E as <-. destruct (PrimFloat.ltb m b) eqn:Emb; [| reflexivity].
        rewrite <- (Hup x (or_introl eq_refl)). symmetry.
        now apply (ltb_not_ltb_trans m b x).
      * apply Hup. now right.
Qed.

Lemma filter_notna_nil series :
  filter (fun c => negb (isna c)) series = [] ->
  forall v, In v series -> isna v = true.
Proof.
  induction series as [| c series IH]; simpl; [intros _ v [] |].
  destruct (isna c) eqn:E; simpl; [| discriminate].
  intros H v [<- | Hv]; [assumption | now apply IH].
Qed.

Lemma filter_notna_numeric series c :
  forallb numeric series = true ->
  In c (filter (fun c => negb (isna c)) series) ->
  exists y, c = Num y /\ is_nan y = false.
Proof.
  rewrite forallb_forall. intros Hnum Hc. apply filter_In in Hc.
  destruct Hc as [Hc Hna]. specialize (Hnum c Hc).
  destruct c as [s | y]; [discriminate |]. exists y. split; [reflexivity |].
  now apply negb_true_iff in Hna.
Qed.

(** On a series of floats ["min"] returns, and returns the minimum. *)
Lemma agg_min_spec series :
  forallb numeric series = true ->
  exists m, agg_min later_of_equal series = Ok m /\ minimum_of series m.
Proof.
  intros Hnum. unfold agg_min, minimum_of.
  destruct (filter (fun c => negb (isna c)) series) as [| c xs] eqn:E.
  - exists NaN. split; [reflexivity |]. left.
    split; [now apply filter_notna_nil | reflexivity].
  - assert (Hall : forall c', In c' (c :: xs) ->
                              exists y, c' = Num y /\ is_nan y = false).
    { intros c' Hc'. apply (filter_notna_numeric series c' Hnum). now rewrite E. }
    destruct (Hall c (or_introl eq_refl)) as [x [-> Hx]].
    destruct (reduce_min_spec xs x Hx) as [m [Hm [Hin [Hna Hlow]]]].
    { intros c' Hc'. apply Hall. now right. }
    exists (Num m). split; [exact Hm |]. right. exists m.
    split; [reflexivity |]. rewrite <- E in Hin, Hlow.
    split; [now apply filter_In in Hin |]. split; [exact Hna |].
    intros y Hy. destruct (is_nan y) eqn:Ey.
    + destruct (PrimFloat.ltb y m) eqn:Eym; [| reflexivity].
      apply ltb_notnan in Eym. destruct Eym. congruence.
    + apply Hlow, filter_In. split; [exact Hy |]. simpl. now rewrite Ey.
Qed.

Lemma agg_max_spec series :
  forallb numeric series = true ->
  exists m, agg_max later_of_equal series = Ok m /\ maximum_of series m.
Proof.
  intros Hnum. unfold agg_max, maximum_of.
  destruct (filter (fun c => negb (isna c)) series) as [| c xs] eqn:E.
  - exists NaN. split; [reflexivity |]. left.
    split; [now apply filter_notna_nil | reflexivity].
  - assert (Hall : forall c', In c' (c :: xs) ->
                              exists y, c' = Num y /\ is_nan y = false).
    { intros c' Hc'. apply (filter_notna_numeric series c' Hnum). now rewrite E. }
    destruct (Hall c (or_introl eq_refl)) as [x [-> Hx]].
    destruct (reduce_max_spec xs x Hx) as [m [Hm [Hin [Hna Hup]]]].
    { intros c' Hc'. apply Hall. now right. }
    exists (Num m). split; [exact Hm |]. right. exists m.
    split; [reflexivity |]. rewrite <- E in Hin, Hup.
    split; [now apply filter_In in Hin |]. split; [exact Hna |].
    intros y Hy. destruct (is_nan y) eqn:Ey.
    + destruct (PrimFloat.ltb m y) eqn:Emy; [| reflexivity].
      apply ltb_notnan in Emy. destruct Emy. congruence.
    + apply Hup, filter_In. split; [exact Hy |]. simpl. now rewrite Ey.
Qed.

(** A reduction raises nothing but [TypeError]. *)
Lemma reduce_left_Raise step l acc e :
  (forall a y e', step a y = Raise e' -> e' = TypeError) ->
  reduce_left step acc l = Raise e -> e = TypeError.
Proof.
  intros Hstep. revert acc. induction l as [| y l IH]; intros acc; cbn [reduce_left].
  - discriminate.
  - destruct (step acc y) as [acc' | e'] eqn:E; cbn [bind].
    + apply IH.
    + intros H. injection H as <-. now apply (Hstep acc y).
Qed.

Lemma min_step_Raise a y e :
  min_step later_of_equal a y = Raise e -> e = TypeError.
Proof. destruct a, y; simpl; congruence. Qed.

Lemma max_step_Raise a y e :
  max_step later_of_equal a y = Raise e -> e = TypeError.
Proof. destruct a, y; simpl; congruence. Qed.

Lemma reduce_Raise float_str how series e :
  reduce float_str later_of_equal how series = Raise e -> e = TypeError.
Proof.
  destruct how; simpl; [discriminate | |]; unfold agg_min, agg_max;
    destruct (filter (fun c => negb (isna c)) series); try discriminate;
    apply reduce_left_Raise; [apply min_step_Raise | apply max_step_Raise].
Qed.
End ReductionFacts.

(** ** Element-wise operations that can raise *)

Lemma mapM_Forall2 {A B : Type} (f : A -> result B) xs ys :
  mapM f xs = Ok ys -> Forall2 (fun x y => f x = Ok y) xs ys.
Proof.
  revert ys. induction xs as [| x xs IH]; intros ys; cbn [mapM].
  - intros H. injection H as <-. constructor.
  - destruct (f x) as [y | e] eqn:E; cbn [bind]; [| discriminate].
    destruct (mapM f xs) as [ys' | e]; cbn [bind]; [| discriminate].
    intros H. injection H as <-. constructor; [exact E | now apply IH].
Qed.

Lemma mapM_Raise {A B : Type} (f : A -> result B) xs e :
  mapM f xs = Raise e -> exists x, In x xs /\ f x = Raise e.
Proof.
  induction xs as [| x xs IH]; cbn [mapM]; [discriminate |].
  destruct (f x) as [y | e'] eqn:E; cbn [bind].
  - destruct (mapM f xs) as [ys' | e']; cbn [bind]; [discriminate |].
    intros H. injection H as <-. destruct (IH eq_refl) as [x' [Hx' Hf]].
    exists x'. split; [now right | exact Hf].
  - intros H. injection H as <-. exists x. split; [now left | exact E].
Qed.

Lemma mapM_total {A B : Type} (f : A -> result B) xs :
  (forall x, In x xs -> exists y, f x = Ok y) -> exists ys, mapM f xs = Ok ys.
Proof.
  intros H. destruct (mapM f xs) as [ys | e] eqn:E; [now exists ys |].
  destruct (mapM_Raise _ _ _ E) as [x [Hx Hf]].
  destruct (H x Hx) as [y Hy]. congruence.
Qed.


Lemma Forall2_In_r {A B : Type} (R : A -> B -> Prop) xs ys y :
  Forall2 R xs ys -> In y ys -> exists x, In x xs /\ R x y.
Proof.
  induction 1 as [| x' y' xs ys HR _ IH]; [intros [] |].
  intros [<- | Hy]; [exists x'; split; [now left | exact HR] |].
  destruct (IH Hy) as [x [Hx Hxy]]. exists x. split; [now right | exact Hxy].
Qed.

Lemma Forall2_map_r {A B : Type} (g : B -> A) xs (ys : list B) :
  Forall2 (fun x y => g y = x) xs ys -> map g ys = xs.
Proof. induction 1; simpl; congruence. Qed.

Lemma Forall2_impl {A B : Type} (R S : A -> B -> Prop) xs ys :
  (forall x y, R x y -> S x y) -> Forall2 R xs ys -> Forall2 S xs ys.
Proof. intros H. induction 1; constructor; auto. Qed.

(** ** The per-group table (claims C3, C4, C10) *)

Lemma sort_values_Ok df by_ :
  has_columns by_ df = true ->
  sort_values df by_
  = Ok (mkDataFrame (columns df)
          (sort (fun r1 r2 => key_leb (sort_key (columns df) by_ r1)
                                      (sort_key (columns df) by_ r2))
                (rows df))).
Proof.
  intros H. unfold sort_values.
  replace (find (fun c => negb (has_column c df)) by_) with (@None string);
    [reflexivity |].
  symmetry. unfold has_columns in H. rewrite forallb_forall in H.
  induction by_ as [| c by_ IH]; simpl; [reflexivity |].
  rewrite (H c (or_introl eq_refl)). simpl. apply IH.
  intros x Hx. apply H. now right.
Qed.

Lemma filter_missing_nil cs df :
  has_columns cs df = true -> filter (fun c => negb (has_column c df)) cs = [].
Proof.
  unfold has_columns. rewrite forallb_forall. intros H.
  induction cs as [| c cs IH]; simpl; [reflexivity |].
  rewrite (H c (or_introl eq_refl)). simpl. apply IH.
  intros x Hx. apply H. now right.
Qed.

Lemma filter_negb_nil {A : Type} (p : A -> bool) l :
  filter (fun x => negb (p x)) l = [] <-> forallb p l = true.
Proof.
  induction l as [| x l IH]; simpl; [tauto |].
  destruct (p x); simpl; [exact IH |]. split; discriminate.
Qed.

Lemma float_columns_cells df cs r c :
  float_columns df cs = true -> In r (rows df) -> In c cs ->
  numeric (value_at (columns df) r c) = true.
Proof.
  intros H Hr Hc. now rewrite (float_columns_numeric df cs r c H Hr Hc).
Qed.

Section PerGroupFacts.
Variable float_str : float -> string.
Variable later_of_equal : reduction -> float -> float -> bool.

(** The row of a group, when its three reductions returned. *)
Lemma summary_row_Ok cols rs key row :
  summary_row float_str later_of_equal cols "MOUS_ID" aggregations rs key = Ok row ->
  let series c := column_of cols c (group_rows cols "MOUS_ID" key rs) in
  exists lo hi ang,
    agg_min later_of_equal (series "min_freq_GHz") = Ok lo
    /\ agg_max later_of_equal (series "max_freq_GHz") = Ok hi
    /\ agg_min later_of_equal (series "ang_res_arcsec") = Ok ang
    /\ row = [ key;
               Str (join_unique float_str (series "Source"));
               Str (join_unique float_str (series "project_code"));
               Str (join_unique float_str (series "band_list"));
               lo; hi;
               Str (join_unique float_str (series "SiO_transition"));
               Str (join_unique float_str (series "SiO_freq_GHz"));
               ang ].
Proof.
  unfold summary_row, aggregations, column_of.
  cbn [mapM reduce bind].
  destruct (agg_min later_of_equal
              (map (fun r => value_at cols r "min_freq_GHz")
                   (group_rows cols "MOUS_ID" key rs))) as [lo | e];
    cbn [bind]; [| discriminate].
  destruct (agg_max later_of_equal
              (map (fun r => value_at cols r "max_freq_GHz")
                   (group_rows cols "MOUS_ID" key rs))) as [hi | e];
    cbn [bind]; [| discriminate].
  destruct (agg_min later_of_equal
              (map (fun r => value_at cols r "ang_res_arcsec")
                   (group_rows cols "MOUS_ID" key rs))) as [ang | e];
    cbn [bind]; [| discriminate].
  intros H. injection H as <-. exists lo, hi, ang. repeat split; reflexivity.
Qed.

Lemma summary_row_Raise cols by_ aggs rs key e :
  summary_row float_str later_of_equal cols by_ aggs rs key = Raise e ->
  e = TypeError.
Proof.
  unfold summary_row.
  destruct (mapM _ aggs) as [cells | e'] eqn:E; cbn [bind]; [discriminate |].
  intros H. injection H as <-.
  destruct (mapM_Raise _ _ _ E) as [[c how] [_ Hr]].
  now apply reduce_Raise in Hr.
Qed.

Lemma summary_row_numeric cols rs key :
  (forall r c,
      In r rs -> In c ["min_freq_GHz"; "max_freq_GHz"; "ang_res_arcsec"] ->
      numeric (value_at cols r c) = true) ->
  exists row,
    summary_row float_str later_of_equal cols "MOUS_ID" aggregations rs key = Ok row.
Proof.
  intros Hnum.
  assert (Hser : forall c,
             In c ["min_freq_GHz"; "max_freq_GHz"; "ang_res_arcsec"] ->
             forallb numeric
               (map (fun r => value_at cols r c) (group_rows cols "MOUS_ID" key rs))
             = true).
  { intros c Hc. apply forallb_forall. intros v Hv.
    apply in_map_iff in Hv. destruct Hv as [r [<- Hr]].
    apply Hnum; [| exact Hc]. unfold group_rows in Hr. now apply filter_In in Hr. }
  destruct (agg_min_spec later_of_equal _ (Hser "min_freq_GHz" ltac:(simpl; auto)))
    as [lo [Hlo _]].
  destruct (agg_max_spec later_of_equal _ (Hser "max_freq_GHz" ltac:(simpl; auto)))
    as [hi [Hhi _]].
  destruct (agg_min_spec later_of_equal _ (Hser "ang_res_arcsec" ltac:(simpl; auto)))
    as [ang [Hang _]].
  unfold summary_row, aggregations. cbn [mapM reduce bind].
  rewrite Hlo, Hhi, Hang. cbn [bind]. eexists. reflexivity.
Qed.

(** On a table with the columns it reads, the per-group builder is the
    summary rows of the group keys, sorted. *)
Lemma build_per_mous_table_unfold df :
  has_columns mous_input_columns df = true ->
  build_per_mous_table float_str later_of_equal df
  = (summaries <- mapM (summary_row float_str later_of_equal (columns df)
                          "MOUS_ID" aggregations (rows df))
                       (group_keys (columns df) "MOUS_ID" (rows df)) ;;
     Ok (mkDataFrame mous_summary_columns
           (sort (row_leb mous_summary_columns ["Source"; "Project"]) summaries))).
Proof.
  intros H. unfold build_per_mous_table, groupby_agg.
  assert (Hid : has_column "MOUS_ID" df = true).
  { unfold has_columns in H. rewrite forallb_forall in H. apply H. now left. }
  assert (Hagg : has_columns (map fst aggregations) df = true).
  { unfold has_columns in *. rewrite forallb_forall in *.
    intros c Hc. apply H. now right. }
  rewrite Hid, (filter_missing_nil _ _ Hagg). cbn [negb].
  destruct (mapM _ (group_keys (columns df) "MOUS_ID" (rows df))) as [summaries | e];
    cbn [bind]; [| reflexivity].
  rewrite sort_values_Ok by reflexivity. reflexivity.
Qed.

(** Without one of the columns it reads the builder raises [KeyError]. *)
Lemma build_per_mous_table_KeyError df :
  has_columns mous_input_columns df = false ->
  exists msg, build_per_mous_table float_str later_of_equal df = Raise (KeyError msg).
Proof.
  intros H. unfold build_per_mous_table, groupby_agg.
  unfold has_columns, mous_input_columns in H. cbn [forallb] in H.
  destruct (has_column "MOUS_ID" df); cbn [negb andb] in *;
    [| eexists; reflexivity].
  destruct (filter (fun c => negb (has_column c df)) (map fst aggregations))
    as [| c cs] eqn:E; [| eexists; reflexivity].
  apply filter_negb_nil in E. cbn [forallb map fst aggregations] in E.
  congruence.
Qed.

(** The rows of the table the builder returns: one summary row per group
    key, sorted. *)
Lemma build_per_mous_table_rows df out :
  build_per_mous_table float_str later_of_equal df = Ok out ->
  has_columns mous_input_columns df = true
  /\ columns out = mous_summary_columns
  /\ exists summaries,
       Forall2 (fun key row =>
                  summary_row float_str later_of_equal (columns df) "MOUS_ID"
                              aggregations (rows df) key = Ok row)
               (group_keys (columns df) "MOUS_ID" (rows df)) summaries
       /\ rows out
          = sort (row_leb mous_summary_columns ["Source"; "Project"]) summaries.
Proof.
  intros Hout.
  assert (H : has_columns mous_input_columns df = true).
  { destruct (has_columns mous_input_columns df) eqn:E; [reflexivity |].
    destruct (build_per_mous_table_KeyError df E) as [msg Hmsg]. congruence. }
  split; [exact H |]. rewrite (build_per_mous_table_unfold df H) in Hout.
  destruct (mapM _ (group_keys (columns df) "MOUS_ID" (rows df)))
    as [summaries | e] eqn:E; cbn [bind] in Hout; [| discriminate].
  apply Ok_inj in Hout. subst out. split; [reflexivity |].
  exists summaries. split; [now apply mapM_Forall2 | reflexivity].
Qed.

(** With floats under the three columns it reduces by ["min"] and ["max"],
    the builder returns. *)
Lemma build_per_mous_table_numeric df :
  has_columns mous_input_columns df = true ->
  float_columns df ["min_freq_GHz"; "max_freq_GHz"; "ang_res_arcsec"] = true ->
  exists out, build_per_mous_table float_str later_of_equal df = Ok out.
Proof.
  intros H Hnum. rewrite (build_per_mous_table_unfold df H).
  destruct (mapM_total
              (summary_row float_str later_of_equal (columns df) "MOUS_ID"
                           aggregations (rows df))
              (group_keys (columns df) "MOUS_ID" (rows df))) as [summaries ->].
  - intros key _. apply summary_row_numeric.
    intros r c Hr Hc. now apply (float_columns_cells df _ r c Hnum).
  - cbn [bind]. eexists. reflexivity.
Qed.

(** The identifiers of the summary rows are the group keys. *)
Lemma summary_row_keys cols rs keys summaries :
  Forall2 (fun key row =>
             summary_row float_str later_of_equal cols "MOUS_ID" aggregations rs key
             = Ok row) keys summaries ->
  map (fun row => value_at mous_summary_columns row "MOUS_ID") summaries = keys.
Proof.
  intros H. apply Forall2_map_r. revert H. apply Forall2_impl.
  intros key row Hrow. destruct (summary_row_Ok _ _ _ _ Hrow)
    as [lo [hi [ang [_ [_ [_ ->]]]]]]. reflexivity.
Qed.
End PerGroupFacts.

Lemma cell_eqb_refl c : isna c = false -> cell_eqb c c = true.
Proof.
  destruct c as [s | x]; simpl; [intros _; apply String.eqb_refl |].
  apply eqb_refl_notna.
Qed.

Lemma cell_eqb_sym a b : cell_eqb a b = cell_eqb b a.
Proof.
  destruct a, b; simpl; try reflexivity; [apply String.eqb_sym | apply eqb_sym].
Qed.

Lemma cell_eqb_trans a b c :
  cell_eqb a b = true -> cell_eqb b c = true -> cell_eqb a c = true.
Proof.
  destruct a, b, c; simpl; try discriminate; [| apply eqb_trans].
  rewrite !String.eqb_eq. congruence.
Qed.

Lemma group_keys_In cols by_ rs key :
  In key (group_keys cols by_ rs) ->
  isna key = false /\ exists r, In r rs /\ value_at cols r by_ = key.
Proof.
  unfold group_keys, unique. intros H.
  apply (Permutation_in _ (sort_Permutation cell_leb _)) in H.
  apply unique_from_In in H. destruct H as [H _].
  apply filter_In in H. destruct H as [H Hna].
  apply negb_true_iff in Hna. split; [exact Hna |].
  apply in_map_iff in H. destruct H as [r [Hr Hin]]. now exists r.
Qed.




Lemma filter_Permutation {A : Type} (f : A -> bool) l l' :
  Permutation l l' -> Permutation (filter f l) (filter f l').
Proof.
  induction 1 as [| x l l' _ IH | x y l | l l' l'' _ IH1 _ IH2]; simpl.
  - constructor.
  - destruct (f x); [now constructor | exact IH].
  - destruct (f x), (f y); try apply Permutation_refl. apply perm_swap.
  - now rewrite IH1.
Qed.

Lemma filter_map_length {A B : Type} (g : A -> B) (p : B -> bool) l :
  List.length (filter (fun x => p (g x)) l) = List.length (filter p (map g l)).
Proof.
  induction l as [| x l IH]; simpl; [reflexivity |].
  destruct (p (g x)); simpl; now rewrite IH.
Qed.

(** Among values no two of which are equal, exactly one equals a value that
    has an equal among them. *)
Lemma count_one_equal u v :
  ForallOrdPairs (fun a b => cell_eqb b a = false) u ->
  (exists y, In y u /\ cell_eqb v y = true) ->
  List.length (filter (fun k => cell_eqb k v) u) = 1.
Proof.
  induction 1 as [| a u Ha Hu IH]; intros [y [Hy Hvy]]; [destruct Hy |].
  simpl. destruct (cell_eqb a v) eqn:Eav.
  - simpl. f_equal.
    replace (filter (fun k => cell_eqb k v) u) with (@nil cell); [reflexivity |].
    symmetry. rewrite Forall_forall in Ha.
    clear IH Hu Hy. induction u as [| b u IHu]; [reflexivity |].
    simpl. destruct (cell_eqb b v) eqn:Ebv.
    + assert (Hba : cell_eqb b a = true).
      { apply (cell_eqb_trans b v a Ebv). now rewrite cell_eqb_sym. }
      rewrite (Ha b (or_introl eq_refl)) in Hba. discriminate.
    + apply IHu. intros x Hx. apply Ha. now right.
  - apply IH. exists y. split; [| exact Hvy].
    destruct Hy as [-> | Hy]; [| exact Hy].
    rewrite cell_eqb_sym, Hvy in Eav. discriminate.
Qed.

(** C4. The per-group summary of a table with floats under the two frequency
    columns and the angular resolution has exactly one row for every
    dataset-group identifier present in its input, and every one of its rows
    carries an identifier of the input. *)
Theorem build_per_mous_table_one_row_per_mous
        (float_str : float -> string)
        (later_of_equal : reduction -> float -> float -> bool)
        (df : DataFrame) :
  has_columns mous_input_columns df = true ->
  float_columns df ["min_freq_GHz"; "max_freq_GHz"; "ang_res_arcsec"] = true ->
  exists out,
    build_per_mous_table float_str later_of_equal df = Ok out
    /\ (forall r,
          In r (rows df) ->
          isna (value_at (columns df) r "MOUS_ID") = false ->
          List.length
            (filter (fun row => cell_eqb (value_at (columns out) row "MOUS_ID")
                                         (value_at (columns df) r "MOUS_ID"))
                    (rows out)) = 1)
    /\ (forall row,
          In row (rows out) ->
          isna (value_at (columns out) row "MOUS_ID") = false
          /\ exists r, In r (rows df)
                       /\ value_at (columns df) r "MOUS_ID"
                          = value_at (columns out) row "MOUS_ID").
Proof.
  intros H Hnum.
  destruct (build_per_mous_table_numeric float_str later_of_equal df H Hnum)
    as [out Hout].
  destruct (build_per_mous_table_rows _ _ _ _ Hout)
    as [_ [Hcols [summaries [Hsum Hrows]]]].
  assert (Hperm : Permutation (rows out) summaries).
  { rewrite Hrows. apply sort_Permutation. }
  exists out. split; [exact Hout |]. rewrite Hcols.
  assert (Hids : Permutation
                   (map (fun row => value_at mous_summary_columns row "MOUS_ID")
                        (rows out))
                   (unique cell_eqb
                      (filter (fun k => negb (isna k))
                         (map (fun r => value_at (columns df) r "MOUS_ID") (rows df))))).
  { rewrite (Permutation_map _ Hperm), (summary_row_keys _ _ _ _ _ _ Hsum).
    unfold group_keys. apply sort_Permutation. }
  split.
  - intros r Hr Hna.
    rewrite (filter_map_length
               (fun row => value_at mous_summary_columns row "MOUS_ID")
               (fun k => cell_eqb k (value_at (columns df) r "MOUS_ID"))).
    rewrite (Permutation_length (filter_Permutation _ _ _ Hids)).
    apply count_one_equal; [apply unique_from_pairwise |].
    destruct (unique_from_covers cell_eqb []
                (filter (fun k => negb (isna k))
                   (map (fun r => value_at (columns df) r "MOUS_ID") (rows df)))
                (value_at (columns df) r "MOUS_ID"))
      as [Hseen | Hy].
    + now apply cell_eqb_refl.
    + apply filter_In. split; [| now rewrite Hna].
      apply in_map_iff. now exists r.
    + discriminate.
    + exact Hy.
  - intros row Hrow. apply (Permutation_in _ Hperm) in Hrow.
    destruct (Forall2_In_r _ _ _ _ Hsum Hrow) as [key [Hkey Hsrow]].
    destruct (summary_row_Ok _ _ _ _ _ _ Hsrow) as [lo [hi [ang [_ [_ [_ ->]]]]]].
    destruct (group_keys_In _ _ _ _ Hkey) as [Hna [r [Hr Hid]]].
    split; [exact Hna |]. now exists r.
Qed.


(** The examples of the specification: the group with windows [80, 90] and
    [85, 95] has minimum 80 and maximum 95, and its sources "GM Aur" and
    "AS 209" are joined as "AS 209, GM Aur". *)
Example build_per_mous_table_example :
  build_per_mous_table transition_str earlier_kept example_matches =
  Ok (mkDataFrame
        [ "MOUS_ID"; "Source"; "Project"; "ALMA_Band"; "min_freq_GHz";
          "max_freq_GHz"; "SiO_transitions"; "SiO_freqs_GHz"; "ang_res_arcsec" ]
        [ [ Str "uid://A001/X133d/X1a"; Str "AS 209, GM Aur"; Str "2018.1.01055.L";
            Str "3"; Num 80.0; Num 95.0; Str "J=2-1"; Str "86.84696"; Num 0.3 ];
          [ Str "uid://A001/X133d/X3c"; Str "IM Lup"; Str "2016.1.00484.L";
            Str "1 4"; Num 40.0; Num 135.0; Str "J=1-0, J=3-2";
            Str "130.26861, 43.423864"; Num 0.4 ] ]).
Proof. vm_compute. reflexivity. Qed.

(** A string among the floats of a group: ["min"] compares the two and
    raises. *)
Example build_per_mous_table_string_resolution :
  build_per_mous_table transition_str later_kept
    (mkDataFrame
       [ "Source"; "project_code"; "band_list"; "min_freq_GHz"; "max_freq_GHz";
         "ang_res_arcsec"; "MOUS_ID"; "SiO_transition"; "SiO_freq_GHz" ]
       [ [ Str "GM Aur"; Str "2018.1.01055.L"; Str "3"; Num 85.0; Num 95.0;
           Num 0.5; Str "uid://A001/X133d/X1a"; Str "J=2-1"; Num 86.84696 ];
         [ Str "AS 209"; Str "2018.1.01055.L"; Str "3"; Num 80.0; Num 90.0;
           Str "0.3"; Str "uid://A001/X133d/X1a"; Str "J=2-1"; Num 86.84696 ] ])
  = Raise TypeError.
Proof. vm_compute. reflexivity. Qed.

(** The zeros of either sign are equal: the one ["min"] gives is the one the
    library keeps. *)
Example agg_min_signed_zeros :
  agg_min later_kept [Num 0.0; Num (-0.0)] = Ok (Num (-0.0))
  /\ agg_min earlier_kept [Num 0.0; Num (-0.0)] = Ok (Num 0.0).
Proof. split; vm_compute; reflexivity. Qed.

Lemma build_per_mous_table_one_row_per_mous_witness :
  exists out,
    build_per_mous_table transition_str later_kept example_matches = Ok out
    /\ (forall r,
          In r (rows example_matches) ->
          isna (value_at (columns example_matches) r "MOUS_ID") = false ->
          List.length
            (filter (fun row => cell_eqb (value_at (columns out) row "MOUS_ID")
                                  (value_at (columns example_matches) r "MOUS_ID"))
                    (rows out)) = 1)
    /\ (forall row,
          In row (rows out) ->
          isna (value_at (columns out) row "MOUS_ID") = false
          /\ exists r, In r (rows example_matches)
                       /\ value_at (columns example_matches) r "MOUS_ID"
                          = value_at (columns out) row "MOUS_ID").
Proof.
  apply (build_per_mous_table_one_row_per_mous transition_str later_kept
           example_matches).
  - reflexivity.
  - reflexivity.
Defined.

(** C10. Every joined field of the per-group summary is [join_unique] of the
    group's column, made of the string representations of the values: they
    are deduplicated and sorted as strings, by code point.  Numbers are
    therefore ordered as decimal text: with the text Python gives 43.423864
    and 130.268610, the smaller frequency comes second in the joined list, in
    [join_unique] and in the [SiO_freqs_GHz] field of a group that covers the
    two lines. *)
Theorem join_unique_orders_text
        (float_str : float -> string)
        (later_of_equal : reduction -> float -> float -> bool) :
  float_str 43.423864%float = "43.423864" ->
  float_str 130.268610%float = "130.26861" ->
  (forall series,
      join_unique float_str series
      = join ", " (sort String.leb
                     (unique String.eqb (map (astype_str float_str) series)))
      /\ joined_union float_str series (Str (join_unique float_str series)))
  /\ (forall df out row,
        build_per_mous_table float_str later_of_equal df = Ok out ->
        has_columns mous_input_columns df = true ->
        In row (rows out) ->
        let joined c :=
          Str (join_unique float_str
                 (column_of (columns df) c
                    (mous_group df (value_at (columns out) row "MOUS_ID")))) in
        value_at (columns out) row "Source" = joined "Source"
        /\ value_at (columns out) row "Project" = joined "project_code"
        /\ value_at (columns out) row "ALMA_Band" = joined "band_list"
        /\ value_at (columns out) row "SiO_transitions" = joined "SiO_transition"
        /\ value_at (columns out) row "SiO_freqs_GHz" = joined "SiO_freq_GHz")
  /\ PrimFloat.ltb 43.423864 130.268610 = true
  /\ join_unique float_str [Num 43.423864; Num 130.268610] = "130.26861, 43.423864"
  /\ exists out,
       build_per_mous_table float_str later_of_equal two_line_matches = Ok out
       /\ map (fun row => value_at (columns out) row "SiO_freqs_GHz") (rows out)
          = [Str "130.26861, 43.423864"].
Proof.
  intros H1 H2.
  assert (Hjoin : join_unique float_str [Num 43.423864; Num 130.268610]
                  = "130.26861, 43.423864").
  { unfold join_unique. cbn [map astype_str]. rewrite H1, H2. reflexivity. }
  split; [| split; [| split; [| split]]].
  - intros series. split; [reflexivity | apply join_unique_spec].
  - intros df out row Hout _ Hrow.
    destruct (build_per_mous_table_rows _ _ _ _ Hout)
      as [_ [Hc [summaries [Hsum Hrows]]]].
    rewrite Hrows in Hrow.
    apply (Permutation_in _ (sort_Permutation _ _)) in Hrow.
    destruct (Forall2_In_r _ _ _ _ Hsum Hrow) as [key [_ Hsrow]].
    destruct (summary_row_Ok _ _ _ _ _ _ Hsrow) as [lo [hi [ang [_ [_ [_ ->]]]]]].
    rewrite Hc. cbv zeta. repeat split; reflexivity.
  - reflexivity.
  - exact Hjoin.
  - destruct (build_per_mous_table_numeric float_str later_of_equal
                two_line_matches eq_refl eq_refl) as [out Hout].
    destruct (build_per_mous_table_rows _ _ _ _ Hout)
      as [_ [Hc [summaries [Hsum Hrows]]]].
    exists out. split; [exact Hout |]. rewrite Hc, Hrows.
    change (group_keys (columns two_line_matches) "MOUS_ID" (rows two_line_matches))
      with [Str "uid://A001/X133d/X3c"] in Hsum.
    inversion Hsum as [| key row keys rest Hsrow Hrest]; subst.
    inversion Hrest; subst.
    destruct (summary_row_Ok _ _ _ _ _ _ Hsrow) as [lo [hi [ang [_ [_ [_ ->]]]]]].
    cbn [sort fold_right insert map].
    rewrite <- Hjoin. reflexivity.
Qed.

Lemma join_unique_orders_text_witness :
  (forall series,
      join_unique transition_str series
      = join ", " (sort String.leb
                     (unique String.eqb (map (astype_str transition_str) series)))
      /\ joined_union transition_str series
                      (Str (join_unique transition_str series)))
  /\ (forall df out row,
        build_per_mous_table transition_str later_kept df = Ok out ->
        has_columns mous_input_columns df = true ->
        In row (rows out) ->
        let joined c :=
          Str (join_unique transition_str
                 (column_of (columns df) c
                    (mous_group df (value_at (columns out) row "MOUS_ID")))) in
        value_at (columns out) row "Source" = joined "Source"
        /\ value_at (columns out) row "Project" = joined "project_code"
        /\ value_at (columns out) row "ALMA_Band" = joined "band_list"
        /\ value_at (columns out) row "SiO_transitions" = joined "SiO_transition"
        /\ value_at (columns out) row "SiO_freqs_GHz" = joined "SiO_freq_GHz")
  /\ PrimFloat.ltb 43.423864 130.268610 = true
  /\ join_unique transition_str [Num 43.423864; Num 130.268610]
     = "130.26861, 43.423864"
  /\ exists out,
       build_per_mous_table transition_str later_kept two_line_matches = Ok out
       /\ map (fun row => value_at (columns out) row "SiO_freqs_GHz") (rows out)
          = [Str "130.26861, 43.423864"].
Proof.
  apply (join_unique_orders_text transition_str later_kept); reflexivity.
Defined.

(** ** The per-SPW table (claim C5) *)

Lemma getitem_columns_present df cs :
  getitem_columns df (filter (fun c => has_column c df) cs)
  = Ok (mkDataFrame (filter (fun c => has_column c df) cs)
                    (reindex (filter (fun c => has_column c df) cs) df)).
Proof.
  unfold getitem_columns.
  replace (find (fun c => negb (has_column c df))
                (filter (fun c => has_column c df) cs)) with (@None string);
    [reflexivity |].
  symmetry. induction cs as [| c cs IH]; simpl; [reflexivity |].
  destruct (has_column c df) eqn:E; [| exact IH]. simpl. now rewrite E.
Qed.

(** With the four columns it sorts by, the per-SPW builder returns the
    projection on the kept columns that are present, renamed, its rows in
    ascending order of (Source, Project, ALMA_Band, SiO_freq_GHz). *)
Lemma build_per_spw_table_sorted df :
  has_columns ["Source"; "project_code"; "band_list"; "SiO_freq_GHz"] df = true ->
  let kept := filter (fun c => has_column c df) spw_keep_columns in
  exists out,
    build_per_spw_table df = Ok out
    /\ columns out = map (renamed spw_renaming) kept
    /\ Permutation (rows out) (reindex kept df)
    /\ Sorted (fun r1 r2 =>
                 key_leb (sort_key (columns out) spw_sort_columns r1)
                         (sort_key (columns out) spw_sort_columns r2) = true)
              (rows out).
Proof.
  intros H kept. unfold build_per_spw_table.
  fold spw_keep_columns. fold kept. unfold kept at 1.
  rewrite getitem_columns_present. cbn [bind]. fold kept.
  fold spw_renaming. fold spw_sort_columns.
  rewrite sort_values_Ok.
  - eexists. split; [reflexivity |]. cbn [columns rows rename].
    split; [reflexivity |]. split; [apply sort_Permutation |].
    apply sort_Sorted. intros a b. apply sort_key_leb_total.
  - unfold has_columns in *. rewrite forallb_forall in *.
    assert (Hk : forall c, In c ["Source"; "project_code"; "band_list"; "SiO_freq_GHz"] ->
                           In (renamed spw_renaming c)
                              (map (renamed spw_renaming) kept)).
    { intros c Hc. apply in_map. apply filter_In. split; [| now apply H].
      simpl in Hc. simpl. intuition. }
    intros c Hc. apply has_column_In. cbn [columns rename].
    simpl in Hc. destruct Hc as [<- | [<- | [<- | [<- | []]]]].
    + apply (Hk "Source"). simpl. auto.
    + apply (Hk "project_code"). simpl. auto.
    + apply (Hk "band_list"). simpl. auto.
    + apply (Hk "SiO_freq_GHz"). simpl. auto.
Qed.

(** C5, on a table of matches that lacks the band column: the harmonizer and
    the matcher go through, and the per-SPW builder raises [KeyError] on the
    column it sorts by instead of leaving the column out. *)
Theorem build_per_spw_table_missing_band :
  (exists harmonized,
      harmonize_columns no_band_obs = Ok harmonized
      /\ find_sio_spw_matches harmonized = Ok no_band_matches)
  /\ has_column "band_list" no_band_matches = false
  /\ build_per_spw_table no_band_matches = Raise (KeyError "ALMA_Band").
Proof.
  split; [| split; reflexivity].
  eexists. split; [reflexivity |]. vm_compute. reflexivity.
Qed.

(** The same table without its angular resolution and its identifier, two
    columns the builder does not sort by: they are left out, no error. *)
Example build_per_spw_table_optional_columns :
  build_per_spw_table
    (mkDataFrame
       [ "Source"; "project_code"; "band_list"; "min_freq_GHz"; "max_freq_GHz";
         "SiO_transition"; "SiO_freq_GHz"; "best_ang_res" ]
       [ [ Str "GM Aur"; Str "2018.1.01055.L"; Str "3"; Num 85.0; Num 95.0;
           Str "J=2-1"; Num 86.84696; Num 0.5 ];
         [ Str "AS 209"; Str "2018.1.01055.L"; Str "3"; Num 80.0; Num 135.0;
           Str "J=3-2"; Num 130.26861; Num 0.3 ];
         [ Str "AS 209"; Str "2018.1.01055.L"; Str "3"; Num 80.0; Num 135.0;
           Str "J=2-1"; Num 86.84696; Num 0.3 ] ])
  = Ok (mkDataFrame
          [ "Source"; "Project"; "ALMA_Band"; "min_freq_GHz"; "max_freq_GHz";
            "SiO_transition"; "SiO_freq_GHz" ]
          [ [ Str "AS 209"; Str "2018.1.01055.L"; Str "3"; Num 80.0; Num 135.0;
              Str "J=2-1"; Num 86.84696 ];
            [ Str "AS 209"; Str "2018.1.01055.L"; Str "3"; Num 80.0; Num 135.0;
              Str "J=3-2"; Num 130.26861 ];
            [ Str "GM Aur"; Str "2018.1.01055.L"; Str "3"; Num 85.0; Num 95.0;
              Str "J=2-1"; Num 86.84696 ] ]).
Proof. vm_compute. reflexivity. Qed.

(** * Further properties of the stages *)

(** ** Column assignment *)

Lemma well_formed_rows df r :
  well_formed df = true -> In r (rows df) ->
  List.length r = List.length (columns df).
Proof.
  unfold well_formed. rewrite andb_true_iff, forallb_forall.
  intros [_ H] Hr. now apply Nat.eqb_eq, H.
Qed.

Lemma well_formed_assign df c f :
  well_formed df = true -> well_formed (assign df c f) = true.
Proof.
  intros Hwf. pose proof (fun r => well_formed_rows df r Hwf) as Hlen.
  unfold well_formed in *. apply andb_true_iff in Hwf. destruct Hwf as [Hd _].
  apply andb_true_iff. rewrite columns_assign.
  split; [now apply distinct_add_column |].
  apply forallb_forall. intros r Hr. unfold assign in Hr. cbn [rows] in Hr.
  apply in_map_iff in Hr. destruct Hr as [r0 [<- Hr0]].
  now apply Nat.eqb_eq, length_set_cell, Hlen.
Qed.

Lemma len_assign df c f : len (assign df c f) = len df.
Proof. unfold len, assign. cbn [rows]. apply length_map. Qed.

(** On a well-formed table an assignment sets its column and leaves the
    others as they are. *)
Lemma column_assign df c f c' :
  well_formed df = true ->
  column (assign df c f) c'
  = if String.eqb c' c then map f (rows df) else column df c'.
Proof.
  intros Hwf. pose proof (fun r => well_formed_rows df r Hwf) as Hlen.
  unfold column, column_of. rewrite columns_assign.
  unfold assign. cbn [rows]. rewrite map_map.
  destruct (String.eqb_spec c' c) as [-> | Hne]; apply map_ext_in; intros r Hr.
  - now apply value_at_set_cell_same, Hlen.
  - now apply value_at_set_cell_other; [apply Hlen |].
Qed.

Lemma column_setitem_column df src :
  map (fun r => value_at (columns df) r src) (rows df) = column df src.
Proof. reflexivity. Qed.

(** ** The harmonizer *)

Lemma well_formed_defaulted df :
  well_formed df = true -> well_formed (defaulted df) = true.
Proof.
  intros Hwf. unfold defaulted, setitem_column, setitem_scalar.
  repeat match goal with
         | |- context [if ?b then _ else _] => destruct b
         end; repeat apply well_formed_assign; assumption.
Qed.

Lemma len_defaulted df : len (defaulted df) = len df.
Proof.
  unfold defaulted, setitem_column, setitem_scalar.
  repeat match goal with
         | |- context [if ?b then _ else _] => destruct b
         end; rewrite ?len_assign; reflexivity.
Qed.

(** The defaulting steps write a column only when it is absent. *)
Lemma column_defaulted df c :
  well_formed df = true -> has_column c df = true ->
  column (defaulted df) c = column df c.
Proof.
  intros Hwf Hc. unfold defaulted, setitem_column, setitem_scalar.
  destruct (has_column "ang_res_arcsec" df) eqn:Ha; cbn [negb].
  - destruct (has_column "band_list" df) eqn:Hb; cbn [negb andb]; [reflexivity |].
    destruct (has_column "band" df); [| reflexivity].
    rewrite column_assign by assumption.
    destruct (String.eqb_spec c "band_list") as [-> | _]; [congruence | reflexivity].
  - assert (Hne : String.eqb c "ang_res_arcsec" = false).
    { destruct (String.eqb_spec c "ang_res_arcsec") as [-> | _];
        [congruence | reflexivity]. }
    destruct (has_column "best_ang_res" df).
    + rewrite has_column_assign.
      destruct (has_column "band_list" df) eqn:Hb; cbn [negb andb orb].
      * rewrite column_assign, Hne by assumption. reflexivity.
      * rewrite has_column_assign. cbn [String.eqb Ascii.eqb Bool.eqb andb orb].
        rewrite orb_false_r.
        destruct (has_column "band" df); cbn [negb andb].
        -- rewrite column_assign by (now apply well_formed_assign).
           destruct (String.eqb_spec c "band_list") as [-> | _]; [congruence |].
           rewrite column_assign, Hne by assumption. reflexivity.
        -- rewrite column_assign, Hne by assumption. reflexivity.
    + rewrite has_column_assign.
      destruct (has_column "band_list" df) eqn:Hb; cbn [negb andb orb].
      * rewrite column_assign, Hne by assumption. reflexivity.
      * rewrite has_column_assign. cbn [String.eqb Ascii.eqb Bool.eqb andb orb].
        rewrite orb_false_r.
        destruct (has_column "band" df); cbn [negb andb].
        -- rewrite column_assign by (now apply well_formed_assign).
           destruct (String.eqb_spec c "band_list") as [-> | _]; [congruence |].
           rewrite column_assign, Hne by assumption. reflexivity.
        -- rewrite column_assign, Hne by assumption. reflexivity.
Qed.

Lemma harmonize_columns_Ok df out :
  harmonize_columns df = Ok out ->
  exists src,
    (src = "member_ous_uid" /\ has_column "member_ous_uid" df = true
     \/ src = "member_ous_id" /\ has_column "member_ous_uid" df = false
        /\ has_column "member_ous_id" df = true)
    /\ out = setitem_column (defaulted df) "MOUS_ID" src.
Proof.
  rewrite harmonize_columns_unfold. unfold require_columns.
  destruct (has_column "min_freq_GHz" (defaulted df)); [| discriminate].
  destruct (has_column "max_freq_GHz" (defaulted df)); [| discriminate].
  cbn [bind].
  rewrite !has_column_defaulted by discriminate.
  destruct (has_column "member_ous_uid" df).
  - intros H. injection H as <-. exists "member_ous_uid". auto.
  - destruct (has_column "member_ous_id" df); [| discriminate].
    intros H. injection H as <-. exists "member_ous_id". auto.
Qed.

(** X1. The harmonizer returns a table exactly when both frequency columns
    and one of the two MOUS identifier columns are there; with the frequency
    columns but neither identifier column it raises the [KeyError] of the
    missing MOUS identifier. *)
Theorem harmonize_columns_success (df : DataFrame) :
  ((exists out, harmonize_columns df = Ok out)
   <-> has_column "min_freq_GHz" df = true
       /\ has_column "max_freq_GHz" df = true
       /\ (has_column "member_ous_uid" df = true
           \/ has_column "member_ous_id" df = true))
  /\ (has_column "min_freq_GHz" df = true ->
      has_column "max_freq_GHz" df = true ->
      has_column "member_ous_uid" df = false ->
      has_column "member_ous_id" df = false ->
      harmonize_columns df
      = Raise (KeyError
          "ObsCore table missing MOUS identifier (member_ous_uid / member_ous_id).")).
Proof.
  rewrite harmonize_columns_unfold. unfold require_columns.
  rewrite !has_column_defaulted by discriminate.
  destruct (has_column "min_freq_GHz" df), (has_column "max_freq_GHz" df),
    (has_column "member_ous_uid" df), (has_column "member_ous_id" df);
    cbn [bind]; (split; [split |]);
    try (intros [out H]; discriminate);
    try (intros _; eexists; reflexivity);
    try (intros [H1 [H2 [H3 | H3]]]; discriminate);
    try (intros; discriminate); try reflexivity; auto.
Qed.

Example harmonize_columns_missing_identifier :
  harmonize_columns
    (mkDataFrame ["Source"; "min_freq_GHz"; "max_freq_GHz"]
                 [[Str "AS 209"; Num 86.0; Num 87.0]])
  = Raise (KeyError
      "ObsCore table missing MOUS identifier (member_ous_uid / member_ous_id).").
Proof. reflexivity. Qed.

Lemma has_column_defaulted_all c df :
  has_column c (defaulted df)
  = has_column c df || String.eqb c "ang_res_arcsec"
    || (String.eqb c "band_list" && has_column "band" df).
Proof.
  unfold defaulted, setitem_column, setitem_scalar.
  destruct (has_column "ang_res_arcsec" df) eqn:Ha,
    (has_column "best_ang_res" df) eqn:Hbest,
    (has_column "band_list" df) eqn:Hb, (has_column "band" df) eqn:Hd;
    cbn [negb];
    rewrite ?has_column_assign, ?Hb, ?Hd;
    cbn [String.eqb Ascii.eqb Bool.eqb negb andb orb];
    rewrite ?has_column_assign;
    destruct (String.eqb_spec c "ang_res_arcsec") as [E1 | _];
    destruct (String.eqb_spec c "band_list") as [E2 | _];
    try congruence; try subst c; rewrite ?Ha, ?Hb, ?Hd;
    cbn [andb orb]; rewrite ?orb_false_r, ?orb_true_r; reflexivity.
Qed.

(** X2. On success the harmonized table has every column of the input, the
    columns [ang_res_arcsec] and [MOUS_ID], and [band_list] when the input has
    [band]; it has as many rows as the input and is well formed when the
    input is. *)
Theorem harmonize_columns_shape (df out : DataFrame) :
  harmonize_columns df = Ok out ->
  (forall c,
      has_column c out
      = has_column c df || String.eqb c "ang_res_arcsec"
        || (String.eqb c "band_list" && has_column "band" df)
        || String.eqb c "MOUS_ID")
  /\ len out = len df
  /\ (well_formed df = true -> well_formed out = true).
Proof.
  intros H. destruct (harmonize_columns_Ok _ _ H) as [src [_ ->]].
  unfold setitem_column. split; [| split].
  - intros c. now rewrite has_column_assign, has_column_defaulted_all.
  - now rewrite len_assign, len_defaulted.
  - intros Hwf. now apply well_formed_assign, well_formed_defaulted.
Qed.

Example harmonize_columns_legacy :
  harmonize_columns legacy_obs = Ok legacy_harmonized.
Proof. reflexivity. Qed.

Lemma harmonize_columns_shape_witness :
  (forall c,
      has_column c legacy_harmonized
      = has_column c legacy_obs || String.eqb c "ang_res_arcsec"
        || (String.eqb c "band_list" && has_column "band" legacy_obs)
        || String.eqb c "MOUS_ID")
  /\ len legacy_harmonized = len legacy_obs
  /\ (well_formed legacy_obs = true -> well_formed legacy_harmonized = true).
Proof.
  apply (harmonize_columns_shape legacy_obs legacy_harmonized). reflexivity.
Defined.

(** X3. The harmonizer is structural: every column the input has, [MOUS_ID]
    apart, holds the same cells afterwards. *)
Theorem harmonize_columns_keeps_data (df out : DataFrame) (c : string) :
  well_formed df = true ->
  harmonize_columns df = Ok out ->
  has_column c df = true ->
  c <> "MOUS_ID" ->
  column out c = column df c.
Proof.
  intros Hwf H Hc Hne. destruct (harmonize_columns_Ok _ _ H) as [src [_ ->]].
  unfold setitem_column.
  rewrite column_assign by (now apply well_formed_defaulted).
  apply String.eqb_neq in Hne. rewrite Hne. now apply column_defaulted.
Qed.

Lemma harmonize_columns_keeps_data_witness :
  column legacy_harmonized "best_ang_res" = column legacy_obs "best_ang_res".
Proof.
  apply (harmonize_columns_keeps_data legacy_obs legacy_harmonized "best_ang_res");
    (reflexivity || discriminate).
Defined.

Lemma map_const {A B : Type} (v : B) (l : list A) :
  map (fun _ => v) l = repeat v (List.length l).
Proof. induction l as [| x l IH]; simpl; [reflexivity | now rewrite IH]. Qed.

(** X4. What the harmonizer fills in: [MOUS_ID] is [member_ous_uid] when the
    input has it and [member_ous_id] otherwise; [ang_res_arcsec] is the
    input's own column, else [best_ang_res], else NaN in every row; and
    [band_list], when the input lacks it and has [band], is [band]. *)
Theorem harmonize_columns_fills (df out : DataFrame) :
  well_formed df = true ->
  harmonize_columns df = Ok out ->
  column out "MOUS_ID"
  = column df (if has_column "member_ous_uid" df
               then "member_ous_uid" else "member_ous_id")
  /\ column out "ang_res_arcsec"
     = (if has_column "ang_res_arcsec" df then column df "ang_res_arcsec"
        else if has_column "best_ang_res" df then column df "best_ang_res"
        else repeat NaN (len df))
  /\ (has_column "band_list" df = false -> has_column "band" df = true ->
      column out "band_list" = column df "band").
Proof.
  intros Hwf H. destruct (harmonize_columns_Ok _ _ H) as [src [Hsrc ->]].
  unfold setitem_column.
  rewrite !column_assign by (now apply well_formed_defaulted).
  cbn [String.eqb Ascii.eqb Bool.eqb andb].
  split; [| split].
  - rewrite column_setitem_column.
    destruct Hsrc as [[-> Hu] | [-> [Hu Hi]]]; rewrite Hu;
      now apply column_defaulted.
  - unfold defaulted, setitem_column, setitem_scalar.
    destruct (has_column "ang_res_arcsec" df) eqn:Ha; cbn [negb].
    + destruct (negb (has_column "band_list" df) && has_column "band" df);
        [rewrite column_assign by assumption |]; reflexivity.
    + destruct (has_column "best_ang_res" df);
        match goal with
        | |- context [if ?b then _ else _] => destruct b
        end;
        rewrite ?(column_assign (assign _ _ _)) by (now apply well_formed_assign);
        cbn [String.eqb Ascii.eqb Bool.eqb andb];
        rewrite column_assign by assumption;
        cbn [String.eqb Ascii.eqb Bool.eqb andb];
        try reflexivity; apply map_const.
  - intros Hb Hd. unfold defaulted, setitem_column, setitem_scalar.
    destruct (has_column "ang_res_arcsec" df) eqn:Ha; cbn [negb].
    + rewrite Hb, Hd. cbn [negb andb].
      rewrite column_assign by assumption. reflexivity.
    + destruct (has_column "best_ang_res" df);
        rewrite !has_column_assign, Hb, Hd;
        cbn [String.eqb Ascii.eqb Bool.eqb negb andb orb];
        rewrite column_assign by (now apply well_formed_assign);
        cbn [String.eqb Ascii.eqb Bool.eqb andb];
        rewrite column_setitem_column;
        rewrite column_assign by assumption; reflexivity.
Qed.

Lemma harmonize_columns_fills_witness :
  column legacy_harmonized "MOUS_ID"
  = column legacy_obs (if has_column "member_ous_uid" legacy_obs
                       then "member_ous_uid" else "member_ous_id")
  /\ column legacy_harmonized "ang_res_arcsec"
     = (if has_column "ang_res_arcsec" legacy_obs
        then column legacy_obs "ang_res_arcsec"
        else if has_column "best_ang_res" legacy_obs
             then column legacy_obs "best_ang_res"
             else repeat NaN (len legacy_obs))
  /\ (has_column "band_list" legacy_obs = false ->
      has_column "band" legacy_obs = true ->
      column legacy_harmonized "band_list" = column legacy_obs "band").
Proof.
  apply (harmonize_columns_fills legacy_obs legacy_harmonized); reflexivity.
Defined.

(** ** Concatenation *)

Lemma union_columns_fold frames :
  union_columns frames = fold_left add_columns frames [].
Proof. reflexivity. Qed.

Lemma fold_add_columns_incl frames acc c :
  In c acc -> In c (fold_left add_columns frames acc).
Proof.
  revert acc. induction frames as [| df frames IH]; intros acc Hin; simpl;
    [assumption |].
  apply IH. unfold add_columns. apply in_or_app. now left.
Qed.

Lemma fold_add_columns_In frames acc df c :
  In df frames -> In c (columns df) -> In c (fold_left add_columns frames acc).
Proof.
  revert acc. induction frames as [| df' frames IH]; intros acc Hdf Hc; simpl;
    [destruct Hdf |].
  destruct Hdf as [-> | Hdf]; [| now apply IH].
  apply fold_add_columns_incl. unfold add_columns. apply in_or_app.
  destruct (existsb (String.eqb c) acc) eqn:E.
  - left. now apply existsb_eqb_In.
  - right. apply filter_In. split; [assumption | now rewrite E].
Qed.

Lemma union_columns_In frames df c :
  In df frames -> In c (columns df) -> In c (union_columns frames).
Proof. rewrite union_columns_fold. apply fold_add_columns_In. Qed.

Lemma NoDup_add_columns acc df :
  NoDup acc -> NoDup (columns df) -> NoDup (add_columns acc df).
Proof.
  intros Ha Hd. unfold add_columns. apply NoDup_app.
  - assumption.
  - now apply NoDup_filter.
  - intros c Hc Hf. apply filter_In in Hf. destruct Hf as [_ Hf].
    apply negb_true_iff, existsb_eqb_notin in Hf. contradiction.
Qed.

Lemma NoDup_union_columns frames :
  (forall df, In df frames -> NoDup (columns df)) -> NoDup (union_columns frames).
Proof.
  rewrite union_columns_fold. intros H.
  assert (Hacc : NoDup (@nil string)) by constructor.
  revert Hacc. generalize (@nil string) as acc.
  induction frames as [| df frames IH]; intros acc Hacc; simpl; [assumption |].
  apply IH.
  - intros df' Hdf'. apply H. now right.
  - apply NoDup_add_columns; [assumption |]. apply H. now left.
Qed.

(** Reading a row that was laid out along [cols] gives each column its cell. *)
Lemma value_at_laid_out cols (f : string -> cell) c :
  In c cols -> value_at cols (map f cols) c = f c.
Proof.
  unfold value_at. induction cols as [| c0 cols IH]; intros Hin; [destruct Hin |].
  simpl. destruct (String.eqb_spec c c0) as [-> | Hne]; [reflexivity |].
  apply IH. destruct Hin as [-> | Hin]; [contradiction | assumption].
Qed.

Lemma well_formed_NoDup df : well_formed df = true -> NoDup (columns df).
Proof.
  unfold well_formed. rewrite andb_true_iff. intros [H _].
  now apply distinct_NoDup.
Qed.

(** Concatenation keeps tables well formed, and each of its rows is a row of
    one of the frames, read along the union of the columns. *)
Lemma concat_rows frames out :
  concat frames = Ok out ->
  columns out = union_columns frames
  /\ rows out = flat_map (reindex (union_columns frames)) frames
  /\ ((forall df, In df frames -> well_formed df = true) -> well_formed out = true).
Proof.
  unfold concat. destruct frames as [| df0 frames0] eqn:E; [discriminate |].
  rewrite <- E. intros H. injection H as <-. cbn [columns rows].
  split; [reflexivity |]. split; [reflexivity |].
  intros Hwf. unfold well_formed. cbn [columns rows]. apply andb_true_iff. split.
  - apply distinct_NoDup, NoDup_union_columns.
    intros df Hdf. now apply well_formed_NoDup, Hwf.
  - apply forallb_forall. intros r Hr. apply in_flat_map in Hr.
    destruct Hr as [df [_ Hr]]. unfold reindex in Hr. apply in_map_iff in Hr.
    destruct Hr as [r0 [<- _]]. apply Nat.eqb_eq, length_map.
Qed.

Lemma length_flat_map_reindex cols frames :
  List.length (flat_map (reindex cols) frames) = list_sum (map len frames).
Proof.
  induction frames as [| df frames IH]; simpl; [reflexivity |].
  rewrite length_app, IH. unfold reindex, len. now rewrite length_map.
Qed.

(** ** The target query stage, row by row *)

Section QueryRows.
Variable target : string -> query_outcome.

Lemma collect_observations_In frame sources :
  In frame (collect_observations target sources) ->
  exists src df,
    In src sources /\ target src = Table df /\ yields_rows (target src) = true
    /\ frame = setitem_scalar df "Source" (Str src).
Proof.
  induction sources as [| src rest IH]; simpl; [intros [] |].
  assert (Hrest : In frame (collect_observations target rest) ->
                  exists src0 df,
                    (src = src0 \/ In src0 rest) /\ target src0 = Table df
                    /\ yields_rows (target src0) = true
                    /\ frame = setitem_scalar df "Source" (Str src0)).
  { intros H. destruct (IH H) as [s [df [Hs Hrest]]]. exists s, df. auto. }
  destruct (target src) as [exc | | df] eqn:E; try exact Hrest.
  destruct (len df =? 0)%nat eqn:El; [exact Hrest |].
  cbn [In]. intros [<- | H]; [| now apply Hrest].
  exists src, df. rewrite E. simpl. rewrite El. auto.
Qed.

Lemma collect_observations_len sources :
  list_sum (map len (collect_observations target sources))
  = list_sum (map (fun src => match target src with
                              | Table df => len df
                              | QueryFailed _ | NoTable => 0
                              end) sources).
Proof.
  induction sources as [| src rest IH]; simpl; [reflexivity |].
  destruct (target src) as [exc | | df]; try exact IH.
  destruct (len df =? 0)%nat eqn:El.
  - apply Nat.eqb_eq in El. now rewrite El.
  - simpl. unfold setitem_scalar. now rewrite len_assign, IH.
Qed.
End QueryRows.

(** X5. When the archive returns well-formed tables, the combined table of the
    query stage is well formed and has the [Source] column; it has as many
    rows as the archive returned in all; and each of its rows is a row of the
    table of one source, tagged with that source and with the cells of that
    row under the columns of that table. *)
Theorem query_maps_sources_rows
        (target : string -> query_outcome) (sources : list string)
        (combined : DataFrame) :
  (forall src df, target src = Table df -> well_formed df = true) ->
  query_maps_sources target sources = Ok combined ->
  well_formed combined = true
  /\ has_column "Source" combined = true
  /\ len combined
     = list_sum (map (fun src => match target src with
                                 | Table df => len df
                                 | QueryFailed _ | NoTable => 0
                                 end) sources)
  /\ forall r, In r (rows combined) ->
       exists src df r0,
         In src sources /\ target src = Table df /\ In r0 (rows df)
         /\ value_at (columns combined) r "Source" = Str src
         /\ forall c, has_column c df = true -> c <> "Source" ->
                      value_at (columns combined) r c = value_at (columns df) r0 c.
Proof.
  intros Hwf H. unfold query_maps_sources in H.
  destruct (collect_observations target sources) as [| f0 fs] eqn:E; [discriminate |].
  rewrite <- E in H.
  destruct (concat (collect_observations target sources)) as [out | e] eqn:Ec;
    [| discriminate].
  cbn [bind] in H. unfold getitem in H.
  destruct (has_column "Source" out) eqn:Hs; [| discriminate].
  cbn [bind] in H. injection H as <-.
  destruct (concat_rows _ _ Ec) as [Hcols [Hrows Hwfo]].
  assert (Hframes : forall frame,
             In frame (collect_observations target sources) ->
             well_formed frame = true).
  { intros frame Hf. destruct (collect_observations_In _ _ _ Hf)
      as [src [df [_ [Ht [_ ->]]]]].
    apply well_formed_assign. now apply (Hwf src). }
  split; [now apply Hwfo |]. split; [exact Hs |]. split.
  - unfold len at 1. rewrite Hrows, length_flat_map_reindex.
    apply collect_observations_len.
  - intros r Hr. rewrite Hrows in Hr. apply in_flat_map in Hr.
    destruct Hr as [frame [Hf Hr]].
    destruct (collect_observations_In _ _ _ Hf) as [src [df [Hsrc [Ht [_ Hframe]]]]].
    unfold reindex in Hr. apply in_map_iff in Hr. destruct Hr as [r' [<- Hr']].
    rewrite Hframe in Hr'. unfold setitem_scalar, assign in Hr'. cbn [rows] in Hr'.
    apply in_map_iff in Hr'. destruct Hr' as [r0 [<- Hr0]].
    exists src, df, r0. split; [assumption |]. split; [assumption |].
    split; [assumption |].
    assert (Hlen : List.length r0 = List.length (columns df))
      by (apply well_formed_rows; [now apply (Hwf src) | assumption]).
    assert (Hfc : columns frame = add_column (columns df) "Source")
      by (now rewrite Hframe).
    rewrite Hcols. split.
    + rewrite value_at_laid_out.
      * rewrite Hfc. now apply value_at_set_cell_same.
      * apply (union_columns_In _ frame); [assumption |].
        apply has_column_In. rewrite Hframe. unfold setitem_scalar.
        rewrite has_column_assign, String.eqb_refl. apply orb_true_r.
    + intros c Hc Hne. rewrite value_at_laid_out.
      * rewrite Hfc. now apply value_at_set_cell_other.
      * apply (union_columns_In _ frame); [assumption |].
        apply has_column_In. rewrite Hframe. unfold setitem_scalar.
        now rewrite has_column_assign, Hc.
Qed.

Lemma query_maps_sources_rows_witness :
  well_formed quiet_obs = true
  /\ has_column "Source" quiet_obs = true
  /\ len quiet_obs
     = list_sum (map (fun src => match quiet_target src with
                                 | Table df => len df
                                 | QueryFailed _ | NoTable => 0
                                 end) MAPS_SOURCES)
  /\ forall r, In r (rows quiet_obs) ->
       exists src df r0,
         In src MAPS_SOURCES /\ quiet_target src = Table df /\ In r0 (rows df)
         /\ value_at (columns quiet_obs) r "Source" = Str src
         /\ forall c, has_column c df = true -> c <> "Source" ->
                      value_at (columns quiet_obs) r c = value_at (columns df) r0 c.
Proof.
  apply (query_maps_sources_rows quiet_target MAPS_SOURCES quiet_obs).
  - intros src df. unfold quiet_target.
    destruct (String.eqb src "AS 209"); [discriminate |].
    destruct (String.eqb src "GM Aur"); [discriminate |].
    intros H. injection H as <-. reflexivity.
  - reflexivity.
Defined.

(** ** The matcher's table *)

(** The table the matcher returns on a table with numeric frequency columns
    and a [Source] column. *)
Lemma find_matches_table transitions obs_df :
  well_formed obs_df = true ->
  has_column "Source" obs_df = true ->
  has_column "min_freq_GHz" obs_df = true ->
  has_column "max_freq_GHz" obs_df = true ->
  float_columns obs_df ["min_freq_GHz"; "max_freq_GHz"] = true ->
  find_matches transitions obs_df
  = Ok (match selections transitions obs_df with
        | [] => empty_frame
        | _ => mkDataFrame (matched_columns (columns obs_df))
                           (flat_map rows (selections transitions obs_df))
        end).
Proof.
  intros Hwf Hsrc Hmin Hmax Hnum. unfold find_matches.
  rewrite (scan_transitions_numeric _ _ Hmin Hmax Hnum). cbn [bind].
  destruct (selections transitions obs_df) as [| df0 frames] eqn:E; [reflexivity |].
  rewrite <- E.
  rewrite (concat_uniform (matched_columns (columns obs_df))).
  - cbn [bind]. unfold getitem.
    assert (Hs : has_column "Source"
                   (mkDataFrame (matched_columns (columns obs_df))
                      (flat_map rows (selections transitions obs_df))) = true).
    { apply has_column_In. cbn [columns]. apply has_column_matched.
      now apply has_column_In. }
    rewrite Hs. reflexivity.
  - rewrite E. discriminate.
  - intros df Hdf. now apply (selections_uniform transitions obs_df).
Qed.

Lemma selections_rows_nil transitions obs_df :
  selections transitions obs_df = []
  <-> flat_map rows (selections transitions obs_df) = [].
Proof.
  split; [now intros -> |].
  unfold selections. induction transitions as [| t rest IH]; [reflexivity |].
  cbn [flat_map]. rewrite flat_map_app. intros H.
  apply app_eq_nil in H. destruct H as [H1 H2]. rewrite (IH H2), app_nil_r.
  unfold len in *. cbn [rows] in *.
  destruct (filter _ (rows obs_df)) as [| r rs]; [reflexivity |].
  cbn [List.length Nat.ltb Nat.leb flat_map] in *.
  rewrite app_nil_r, tag_rows in H1. discriminate.
Qed.

Lemma length_flat_map {A B : Type} (f : A -> list B) l :
  List.length (flat_map f l) = list_sum (map (fun x => List.length (f x)) l).
Proof.
  induction l as [| x l IH]; simpl; [reflexivity |]. now rewrite length_app, IH.
Qed.

Lemma list_sum_zero {A : Type} (f : A -> nat) l :
  list_sum (map f l) = 0 <-> forall x, In x l -> f x = 0.
Proof.
  induction l as [| y l IH]; simpl.
  - split; [intros _ x [] | reflexivity].
  - rewrite Nat.eq_add_0, IH. split.
    + intros [H1 H2] x [<- | Hx]; auto.
    + intros H. split; [apply H; now left |]. intros x Hx. apply H. now right.
Qed.

(** X6. Every row of the matcher's table is a match: its two annotations are
    a transition of the table, and the frequency lies strictly between the
    row's own [min_freq_GHz] and [max_freq_GHz].  The table is well formed. *)
Theorem find_sio_spw_matches_sound (obs_df out : DataFrame) :
  well_formed obs_df = true ->
  has_column "Source" obs_df = true ->
  has_column "min_freq_GHz" obs_df = true ->
  has_column "max_freq_GHz" obs_df = true ->
  float_columns obs_df ["min_freq_GHz"; "max_freq_GHz"] = true ->
  find_sio_spw_matches obs_df = Ok out ->
  well_formed out = true
  /\ forall row, In row (rows out) ->
       exists trans nu lo hi,
         In (trans, nu) SIO_V0_TRANSITIONS_GHZ
         /\ value_at (columns out) row "SiO_transition" = Str trans
         /\ value_at (columns out) row "SiO_freq_GHz" = Num nu
         /\ value_at (columns out) row "min_freq_GHz" = Num lo
         /\ value_at (columns out) row "max_freq_GHz" = Num hi
         /\ PrimFloat.ltb lo nu = true /\ PrimFloat.ltb nu hi = true.
Proof.
  intros Hwf Hsrc Hmin Hmax Hnum H. unfold find_sio_spw_matches in H.
  rewrite (find_matches_table _ _ Hwf Hsrc Hmin Hmax Hnum) in H.
  apply Ok_inj in H. subst out.
  destruct (selections SIO_V0_TRANSITIONS_GHZ obs_df) as [| f0 fs] eqn:E.
  - split; [reflexivity | intros row []].
  - rewrite <- E. cbn [columns rows]. rewrite selections_rows. split.
    + unfold well_formed. cbn [columns rows]. apply andb_true_iff. split.
      * unfold matched_columns. do 2 apply distinct_add_column.
        unfold well_formed in Hwf. now apply andb_true_iff in Hwf.
      * apply forallb_forall. intros row Hrow. apply in_flat_map in Hrow.
        destruct Hrow as [t [_ Hrow]]. apply in_map_iff in Hrow.
        destruct Hrow as [r [<- Hr]]. apply filter_In in Hr.
        apply Nat.eqb_eq, length_match_record, well_formed_rows; tauto.
    + intros row Hrow. apply in_flat_map in Hrow.
      destruct Hrow as [[trans nu] [Ht Hrow]]. cbn [fst snd] in Hrow.
      apply in_map_iff in Hrow. destruct Hrow as [r [<- Hr]].
      apply filter_In in Hr. destruct Hr as [Hr Hins].
      pose proof (well_formed_rows _ _ Hwf Hr) as Hlen.
      pose proof (float_columns_numeric _ _ r "min_freq_GHz" Hnum Hr) as Hlo.
      pose proof (float_columns_numeric _ _ r "max_freq_GHz" Hnum Hr) as Hhi.
      exists trans, nu, (float_at (columns obs_df) r "min_freq_GHz"),
        (float_at (columns obs_df) r "max_freq_GHz").
      split; [assumption |].
      rewrite value_at_match_record_transition, value_at_match_record_freq,
        !value_at_match_record by (assumption || discriminate).
      rewrite <- Hlo, <- Hhi by (simpl; auto).
      repeat split; try reflexivity;
        apply (strictly_inside_iff _ _ _ _ _
                 (Hlo ltac:(simpl; auto)) (Hhi ltac:(simpl; auto))) in Hins;
        tauto.
Qed.

Lemma find_sio_spw_matches_sound_witness :
  exists out,
    find_sio_spw_matches example_obs = Ok out
    /\ well_formed out = true
    /\ forall row, In row (rows out) ->
         exists trans nu lo hi,
           In (trans, nu) SIO_V0_TRANSITIONS_GHZ
           /\ value_at (columns out) row "SiO_transition" = Str trans
           /\ value_at (columns out) row "SiO_freq_GHz" = Num nu
           /\ value_at (columns out) row "min_freq_GHz" = Num lo
           /\ value_at (columns out) row "max_freq_GHz" = Num hi
           /\ PrimFloat.ltb lo nu = true /\ PrimFloat.ltb nu hi = true.
Proof.
  eexists. split; [vm_compute; reflexivity |].
  apply (find_sio_spw_matches_sound example_obs); reflexivity.
Defined.

(** X7. The matcher's table has one row per (row, covered transition) pair; it
    is empty exactly when no row covers a transition, and otherwise its
    columns are those of the input with the two annotation columns. *)
Theorem find_sio_spw_matches_size (obs_df out : DataFrame) :
  well_formed obs_df = true ->
  has_column "Source" obs_df = true ->
  has_column "min_freq_GHz" obs_df = true ->
  has_column "max_freq_GHz" obs_df = true ->
  float_columns obs_df ["min_freq_GHz"; "max_freq_GHz"] = true ->
  find_sio_spw_matches obs_df = Ok out ->
  len out
  = list_sum (map (fun r => List.length
                              (covered SIO_V0_TRANSITIONS_GHZ (columns obs_df) r))
                  (rows obs_df))
  /\ (empty out = true
      <-> forall r, In r (rows obs_df) ->
                    covered SIO_V0_TRANSITIONS_GHZ (columns obs_df) r = [])
  /\ (empty out = false -> columns out = matched_columns (columns obs_df)).
Proof.
  intros Hwf Hsrc Hmin Hmax Hnum H. unfold find_sio_spw_matches in H.
  rewrite (find_matches_table _ _ Hwf Hsrc Hmin Hmax Hnum) in H.
  apply Ok_inj in H. subst out.
  assert (Hlen : List.length (flat_map rows (selections SIO_V0_TRANSITIONS_GHZ obs_df))
                 = list_sum (map (fun r => List.length
                                   (covered SIO_V0_TRANSITIONS_GHZ (columns obs_df) r))
                                 (rows obs_df))).
  { rewrite selections_rows, (Permutation_length (matches_per_record _ _ _)).
    rewrite length_flat_map. f_equal. apply map_ext. intros r.
    unfold matches_of. apply length_map. }
  assert (Hnil : forall l : list (string * float),
             List.length l = 0 <-> l = []).
  { intros l. destruct l; split; (reflexivity || discriminate). }
  destruct (selections SIO_V0_TRANSITIONS_GHZ obs_df) as [| f0 fs] eqn:E.
  - cbn [flat_map List.length] in Hlen. split; [exact Hlen |].
    split; [| discriminate]. split; [| reflexivity]. intros _ r Hr.
    symmetry in Hlen. rewrite list_sum_zero in Hlen. now apply Hnil, Hlen.
  - rewrite <- E in *. unfold len, empty. cbn [rows columns].
    split; [exact Hlen |].
    assert (Hne : flat_map rows (selections SIO_V0_TRANSITIONS_GHZ obs_df) <> []).
    { intros Hn. apply selections_rows_nil in Hn. rewrite E in Hn. discriminate. }
    assert (Hcols : (List.length (matched_columns (columns obs_df)) =? 0)%nat = false).
    { apply Nat.eqb_neq. intros Hz.
      assert (Hin : In "SiO_freq_GHz" (matched_columns (columns obs_df))).
      { unfold matched_columns, add_column at 1.
        destruct (existsb _ _) eqn:Ex;
          [now apply existsb_eqb_In | apply in_or_app; right; now left]. }
      destruct (matched_columns (columns obs_df)); [destruct Hin | discriminate]. }
    rewrite Hcols. cbn [orb]. split; [| reflexivity]. split.
    + intros Hz. apply Nat.eqb_eq in Hz.
      destruct (flat_map rows _); [now contradiction Hne | discriminate].
    + intros Hall. exfalso. apply Hne.
      assert (Hz : List.length
                     (flat_map rows (selections SIO_V0_TRANSITIONS_GHZ obs_df)) = 0).
      { rewrite Hlen. apply list_sum_zero. intros r Hr. now rewrite (Hall r Hr). }
      destruct (flat_map rows _); [reflexivity | discriminate].
Qed.

Lemma find_sio_spw_matches_size_witness :
  exists out,
    find_sio_spw_matches example_obs = Ok out
    /\ len out
       = list_sum (map (fun r => List.length
                                   (covered SIO_V0_TRANSITIONS_GHZ
                                            (columns example_obs) r))
                       (rows example_obs))
    /\ (empty out = true
        <-> forall r, In r (rows example_obs) ->
                      covered SIO_V0_TRANSITIONS_GHZ (columns example_obs) r = [])
    /\ (empty out = false -> columns out = matched_columns (columns example_obs)).
Proof.
  eexists. split; [vm_compute; reflexivity |].
  apply (find_sio_spw_matches_size example_obs); reflexivity.
Defined.

Lemma mapM_lt_scalar_TypeError nu l :
  (exists s, In (Str s) l) -> mapM (lt_scalar nu) l = Raise TypeError.
Proof.
  induction l as [| c l IH]; intros [s Hs]; [destruct Hs |].
  simpl. destruct c as [s' | x]; [reflexivity |]. simpl.
  rewrite IH; [reflexivity |]. destruct Hs as [Hs | Hs]; [discriminate |].
  now exists s.
Qed.

Lemma find_matches_mask_error trans nu rest obs_df e :
  transition_mask obs_df nu = Raise e ->
  find_matches ((trans, nu) :: rest) obs_df = Raise e.
Proof.
  intros H. unfold find_matches. cbn [scan_transitions]. now rewrite H.
Qed.

(** X8. On a table the harmonizer has not passed, the matcher fails on its
    first transition: [KeyError] on [min_freq_GHz] when that column is absent,
    [TypeError] when the column holds a string, and [KeyError] on
    [max_freq_GHz] when the lower column is numeric and the upper one is
    absent. *)
Theorem find_sio_spw_matches_errors (obs_df : DataFrame) :
  (has_column "min_freq_GHz" obs_df = false ->
   find_sio_spw_matches obs_df = Raise (KeyError "min_freq_GHz"))
  /\ (has_column "min_freq_GHz" obs_df = true ->
      (exists s, In (Str s) (column obs_df "min_freq_GHz")) ->
      find_sio_spw_matches obs_df = Raise TypeError)
  /\ (has_column "min_freq_GHz" obs_df = true ->
      float_columns obs_df ["min_freq_GHz"] = true ->
      has_column "max_freq_GHz" obs_df = false ->
      find_sio_spw_matches obs_df = Raise (KeyError "max_freq_GHz")).
Proof.
  unfold find_sio_spw_matches, SIO_V0_TRANSITIONS_GHZ.
  split; [| split].
  - intros H. apply find_matches_mask_error.
    unfold transition_mask, getitem. now rewrite H.
  - intros H Hs. apply find_matches_mask_error.
    unfold transition_mask, getitem. rewrite H. cbn [bind].
    change (map (fun r => value_at (columns obs_df) r "min_freq_GHz") (rows obs_df))
      with (column obs_df "min_freq_GHz").
    now rewrite (mapM_lt_scalar_TypeError _ _ Hs).
  - intros H Hnum Hmax. apply find_matches_mask_error.
    unfold transition_mask, getitem. rewrite H, Hmax. cbn [bind].
    rewrite (mapM_Ok _ (fun c => match c with
                                 | Num x => PrimFloat.ltb x 43.423864
                                 | Str _ => false
                                 end)); [reflexivity |].
    intros c Hc. apply in_map_iff in Hc. destruct Hc as [r [<- Hr]].
    rewrite (float_columns_numeric _ _ r "min_freq_GHz" Hnum Hr) by (simpl; auto).
    reflexivity.
Qed.

Example find_sio_spw_matches_string_frequency :
  find_sio_spw_matches
    (mkDataFrame ["Source"; "min_freq_GHz"; "max_freq_GHz"]
                 [ [Str "AS 209"; Num 86.0; Num 87.0];
                   [Str "GM Aur"; Str "85.0"; Num 95.0] ])
  = Raise TypeError.
Proof. reflexivity. Qed.

(** ** The per-SPW table, with and without its sort columns *)

Lemma existsb_map_filter {A B : Type} (q : B -> bool) (g : A -> B) (p : A -> bool) l :
  existsb q (map g (filter p l)) = existsb (fun x => p x && q (g x)) l.
Proof.
  induction l as [| x l IH]; simpl; [reflexivity |].
  destruct (p x); simpl; now rewrite IH.
Qed.

Lemma build_per_spw_table_unfold df :
  build_per_spw_table df = sort_values (spw_projection df) spw_sort_columns.
Proof.
  unfold build_per_spw_table. fold spw_keep_columns.
  rewrite getitem_columns_present. reflexivity.
Qed.

Lemma has_column_spw_projection df :
  has_column "Source" (spw_projection df) = has_column "Source" df
  /\ has_column "Project" (spw_projection df) = has_column "project_code" df
  /\ has_column "ALMA_Band" (spw_projection df) = has_column "band_list" df
  /\ has_column "SiO_freq_GHz" (spw_projection df) = has_column "SiO_freq_GHz" df.
Proof.
  unfold has_column at 1 3 5 7. unfold spw_projection, rename. cbn [columns].
  rewrite !existsb_map_filter. unfold spw_keep_columns.
  cbn [existsb renamed spw_renaming lookup String.eqb Ascii.eqb Bool.eqb andb orb].
  rewrite !andb_false_r, !andb_true_r; cbn [orb]; rewrite ?orb_false_r.
  repeat split; reflexivity.
Qed.

(** X10. The per-SPW builder raises [KeyError] whenever one of the four
    columns it sorts by is absent from its input, and the error names the
    first one that is, in the order Source, Project, ALMA_Band,
    SiO_freq_GHz. *)
Theorem build_per_spw_table_missing_sort_column (df : DataFrame) :
  has_columns ["Source"; "project_code"; "band_list"; "SiO_freq_GHz"] df = false ->
  build_per_spw_table df
  = Raise (KeyError
             (if negb (has_column "Source" df) then "Source"
              else if negb (has_column "project_code" df) then "Project"
              else if negb (has_column "band_list" df) then "ALMA_Band"
              else "SiO_freq_GHz")).
Proof.
  intros H. rewrite build_per_spw_table_unfold. unfold sort_values, spw_sort_columns.
  destruct (has_column_spw_projection df) as [H1 [H2 [H3 H4]]].
  cbn [find]. rewrite H1, H2, H3, H4.
  unfold has_columns in H. cbn [forallb] in H.
  destruct (has_column "Source" df), (has_column "project_code" df),
    (has_column "band_list" df), (has_column "SiO_freq_GHz" df);
    try reflexivity; discriminate.
Qed.

Lemma build_per_spw_table_missing_sort_column_witness :
  build_per_spw_table no_band_matches
  = Raise (KeyError
             (if negb (has_column "Source" no_band_matches) then "Source"
              else if negb (has_column "project_code" no_band_matches) then "Project"
              else if negb (has_column "band_list" no_band_matches) then "ALMA_Band"
              else "SiO_freq_GHz")).
Proof.
  apply (build_per_spw_table_missing_sort_column no_band_matches). reflexivity.
Defined.

(** ** Sorting is ordered and stable *)

Section SortOrder.
Context {A : Type} (leb : A -> A -> bool).
Hypothesis leb_total : forall a b, leb a b = false -> leb b a = true.
Hypothesis leb_trans : forall a b c, leb a b = true -> leb b c = true -> leb a c = true.

Lemma sort_StronglySorted l :
  StronglySorted (fun a b => leb a b = true) (sort leb l).
Proof.
  apply Sorted_StronglySorted.
  - intros a b c. apply leb_trans.
  - now apply sort_Sorted.
Qed.

Lemma filter_tied_insert k x l :
  filter (tied leb k) (insert leb x l)
  = if tied leb k x then x :: filter (tied leb k) l else filter (tied leb k) l.
Proof.
  induction l as [| h t IH]; simpl; [reflexivity |].
  destruct (leb x h) eqn:Exh; simpl; [reflexivity |].
  rewrite IH. destruct (tied leb k x) eqn:Ekx, (tied leb k h) eqn:Ekh;
    try reflexivity.
  unfold tied in Ekx, Ekh. apply andb_true_iff in Ekx, Ekh.
  destruct Ekx as [_ Hxk], Ekh as [Hkh _].
  rewrite (leb_trans x k h Hxk Hkh) in Exh. discriminate.
Qed.

(** The sort is stable: the elements tied with a given one come out in the
    order they came in. *)
Lemma sort_stable k l :
  filter (tied leb k) (sort leb l) = filter (tied leb k) l.
Proof.
  induction l as [| x l IH]; simpl; [reflexivity |].
  rewrite filter_tied_insert, IH. reflexivity.
Qed.
End SortOrder.

Lemma cell_compare_Lt a b :
  cell_compare a b = Lt <-> cell_leb a b = true /\ cell_leb b a = false.
Proof.
  unfold cell_leb. rewrite (cell_compare_antisym a b).
  destruct (cell_compare a b); simpl; intuition congruence.
Qed.

Lemma cell_compare_Eq a b :
  cell_compare a b = Eq <-> cell_leb a b = true /\ cell_leb b a = true.
Proof.
  unfold cell_leb. rewrite (cell_compare_antisym a b).
  destruct (cell_compare a b); simpl; intuition congruence.
Qed.

Lemma cell_compare_chain a b c :
  cell_leb a b = true -> cell_leb b c = true ->
  cell_leb a c = true
  /\ (cell_compare a c = Eq -> cell_compare a b = Eq /\ cell_compare b c = Eq).
Proof.
  intros Hab Hbc. split; [now apply (cell_leb_trans a b c) |].
  intros Hac. apply cell_compare_Eq in Hac. destruct Hac as [_ Hca].
  split; apply cell_compare_Eq; split; try assumption.
  - now apply (cell_leb_trans b c a).
  - now apply (cell_leb_trans c a b).
Qed.

Lemma key_leb_trans k1 k2 k3 :
  List.length k1 = List.length k2 -> List.length k2 = List.length k3 ->
  key_leb k1 k2 = true -> key_leb k2 k3 = true -> key_leb k1 k3 = true.
Proof.
  unfold key_leb. revert k2 k3.
  induction k1 as [| a k1 IH]; intros [| b k2] [| c k3] L1 L2; simpl in *;
    try discriminate; try reflexivity.
  injection L1 as L1. injection L2 as L2. intros H12 H23.
  assert (Hab : cell_leb a b = true)
    by (unfold cell_leb; destruct (cell_compare a b); auto).
  assert (Hbc : cell_leb b c = true)
    by (unfold cell_leb; destruct (cell_compare b c); auto).
  destruct (cell_compare_chain a b c Hab Hbc) as [Hac Heq].
  unfold cell_leb in Hac.
  destruct (cell_compare a c) eqn:Eac; try reflexivity; [| discriminate].
  destruct (Heq eq_refl) as [Eab Ebc]. rewrite Eab in H12. rewrite Ebc in H23.
  now apply (IH k2 k3).
Qed.

Lemma sort_key_leb_trans cols by_ r1 r2 r3 :
  key_leb (sort_key cols by_ r1) (sort_key cols by_ r2) = true ->
  key_leb (sort_key cols by_ r2) (sort_key cols by_ r3) = true ->
  key_leb (sort_key cols by_ r1) (sort_key cols by_ r3) = true.
Proof.
  apply key_leb_trans; unfold sort_key; now rewrite !length_map.
Qed.

(** What [sort_values] does to the rows of a table that has the columns it
    sorts by: a stable sort in the order of the keys. *)
Lemma sort_values_spec df by_ :
  has_columns by_ df = true ->
  exists out,
    sort_values df by_ = Ok out
    /\ columns out = columns df
    /\ Permutation (rows out) (rows df)
    /\ StronglySorted (fun r1 r2 => row_leb (columns df) by_ r1 r2 = true) (rows out)
    /\ forall r, filter (tied (row_leb (columns df) by_) r) (rows out)
                 = filter (tied (row_leb (columns df) by_) r) (rows df).
Proof.
  intros H. rewrite (sort_values_Ok _ _ H). eexists. split; [reflexivity |].
  cbn [columns rows]. split; [reflexivity |].
  split; [apply sort_Permutation |]. split.
  - apply (sort_StronglySorted (row_leb (columns df) by_)).
    + intros a b. apply sort_key_leb_total.
    + intros a b c. apply sort_key_leb_trans.
  - intros r. apply (sort_stable (row_leb (columns df) by_)).
    intros a b c. apply sort_key_leb_trans.
Qed.

Lemma insert_map {A B : Type} (leb : A -> A -> bool) (leb' : B -> B -> bool)
      (g : A -> B) x l :
  (forall a b, leb' (g a) (g b) = leb a b) ->
  insert leb' (g x) (map g l) = map g (insert leb x l).
Proof.
  intros H. induction l as [| h t IH]; simpl; [reflexivity |].
  rewrite H. destruct (leb x h); simpl; [reflexivity | now rewrite IH].
Qed.

(** Sorting the images of a list in an order that the images carry over is
    sorting the list. *)
Lemma sort_map {A B : Type} (leb : A -> A -> bool) (leb' : B -> B -> bool)
      (g : A -> B) l :
  (forall a b, leb' (g a) (g b) = leb a b) ->
  sort leb' (map g l) = map g (sort leb l).
Proof.
  intros H. induction l as [| x l IH]; simpl; [reflexivity |].
  rewrite IH. now apply insert_map.
Qed.

(** A cell of a row laid out along renamed columns, when the renaming tells
    the column from the others. *)
Lemma value_at_renamed (g : string -> string) cols (f : string -> cell) c :
  In c cols ->
  (forall c', In c' cols -> g c' = g c -> c' = c) ->
  value_at (map g cols) (map f cols) (g c) = f c.
Proof.
  unfold value_at. induction cols as [| c0 cols IH]; intros Hin Hinj; [destruct Hin |].
  simpl. destruct (String.eqb_spec (g c) (g c0)) as [E | Hne].
  - now rewrite (Hinj c0 (or_introl eq_refl) (eq_sym E)).
  - apply IH.
    + destruct Hin as [-> | Hin]; [contradiction | assumption].
    + intros c' Hc'. apply Hinj. now right.
Qed.

Lemma renamed_spw_injective c c' :
  In c spw_keep_columns -> In c' spw_keep_columns ->
  renamed spw_renaming c' = renamed spw_renaming c -> c' = c.
Proof.
  unfold spw_keep_columns. cbn [In]. intros Hc Hc'.
  repeat match goal with
         | H : _ \/ _ |- _ => destruct H as [H | H]
         end;
    try contradiction; subst;
    solve [reflexivity | vm_compute; discriminate].
Qed.

(** X9. With the four columns it sorts by, the per-SPW builder returns the
    kept columns that are present, renamed, and one row per input row.  The
    output rows are, one for one, the input rows in ascending order of
    (Source, project_code, band_list, SiO_freq_GHz), input rows with the same
    key in their input order; an output row holds, under each renamed column,
    the cell its input row has under the column kept.  So the table
    [partial_matches], which starts with GM Aur and lists the J=3-2 line of
    AS 209 before its J=2-1 line, comes out with AS 209 first and its lines
    by frequency. *)
Theorem build_per_spw_table_projects_and_sorts (df : DataFrame) :
  has_columns ["Source"; "project_code"; "band_list"; "SiO_freq_GHz"] df = true ->
  let kept := filter (fun c => has_column c df) spw_keep_columns in
  let key := ["Source"; "project_code"; "band_list"; "SiO_freq_GHz"] in
  (exists out origins,
      build_per_spw_table df = Ok out
      /\ columns out = map (renamed spw_renaming) kept
      /\ len out = len df
      /\ Forall2 (fun row r =>
                    List.length row = List.length (columns out)
                    /\ forall c, In c kept ->
                         value_at (columns out) row (renamed spw_renaming c)
                         = value_at (columns df) r c)
                 (rows out) origins
      /\ Permutation origins (rows df)
      /\ StronglySorted (fun r1 r2 => row_leb (columns df) key r1 r2 = true) origins
      /\ (forall r, filter (tied (row_leb (columns df) key) r) origins
                    = filter (tied (row_leb (columns df) key) r) (rows df))
      /\ StronglySorted
           (fun r1 r2 => row_leb (columns out) spw_sort_columns r1 r2 = true)
           (rows out))
  /\ build_per_spw_table partial_matches
     = Ok (mkDataFrame
             [ "Source"; "Project"; "ALMA_Band"; "min_freq_GHz"; "max_freq_GHz";
               "SiO_transition"; "SiO_freq_GHz" ]
             [ [ Str "AS 209"; Str "2018.1.01055.L"; Str "3"; Num 80.0; Num 135.0;
                 Str "J=2-1"; Num 86.84696 ];
               [ Str "AS 209"; Str "2018.1.01055.L"; Str "3"; Num 80.0; Num 135.0;
                 Str "J=3-2"; Num 130.26861 ];
               [ Str "GM Aur"; Str "2018.1.01055.L"; Str "3"; Num 85.0; Num 95.0;
                 Str "J=2-1"; Num 86.84696 ] ]).
Proof.
  intros H kept key. split; [| vm_compute; reflexivity].
  set (project := fun r : list cell => map (value_at (columns df) r) kept).
  assert (Hcell : forall r c, In c kept ->
             value_at (map (renamed spw_renaming) kept) (project r)
                      (renamed spw_renaming c)
             = value_at (columns df) r c).
  { intros r c Hc. unfold project.
    apply (value_at_renamed (renamed spw_renaming) kept (value_at (columns df) r) c Hc).
    intros c' Hc'. apply renamed_spw_injective.
    - unfold kept in Hc. now apply filter_In in Hc.
    - unfold kept in Hc'. now apply filter_In in Hc'. }
  assert (Hkept : forall c, In c key -> In c kept).
  { intros c Hc. unfold kept. apply filter_In.
    unfold has_columns in H. rewrite forallb_forall in H.
    split; [| now apply H].
    unfold key, spw_keep_columns in *. cbn [In] in *.
    repeat match goal with
           | H : _ \/ _ |- _ => destruct H as [H | H]
           end; try contradiction; subst; tauto. }
  assert (Hleb : forall a b,
             row_leb (map (renamed spw_renaming) kept) spw_sort_columns
                     (project a) (project b)
             = row_leb (columns df) key a b).
  { assert (E : forall r c c',
               In c key -> c' = renamed spw_renaming c ->
               value_at (map (renamed spw_renaming) kept) (project r) c'
               = value_at (columns df) r c).
    { intros r c c' Hc ->. apply Hcell. now apply Hkept. }
    intros a b. unfold row_leb, sort_key, spw_sort_columns, key. cbn [map].
    rewrite (E a "Source" "Source"), (E b "Source" "Source"),
      (E a "project_code" "Project"), (E b "project_code" "Project"),
      (E a "band_list" "ALMA_Band"), (E b "band_list" "ALMA_Band"),
      (E a "SiO_freq_GHz" "SiO_freq_GHz"), (E b "SiO_freq_GHz" "SiO_freq_GHz");
      first [reflexivity | unfold key; simpl; tauto]. }
  rewrite build_per_spw_table_unfold.
  destruct (has_column_spw_projection df) as [H1 [H2 [H3 H4]]].
  assert (Hby : has_columns spw_sort_columns (spw_projection df) = true).
  { unfold has_columns in *. cbn [forallb spw_sort_columns] in *.
    now rewrite H1, H2, H3, H4. }
  rewrite (sort_values_Ok _ _ Hby).
  change (columns (spw_projection df)) with (map (renamed spw_renaming) kept).
  change (rows (spw_projection df)) with (map project (rows df)).
  change (fun r1 r2 =>
            key_leb (sort_key (map (renamed spw_renaming) kept) spw_sort_columns r1)
                    (sort_key (map (renamed spw_renaming) kept) spw_sort_columns r2))
    with (row_leb (map (renamed spw_renaming) kept) spw_sort_columns).
  rewrite (sort_map (row_leb (columns df) key) _ project (rows df) Hleb).
  eexists. exists (sort (row_leb (columns df) key) (rows df)).
  split; [reflexivity |]. cbn [columns rows].
  split; [reflexivity |]. split; [| split; [| split; [| split; [| split]]]].
  - unfold len. cbn [rows]. rewrite length_map.
    apply Permutation_length, sort_Permutation.
  - induction (sort (row_leb (columns df) key) (rows df)) as [| r l IH];
      simpl; constructor; [| exact IH].
    split; [unfold project; now rewrite !length_map |].
    intros c Hc. now apply Hcell.
  - apply sort_Permutation.
  - apply sort_StronglySorted.
    + intros a b. apply sort_key_leb_total.
    + intros a b c. apply sort_key_leb_trans.
  - intros r. apply sort_stable. intros a b c. apply sort_key_leb_trans.
  - rewrite <- (sort_map (row_leb (columns df) key) _ project (rows df) Hleb).
    apply sort_StronglySorted.
    + intros a b. apply sort_key_leb_total.
    + intros a b c. apply sort_key_leb_trans.
Qed.

Lemma build_per_spw_table_projects_and_sorts_witness :
  let kept := filter (fun c => has_column c partial_matches) spw_keep_columns in
  let key := ["Source"; "project_code"; "band_list"; "SiO_freq_GHz"] in
  (exists out origins,
      build_per_spw_table partial_matches = Ok out
      /\ columns out = map (renamed spw_renaming) kept
      /\ len out = len partial_matches
      /\ Forall2 (fun row r =>
                    List.length row = List.length (columns out)
                    /\ forall c, In c kept ->
                         value_at (columns out) row (renamed spw_renaming c)
                         = value_at (columns partial_matches) r c)
                 (rows out) origins
      /\ Permutation origins (rows partial_matches)
      /\ StronglySorted
           (fun r1 r2 => row_leb (columns partial_matches) key r1 r2 = true) origins
      /\ (forall r, filter (tied (row_leb (columns partial_matches) key) r) origins
                    = filter (tied (row_leb (columns partial_matches) key) r)
                             (rows partial_matches))
      /\ StronglySorted
           (fun r1 r2 => row_leb (columns out) spw_sort_columns r1 r2 = true)
           (rows out))
  /\ build_per_spw_table partial_matches
     = Ok (mkDataFrame
             [ "Source"; "Project"; "ALMA_Band"; "min_freq_GHz"; "max_freq_GHz";
               "SiO_transition"; "SiO_freq_GHz" ]
             [ [ Str "AS 209"; Str "2018.1.01055.L"; Str "3"; Num 80.0; Num 135.0;
                 Str "J=2-1"; Num 86.84696 ];
               [ Str "AS 209"; Str "2018.1.01055.L"; Str "3"; Num 80.0; Num 135.0;
                 Str "J=3-2"; Num 130.26861 ];
               [ Str "GM Aur"; Str "2018.1.01055.L"; Str "3"; Num 85.0; Num 95.0;
                 Str "J=2-1"; Num 86.84696 ] ]).
Proof.
  apply (build_per_spw_table_projects_and_sorts partial_matches). reflexivity.
Defined.

(** ** The per-group table: when it is built, and in which order *)

(** X11. The per-group builder raises [KeyError] on [MOUS_ID] when that
    column is absent, and otherwise [KeyError] on the aggregated columns that
    are absent, listed sorted by name.  With the nine columns it raises
    nothing but the [TypeError] of a reduction, and it returns when the three
    columns reduced by ["min"] and ["max"] hold floats.  It returns only on a
    table with the nine columns.  On a harmonized table that was never
    matched, which lacks the project code and the two annotations, the error
    names the three, the annotations first. *)
Theorem build_per_mous_table_success
        (float_str : float -> string)
        (later_of_equal : reduction -> float -> float -> bool)
        (df : DataFrame) :
  (has_column "MOUS_ID" df = false ->
   build_per_mous_table float_str later_of_equal df = Raise (KeyError "MOUS_ID"))
  /\ (has_column "MOUS_ID" df = true ->
      forall c cs,
        filter (fun c => negb (has_column c df))
               [ "Source"; "project_code"; "band_list"; "min_freq_GHz";
                 "max_freq_GHz"; "SiO_transition"; "SiO_freq_GHz";
                 "ang_res_arcsec" ] = c :: cs ->
        build_per_mous_table float_str later_of_equal df
        = Raise (KeyError ("Column(s) ['"
                           ++ join "', '" (sort String.leb (c :: cs))
                           ++ "'] do not exist")))
  /\ (has_columns mous_input_columns df = true ->
      (float_columns df ["min_freq_GHz"; "max_freq_GHz"; "ang_res_arcsec"] = true ->
       exists out, build_per_mous_table float_str later_of_equal df = Ok out)
      /\ forall e,
           build_per_mous_table float_str later_of_equal df = Raise e ->
           e = TypeError)
  /\ ((exists out, build_per_mous_table float_str later_of_equal df = Ok out) ->
      has_columns mous_input_columns df = true)
  /\ build_per_mous_table float_str later_of_equal legacy_harmonized
     = Raise (KeyError
                "Column(s) ['SiO_freq_GHz', 'SiO_transition', 'project_code'] do not exist").
Proof.
  split; [| split; [| split; [| split]]].
  - intros H. unfold build_per_mous_table, groupby_agg. now rewrite H.
  - intros H c cs E. unfold build_per_mous_table, groupby_agg. rewrite H.
    cbn [negb map fst aggregations]. now rewrite E.
  - intros H. split; [now apply build_per_mous_table_numeric |].
    intros e. rewrite (build_per_mous_table_unfold _ _ _ H).
    destruct (mapM _ (group_keys (columns df) "MOUS_ID" (rows df)))
      as [summaries | e'] eqn:E; cbn [bind]; [discriminate |].
    intros He. injection He as <-.
    destruct (mapM_Raise _ _ _ E) as [key [_ Hkey]].
    now apply summary_row_Raise in Hkey.
  - intros [out Hout].
    now destruct (build_per_mous_table_rows _ _ _ _ Hout) as [H _].
  - reflexivity.
Qed.

Lemma sort_cells_StronglySorted l :
  StronglySorted (fun a b => cell_leb a b = true) (sort cell_leb l).
Proof.
  apply sort_StronglySorted; [apply cell_leb_total | apply cell_leb_trans].
Qed.

Lemma StronglySorted_members {A : Type} (R S : A -> A -> Prop) l :
  (forall a b, In a l -> In b l -> R a b -> S a b) ->
  StronglySorted R l -> StronglySorted S l.
Proof.
  intros H HR. induction HR as [| a l HR IH Ha]; constructor.
  - apply IH. intros x y Hx Hy. apply H; now right.
  - rewrite Forall_forall in *. intros b Hb.
    apply H; [now left | now right | now apply Ha].
Qed.

Lemma StronglySorted_filter {A : Type} (R : A -> A -> Prop) (f : A -> bool) l :
  StronglySorted R l -> StronglySorted R (filter f l).
Proof.
  induction 1 as [| a l HR IH Ha]; simpl; [constructor |].
  destruct (f a); [| exact IH]. constructor; [exact IH |].
  rewrite Forall_forall in *. intros b Hb. apply filter_In in Hb. now apply Ha.
Qed.

Lemma StronglySorted_map {A B : Type} (R : B -> B -> Prop) (g : A -> B) l :
  StronglySorted R (map g l) -> StronglySorted (fun a b => R (g a) (g b)) l.
Proof.
  induction l as [| a l IH]; simpl; intros H; [constructor |].
  apply StronglySorted_inv in H. destruct H as [H Ha].
  constructor; [now apply IH |].
  rewrite Forall_forall in *. intros b Hb. apply Ha. now apply in_map.
Qed.

(** On rows whose [Source] and [Project] cells are strings, the order the
    sort uses is the order of the pairs of strings. *)
Lemma row_leb_pair cols r1 r2 s1 p1 s2 p2 :
  value_at cols r1 "Source" = Str s1 -> value_at cols r1 "Project" = Str p1 ->
  value_at cols r2 "Source" = Str s2 -> value_at cols r2 "Project" = Str p2 ->
  row_leb cols ["Source"; "Project"] r1 r2
  = pair_leb (source_project cols r1) (source_project cols r2).
Proof.
  intros H1 H2 H3 H4.
  unfold row_leb, sort_key, key_leb, pair_leb, source_project, String.leb.
  cbn [map key_compare fst snd]. rewrite H1, H2, H3, H4. cbn [cell_compare text_of].
  destruct (String.compare s1 s2); try reflexivity.
  destruct (String.compare p1 p2); reflexivity.
Qed.

(** X12. With floats under the three columns it reduces by ["min"] and
    ["max"], the per-group builder returns a well-formed table whose [Source]
    and [Project] cells are strings, the joined lists.  Its rows are in
    ascending order of the pair (Source, Project), each compared as a string
    by code point, and the rows with the same pair are in ascending order of
    [MOUS_ID], the order in which [groupby] lists the groups.  So four groups
    listed as X1, X2, X3, X4, of IM Lup, AS 209, AS 209 and AS 209, the third
    of an earlier project, come out as X3, X2, X4, X1. *)
Theorem build_per_mous_table_order
        (float_str : float -> string)
        (later_of_equal : reduction -> float -> float -> bool)
        (df : DataFrame) :
  has_columns mous_input_columns df = true ->
  float_columns df ["min_freq_GHz"; "max_freq_GHz"; "ang_res_arcsec"] = true ->
  (exists out,
      build_per_mous_table float_str later_of_equal df = Ok out
      /\ well_formed out = true
      /\ (forall row, In row (rows out) ->
          exists s p,
            value_at (columns out) row "Source" = Str s
            /\ value_at (columns out) row "Project" = Str p)
      /\ StronglySorted
           (fun r1 r2 => pair_leb (source_project (columns out) r1)
                                  (source_project (columns out) r2) = true)
           (rows out)
      /\ (forall r,
            In r (rows out) ->
            StronglySorted
              (fun r1 r2 => cell_leb (value_at (columns out) r1 "MOUS_ID")
                                     (value_at (columns out) r2 "MOUS_ID") = true)
              (filter (fun row => tied pair_leb (source_project (columns out) r)
                                                (source_project (columns out) row))
                      (rows out))))
  /\ (exists out,
        build_per_mous_table float_str later_of_equal order_matches = Ok out
        /\ map (fun row => value_at (columns out) row "MOUS_ID") (rows out)
           = [ Str "uid://A001/X133d/X3"; Str "uid://A001/X133d/X2";
               Str "uid://A001/X133d/X4"; Str "uid://A001/X133d/X1" ]).
Proof.
  intros H Hnum. split.
  2: { eexists. split; vm_compute; reflexivity. }
  destruct (build_per_mous_table_numeric float_str later_of_equal df H Hnum)
    as [out Hout].
  destruct (build_per_mous_table_rows _ _ _ _ Hout)
    as [_ [Hcols [summaries [Hsum Hrows]]]].
  assert (Hperm : Permutation (rows out) summaries).
  { rewrite Hrows. apply sort_Permutation. }
  assert (Hshape : forall row, In row (rows out) ->
            List.length row = 9
            /\ exists s p,
                 value_at mous_summary_columns row "Source" = Str s
                 /\ value_at mous_summary_columns row "Project" = Str p).
  { intros row Hrow. apply (Permutation_in _ Hperm) in Hrow.
    destruct (Forall2_In_r _ _ _ _ Hsum Hrow) as [key [_ Hsrow]].
    destruct (summary_row_Ok _ _ _ _ _ _ Hsrow) as [lo [hi [ang [_ [_ [_ ->]]]]]].
    split; [reflexivity |]. do 2 eexists. split; reflexivity. }
  assert (Hleb : forall r1 r2, In r1 (rows out) -> In r2 (rows out) ->
            row_leb mous_summary_columns ["Source"; "Project"] r1 r2
            = pair_leb (source_project mous_summary_columns r1)
                       (source_project mous_summary_columns r2)).
  { intros r1 r2 H1 H2.
    destruct (Hshape r1 H1) as [_ [s1 [p1 [Hs1 Hp1]]]].
    destruct (Hshape r2 H2) as [_ [s2 [p2 [Hs2 Hp2]]]].
    now apply (row_leb_pair _ _ _ s1 p1 s2 p2). }
  exists out. split; [exact Hout |]. rewrite Hcols.
  split; [| split; [| split]].
  - unfold well_formed. rewrite Hcols. apply andb_true_iff.
    split; [reflexivity |]. apply forallb_forall. intros r Hr.
    destruct (Hshape r Hr) as [-> _]. reflexivity.
  - intros row Hrow. now destruct (Hshape row Hrow) as [_ Hsp].
  - apply (StronglySorted_members
             (fun r1 r2 => row_leb mous_summary_columns ["Source"; "Project"] r1 r2
                           = true)).
    + intros a b Ha Hb. now rewrite (Hleb a b Ha Hb).
    + rewrite Hrows. apply sort_StronglySorted.
      * intros a b. apply sort_key_leb_total.
      * intros a b c. apply sort_key_leb_trans.
  - intros r Hr.
    replace (filter (fun row => tied pair_leb (source_project mous_summary_columns r)
                                     (source_project mous_summary_columns row))
                    (rows out))
      with (filter (tied (row_leb mous_summary_columns ["Source"; "Project"]) r)
                   (rows out)).
    2: { apply filter_ext_in. intros row Hrow. unfold tied.
         now rewrite (Hleb r row Hr Hrow), (Hleb row r Hrow Hr). }
    rewrite Hrows.
    rewrite (sort_stable (row_leb mous_summary_columns ["Source"; "Project"]))
      by (intros a b c; apply sort_key_leb_trans).
    apply StronglySorted_filter.
    apply (StronglySorted_map (fun a b => cell_leb a b = true)
             (fun row => value_at mous_summary_columns row "MOUS_ID")).
    rewrite (summary_row_keys _ _ _ _ _ _ Hsum).
    apply sort_cells_StronglySorted.
Qed.

Lemma build_per_mous_table_order_witness :
  (exists out,
      build_per_mous_table transition_str later_kept example_matches = Ok out
      /\ well_formed out = true
      /\ (forall row, In row (rows out) ->
          exists s p,
            value_at (columns out) row "Source" = Str s
            /\ value_at (columns out) row "Project" = Str p)
      /\ StronglySorted
           (fun r1 r2 => pair_leb (source_project (columns out) r1)
                                  (source_project (columns out) r2) = true)
           (rows out)
      /\ (forall r,
            In r (rows out) ->
            StronglySorted
              (fun r1 r2 => cell_leb (value_at (columns out) r1 "MOUS_ID")
                                     (value_at (columns out) r2 "MOUS_ID") = true)
              (filter (fun row => tied pair_leb (source_project (columns out) r)
                                                (source_project (columns out) row))
                      (rows out))))
  /\ (exists out,
        build_per_mous_table transition_str later_kept order_matches = Ok out
        /\ map (fun row => value_at (columns out) row "MOUS_ID") (rows out)
           = [ Str "uid://A001/X133d/X3"; Str "uid://A001/X133d/X2";
               Str "uid://A001/X133d/X4"; Str "uid://A001/X133d/X1" ]).
Proof.
  apply (build_per_mous_table_order transition_str later_kept example_matches).
  - reflexivity.
  - reflexivity.
Defined.

(** ** The window of a group *)

(** X13. When every MatchRecord's window strictly brackets its matched
    frequency, as in the matcher's table, the window of a summary row (the
    least [min_freq_GHz] and the greatest [max_freq_GHz] of its group)
    strictly brackets the matched frequency of every row of the group. *)
Theorem build_per_mous_table_window
        (float_str : float -> string)
        (later_of_equal : reduction -> float -> float -> bool)
        (df out : DataFrame) :
  has_columns mous_input_columns df = true ->
  build_per_mous_table float_str later_of_equal df = Ok out ->
  (forall r, In r (rows df) -> bracketed (columns df) r) ->
  forall row r nu,
    In row (rows out) ->
    In r (mous_group df (value_at (columns out) row "MOUS_ID")) ->
    value_at (columns df) r "SiO_freq_GHz" = Num nu ->
    exists lo hi,
      value_at (columns out) row "min_freq_GHz" = Num lo
      /\ value_at (columns out) row "max_freq_GHz" = Num hi
      /\ PrimFloat.ltb lo nu = true /\ PrimFloat.ltb nu hi = true.
Proof.
  intros _ Hout Hbr row r nu Hrow Hr Hnu.
  destruct (build_per_mous_table_rows _ _ _ _ Hout)
    as [_ [Hc [summaries [Hsum Hrows]]]].
  rewrite Hrows in Hrow. apply (Permutation_in _ (sort_Permutation _ _)) in Hrow.
  destruct (Forall2_In_r _ _ _ _ Hsum Hrow) as [key [_ Hsrow]].
  destruct (summary_row_Ok _ _ _ _ _ _ Hsrow) as [m [M [ang [Hm [HM [_ ->]]]]]].
  rewrite Hc in *.
  match type of Hr with
  | context [value_at ?cols ?row "MOUS_ID"] =>
      change (value_at cols row "MOUS_ID") with key in Hr
  end.
  match goal with
  | |- context [value_at ?cols ?row "min_freq_GHz"] =>
      change (value_at cols row "min_freq_GHz") with m;
      change (value_at cols row "max_freq_GHz") with M
  end.
  change (group_rows (columns df) "MOUS_ID" key (rows df))
    with (mous_group df key) in Hm, HM.
  unfold column_of in Hm, HM.
  assert (Hgroup : forall r', In r' (mous_group df key) -> bracketed (columns df) r').
  { intros r' Hr'. apply Hbr. unfold mous_group in Hr'.
    now apply filter_In in Hr'. }
  destruct (Hgroup r Hr) as [lo [nu' [hi [Hlo [Hnu' [Hhi [Hl Hh]]]]]]].
  rewrite Hnu in Hnu'. injection Hnu' as <-.
  destruct (ltb_notnan _ _ Hl) as [Nlo Nnu]. destruct (ltb_notnan _ _ Hh) as [_ Nhi].
  assert (Hser : forall c, c = "min_freq_GHz" \/ c = "max_freq_GHz" ->
             forallb numeric
               (map (fun r => value_at (columns df) r c) (mous_group df key))
             = true).
  { intros c Hc'. apply forallb_forall. intros v Hv.
    apply in_map_iff in Hv. destruct Hv as [r' [<- Hr']].
    destruct (Hgroup r' Hr') as [lo' [_ [hi' [Hlo' [_ [Hhi' _]]]]]].
    destruct Hc' as [-> | ->]; [now rewrite Hlo' | now rewrite Hhi']. }
  destruct (agg_min_spec later_of_equal _ (Hser "min_freq_GHz" (or_introl eq_refl)))
    as [m' [Hm' Smin]].
  destruct (agg_max_spec later_of_equal _ (Hser "max_freq_GHz" (or_intror eq_refl)))
    as [M' [HM' Smax]].
  rewrite Hm in Hm'. rewrite HM in HM'. apply Ok_inj in Hm', HM'. subst m' M'.
  assert (Hinlo : In (Num lo)
                     (map (fun r => value_at (columns df) r "min_freq_GHz")
                          (mous_group df key))).
  { rewrite <- Hlo.
    exact (in_map (fun r => value_at (columns df) r "min_freq_GHz") _ _ Hr). }
  assert (Hinhi : In (Num hi)
                     (map (fun r => value_at (columns df) r "max_freq_GHz")
                          (mous_group df key))).
  { rewrite <- Hhi.
    exact (in_map (fun r => value_at (columns df) r "max_freq_GHz") _ _ Hr). }
  destruct Smin as [[Hall _] | [x [-> [_ [Nx Hlow]]]]].
  { specialize (Hall _ Hinlo). simpl in Hall. congruence. }
  destruct Smax as [[Hall _] | [X [-> [_ [NX Hup]]]]].
  { specialize (Hall _ Hinhi). simpl in Hall. congruence. }
  exists x, X. split; [reflexivity |]. split; [reflexivity |]. split.
  - apply (not_ltb_ltb_trans x lo nu Nx Nlo); [now apply Hlow | exact Hl].
  - apply (ltb_not_ltb_trans nu hi X Nhi NX Hh). now apply Hup.
Qed.

Lemma build_per_mous_table_window_witness :
  exists lo hi,
    value_at (columns example_summary)
             [ Str "uid://A001/X133d/X3c"; Str "IM Lup"; Str "2016.1.00484.L";
               Str "1 4"; Num 40.0; Num 135.0; Str "J=1-0, J=3-2";
               Str "130.26861, 43.423864"; Num 0.4 ] "min_freq_GHz" = Num lo
    /\ value_at (columns example_summary)
                [ Str "uid://A001/X133d/X3c"; Str "IM Lup"; Str "2016.1.00484.L";
                  Str "1 4"; Num 40.0; Num 135.0; Str "J=1-0, J=3-2";
                  Str "130.26861, 43.423864"; Num 0.4 ] "max_freq_GHz" = Num hi
    /\ PrimFloat.ltb lo 130.26861 = true /\ PrimFloat.ltb 130.26861 hi = true.
Proof.
  apply (build_per_mous_table_window transition_str later_kept
           example_matches example_summary)
    with (r := [ Str "IM Lup"; Str "2016.1.00484.L"; Str "1 4"; Num 40.0;
                 Num 135.0; Num 0.4; Str "uid://A001/X133d/X3c"; Str "J=3-2";
                 Num 130.26861 ]).
  - reflexivity.
  - vm_compute. reflexivity.
  - intros r Hr. simpl in Hr.
    repeat (destruct Hr as [<- | Hr];
            [do 3 eexists; repeat split; reflexivity |]).
    destruct Hr.
  - simpl. auto.
  - simpl. auto.
  - reflexivity.
Defined.

(** ** The whole run *)

Lemma query_maps_sources_well_formed target sources combined :
  (forall src df, target src = Table df -> well_formed df = true) ->
  query_maps_sources target sources = Ok combined ->
  well_formed combined = true /\ has_column "Source" combined = true.
Proof.
  intros Hwf H. unfold query_maps_sources in H.
  destruct (collect_observations target sources) as [| f0 fs] eqn:E; [discriminate |].
  rewrite <- E in H.
  destruct (concat (collect_observations target sources)) as [out | e] eqn:Ec;
    [| discriminate].
  cbn [bind] in H. unfold getitem in H.
  destruct (has_column "Source" out) eqn:Hs; [| discriminate].
  cbn [bind] in H. apply Ok_inj in H. subst combined.
  split; [| exact Hs].
  apply (concat_rows _ _ Ec). intros frame Hf.
  destruct (collect_observations_In _ _ _ Hf) as [src [df [_ [Ht [_ ->]]]]].
  apply well_formed_assign. now apply (Hwf src).
Qed.

Lemma selections_covered transitions obs_df r t :
  In t transitions -> In r (rows obs_df) ->
  strictly_inside (columns obs_df) r (snd t) = true ->
  selections transitions obs_df <> [].
Proof.
  intros Ht Hr Hins Hnil.
  assert (Hin : In (match_record (columns obs_df) r (fst t) (snd t))
                   (flat_map rows (selections transitions obs_df))).
  { rewrite selections_rows. apply in_flat_map. exists t. split; [assumption |].
    apply in_map_iff. exists r. split; [reflexivity |].
    apply filter_In. now split. }
  now rewrite Hnil in Hin.
Qed.

Lemma has_column_matched_columns c cols :
  existsb (String.eqb c) (matched_columns cols)
  = existsb (String.eqb c) cols
    || String.eqb c "SiO_transition" || String.eqb c "SiO_freq_GHz".
Proof.
  assert (H : forall cs c0,
             existsb (String.eqb c) (add_column cs c0)
             = existsb (String.eqb c) cs || String.eqb c c0).
  { intros cs c0. unfold add_column.
    destruct (existsb (String.eqb c0) cs) eqn:E.
    - destruct (String.eqb_spec c c0) as [-> | _];
        [now rewrite E | now rewrite orb_false_r].
    - rewrite existsb_app. simpl. now rewrite orb_false_r. }
  unfold matched_columns. now rewrite !H.
Qed.

(** The matcher's rows keep the floats of the columns it does not write. *)
Lemma float_columns_matched transitions obs_df cs :
  well_formed obs_df = true ->
  float_columns obs_df cs = true ->
  ~ In "SiO_transition" cs -> ~ In "SiO_freq_GHz" cs ->
  float_columns
    (mkDataFrame (matched_columns (columns obs_df))
                 (flat_map rows (selections transitions obs_df))) cs = true.
Proof.
  intros Hwf Hnum Ht Hf. unfold float_columns. cbn [columns rows].
  rewrite selections_rows. apply forallb_forall. intros row Hrow.
  apply in_flat_map in Hrow. destruct Hrow as [t [_ Hrow]].
  apply in_map_iff in Hrow. destruct Hrow as [r [<- Hr]].
  apply filter_In in Hr. destruct Hr as [Hr _].
  apply forallb_forall. intros c Hc.
  rewrite value_at_match_record.
  - now apply (float_columns_cells obs_df cs r c).
  - now apply well_formed_rows.
  - intros ->. contradiction.
  - intros ->. contradiction.
Qed.

(** X14. The stages compose: when the archive returns well-formed tables, the
    query and the harmonizer succeed, the two frequency columns and the
    angular resolution hold floats, the harmonized table has [project_code]
    and [band_list], and some row covers a transition, the matcher and the
    two builders succeed and the run is the writer's on the two tables they
    built, whatever the file system does. *)
Theorem main_reaches_writer
        (float_str : float -> string)
        (later_of_equal : reduction -> float -> float -> bool)
        (to_csv : DataFrame -> string)
        (to_latex : list string -> DataFrame -> result string)
        (open_w : string -> result unit)
        (write : string -> string -> result unit)
        (target : string -> query_outcome)
        (obs harmonized : DataFrame) :
  (forall src df, target src = Table df -> well_formed df = true) ->
  query_maps_sources target MAPS_SOURCES = Ok obs ->
  harmonize_columns obs = Ok harmonized ->
  float_columns harmonized ["min_freq_GHz"; "max_freq_GHz"; "ang_res_arcsec"]
  = true ->
  has_columns ["project_code"; "band_list"] harmonized = true ->
  (exists r t,
      In r (rows harmonized) /\ In t SIO_V0_TRANSITIONS_GHZ
      /\ strictly_inside (columns harmonized) r (snd t) = true) ->
  exists sio_spw spw_table mous_table,
    find_sio_spw_matches harmonized = Ok sio_spw
    /\ empty sio_spw = false
    /\ build_per_spw_table sio_spw = Ok spw_table
    /\ build_per_mous_table float_str later_of_equal sio_spw = Ok mous_table
    /\ main float_str later_of_equal to_csv to_latex open_w write target
       = save_tables to_csv to_latex open_w write spw_table mous_table.
Proof.
  intros Harch Hq Hh Hnum3 Hpb [r [t [Hr [Ht Hins]]]].
  assert (Hnum : float_columns harmonized ["min_freq_GHz"; "max_freq_GHz"] = true).
  { unfold float_columns in *. rewrite forallb_forall in *. intros r' Hr'.
    specialize (Hnum3 r' Hr'). cbn [forallb] in *.
    apply andb_true_iff in Hnum3. destruct Hnum3 as [H1 H2].
    apply andb_true_iff in H2. destruct H2 as [H2 _]. now rewrite H1, H2. }
  destruct (query_maps_sources_well_formed _ _ _ Harch Hq) as [Hwfo Hso].
  destruct (harmonize_columns_Ok _ _ Hh) as [src [_ Eh]].
  destruct (harmonize_columns_frequency_columns _ _ Hh) as [Hmin Hmax].
  assert (Hwf : well_formed harmonized = true).
  { rewrite Eh. apply well_formed_assign. now apply well_formed_defaulted. }
  assert (Hcol : forall c, has_column c obs = true -> has_column c harmonized = true).
  { intros c Hc. rewrite Eh. unfold setitem_column.
    now rewrite has_column_assign, has_column_defaulted_all, Hc. }
  assert (Hang : has_column "ang_res_arcsec" harmonized = true).
  { rewrite Eh. unfold setitem_column.
    rewrite has_column_assign, has_column_defaulted_all.
    cbn [String.eqb Ascii.eqb Bool.eqb andb orb].
    now rewrite orb_true_r. }
  assert (Hid : has_column "MOUS_ID" harmonized = true).
  { rewrite Eh. unfold setitem_column.
    rewrite has_column_assign. apply orb_true_r. }
  pose proof (Hcol _ Hso) as Hsrc.
  unfold has_columns in Hpb. cbn [forallb] in Hpb.
  apply andb_true_iff in Hpb. destruct Hpb as [Hproj Hband].
  apply andb_true_iff in Hband. destruct Hband as [Hband _].
  pose proof (find_matches_table SIO_V0_TRANSITIONS_GHZ harmonized
                Hwf Hsrc Hmin Hmax Hnum) as Hm.
  pose proof (selections_covered _ _ _ _ Ht Hr Hins) as Hne.
  assert (Hrne : flat_map rows (selections SIO_V0_TRANSITIONS_GHZ harmonized) <> []).
  { intros Hz. now apply selections_rows_nil in Hz. }
  pose proof (float_columns_matched SIO_V0_TRANSITIONS_GHZ harmonized
                ["min_freq_GHz"; "max_freq_GHz"; "ang_res_arcsec"] Hwf Hnum3)
    as Hnum_spw.
  destruct (selections SIO_V0_TRANSITIONS_GHZ harmonized) as [| f0 fs] eqn:E;
    [now contradiction Hne |].
  rewrite <- E in Hm, Hrne, Hnum_spw.
  set (sio_spw := mkDataFrame (matched_columns (columns harmonized))
                    (flat_map rows (selections SIO_V0_TRANSITIONS_GHZ harmonized)))
    in *.
  assert (Hhas : forall c, has_column c harmonized = true -> has_column c sio_spw = true).
  { intros c Hc. unfold has_column, sio_spw. cbn [columns].
    rewrite has_column_matched_columns. unfold has_column in Hc. now rewrite Hc. }
  assert (Htr : has_column "SiO_transition" sio_spw = true).
  { unfold has_column, sio_spw. cbn [columns]. rewrite has_column_matched_columns.
    cbn [String.eqb Ascii.eqb Bool.eqb andb orb]. now rewrite orb_true_r. }
  assert (Hfr : has_column "SiO_freq_GHz" sio_spw = true).
  { unfold has_column, sio_spw. cbn [columns]. rewrite has_column_matched_columns.
    apply orb_true_r. }
  assert (Hspw : has_columns ["Source"; "project_code"; "band_list"; "SiO_freq_GHz"]
                             sio_spw = true).
  { unfold has_columns. cbn [forallb].
    now rewrite (Hhas _ Hsrc), (Hhas _ Hproj), (Hhas _ Hband), Hfr. }
  assert (Hmous : has_columns mous_input_columns sio_spw = true).
  { unfold has_columns, mous_input_columns. cbn [forallb].
    now rewrite (Hhas _ Hid), (Hhas _ Hsrc), (Hhas _ Hproj), (Hhas _ Hband),
      (Hhas _ Hmin), (Hhas _ Hmax), Htr, Hfr, (Hhas _ Hang). }
  destruct (build_per_spw_table_sorted sio_spw Hspw) as [spw_table [Hspw_ok _]].
  destruct (build_per_mous_table_numeric float_str later_of_equal sio_spw Hmous)
    as [mous_table Hmous_ok].
  { apply Hnum_spw; simpl; intuition discriminate. }
  assert (Hempty : empty sio_spw = false).
  { unfold empty, sio_spw. cbn [columns rows]. apply orb_false_iff. split.
    - apply Nat.eqb_neq. intros Hz.
      assert (Hin : In "Source" (matched_columns (columns harmonized)))
        by (apply has_column_matched; now apply has_column_In).
      destruct (matched_columns (columns harmonized)); [destruct Hin | discriminate].
    - apply Nat.eqb_neq. intros Hz. apply Hrne.
      now apply length_zero_iff_nil. }
  exists sio_spw, spw_table, mous_table.
  split; [exact Hm |]. split; [exact Hempty |].
  split; [exact Hspw_ok |]. split; [exact Hmous_ok |].
  unfold main, stage. rewrite Hq, Hh. unfold find_sio_spw_matches.
  rewrite Hm, Hempty, Hspw_ok, Hmous_ok. cbv zeta.
  destruct (status (save_tables to_csv to_latex open_w write spw_table mous_table));
    reflexivity.
Qed.

Lemma main_reaches_writer_witness :
  exists sio_spw spw_table mous_table,
    find_sio_spw_matches line_harmonized = Ok sio_spw
    /\ empty sio_spw = false
    /\ build_per_spw_table sio_spw = Ok spw_table
    /\ build_per_mous_table transition_str later_kept sio_spw = Ok mous_table
    /\ main transition_str later_kept (fun _ => "") (fun _ _ => Ok "")
            (fun _ => Ok tt) (fun _ _ => Ok tt) line_target
       = save_tables (fun _ => "") (fun _ _ => Ok "")
                     (fun _ => Ok tt) (fun _ _ => Ok tt) spw_table mous_table.
Proof.
  apply (main_reaches_writer transition_str later_kept (fun _ => "")
           (fun _ _ => Ok "") (fun _ => Ok tt) (fun _ _ => Ok tt)
           line_target line_obs line_harmonized).
  - intros src df. unfold line_target.
    destruct (String.eqb src "AS 209"); [| discriminate].
    intros H. injection H as <-. reflexivity.
  - reflexivity.
  - reflexivity.
  - reflexivity.
  - reflexivity.
  - exists [ Str "2018.1.01055.L"; Str "3"; Num 86.0; Num 87.0; Num 0.3;
             Str "uid://A001/X133d/X1a"; Str "AS 209"; Num 0.3;
             Str "uid://A001/X133d/X1a" ], ("J=2-1", 86.846960%float).
    split; [simpl; auto |]. split; [simpl; auto |]. reflexivity.
Defined.

Example main_on_line_target :
  main transition_str later_kept (fun _ => "csv") (fun _ _ => Ok "tex")
       (fun _ => Ok tt) (fun _ _ => Ok tt) line_target
  = mkRun [ ("sio_spw_matches.csv", Text "csv");
            ("sio_mous_summary.csv", Text "csv");
            ("sio_spw_matches.tex", Text "tex");
            ("sio_mous_summary.tex", Text "tex") ]
          (Ok tt).
Proof. vm_compute. reflexivity. Qed.

(** A disk that fills up while the second table is written: the run raises
    with the first file complete and the second cut short. *)
Example main_on_full_disk :
  main transition_str later_kept (fun _ => "csv") (fun _ _ => Ok "tex")
       (fun _ => Ok tt)
       (fun path _ => if String.eqb path "sio_mous_summary.csv"
                      then Raise (RuntimeError "No space left on device")
                      else Ok tt)
       line_target
  = mkRun [ ("sio_spw_matches.csv", Text "csv");
            ("sio_mous_summary.csv", CutShort) ]
          (Raise (RuntimeError "No space left on device")).
Proof. vm_compute. reflexivity. Qed.

(** X15. Whatever the archive, the serializers and the file system do, the
    files the run leaves are the first few of the four output files, in the
    order the writer writes them: none, or any number up to all four.  The
    run ends normally only with no file or with all four; with one, two or
    three files it has raised. *)
Theorem main_written_files
        (float_str : float -> string)
        (later_of_equal : reduction -> float -> float -> bool)
        (to_csv : DataFrame -> string)
        (to_latex : list string -> DataFrame -> result string)
        (open_w : string -> result unit)
        (write : string -> string -> result unit)
        (target : string -> query_outcome) :
  let r := main float_str later_of_equal to_csv to_latex open_w write target in
  let names := map fst (written r) in
  let four := [ "sio_spw_matches.csv"; "sio_mous_summary.csv";
                "sio_spw_matches.tex"; "sio_mous_summary.tex" ] in
  (exists n, n <= 4 /\ names = firstn n four)
  /\ (status r = Ok tt -> names = [] \/ names = four)
  /\ (names <> [] -> names <> four -> exists e, status r = Raise e).
Proof.
  cbv zeta.
  assert (Hnone : forall s : result unit,
             (exists n, n <= 4 /\ map fst (written (mkRun [] s))
                                  = firstn n [ "sio_spw_matches.csv";
                                               "sio_mous_summary.csv";
                                               "sio_spw_matches.tex";
                                               "sio_mous_summary.tex" ])
             /\ (status (mkRun [] s) = Ok tt ->
                 map fst (written (mkRun [] s)) = []
                 \/ map fst (written (mkRun [] s))
                    = [ "sio_spw_matches.csv"; "sio_mous_summary.csv";
                        "sio_spw_matches.tex"; "sio_mous_summary.tex" ])
             /\ (map fst (written (mkRun [] s)) <> [] ->
                 map fst (written (mkRun [] s))
                 <> [ "sio_spw_matches.csv"; "sio_mous_summary.csv";
                      "sio_spw_matches.tex"; "sio_mous_summary.tex" ] ->
                 exists e, status (mkRun [] s) = Raise e)).
  { intros s. cbn. split; [exists 0; split; [lia | reflexivity] |].
    split; [now left |]. intros H. now contradiction H. }
  unfold main, stage.
  destruct (query_maps_sources target MAPS_SOURCES) as [obs | e]; [| apply Hnone].
  destruct (harmonize_columns obs) as [h | e]; [| apply Hnone].
  destruct (find_sio_spw_matches h) as [m | e]; [| apply Hnone].
  destruct (empty m); [apply Hnone |].
  destruct (build_per_spw_table m) as [spw | e]; [| apply Hnone].
  destruct (build_per_mous_table float_str later_of_equal m) as [mous | e];
    [| apply Hnone].
  clear Hnone.
  set (saved := save_tables to_csv to_latex open_w write spw mous).
  assert (Hsame : match status saved with
                  | Ok _ => if DO_DOWNLOAD
                            then mkRun (written saved) (download_mous_products mous)
                            else saved
                  | Raise _ => saved
                  end = saved).
  { destruct (status saved); reflexivity. }
  rewrite Hsame. clear Hsame. subst saved.
  unfold save_tables, and_then, write_file.
  destruct (open_w "sio_spw_matches.csv") as [u1 | e1]; cbn;
    [| split; [exists 0; split; [lia | reflexivity] |];
       split; [now left | intros H; now contradiction H]].
  destruct (write "sio_spw_matches.csv" (to_csv spw)) as [w1 | e1]; cbn;
    [| split; [exists 1; split; [lia | reflexivity] |];
       split; [discriminate | intros _ _; now exists e1]].
  destruct (open_w "sio_mous_summary.csv") as [u2 | e2]; cbn;
    [| split; [exists 1; split; [lia | reflexivity] |];
       split; [discriminate | intros _ _; now exists e2]].
  destruct (write "sio_mous_summary.csv" (to_csv mous)) as [w2 | e2]; cbn;
    [| split; [exists 2; split; [lia | reflexivity] |];
       split; [discriminate | intros _ _; now exists e2]].
  destruct (open_w "sio_spw_matches.tex") as [u3 | e3]; cbn;
    [| split; [exists 2; split; [lia | reflexivity] |];
       split; [discriminate | intros _ _; now exists e3]].
  destruct (to_latex _ spw) as [t3 | e3]; cbn;
    [| split; [exists 3; split; [lia | reflexivity] |];
       split; [discriminate | intros _ _; now exists e3]].
  destruct (write "sio_spw_matches.tex" t3) as [w3 | e3]; cbn;
    [| split; [exists 3; split; [lia | reflexivity] |];
       split; [discriminate | intros _ _; now exists e3]].
  destruct (open_w "sio_mous_summary.tex") as [u4 | e4]; cbn;
    [| split; [exists 3; split; [lia | reflexivity] |];
       split; [discriminate | intros _ _; now exists e4]].
  destruct (to_latex _ mous) as [t4 | e4]; cbn;
    [| split; [exists 4; split; [lia | reflexivity] |];
       split; [discriminate | intros _ H; now contradiction H]].
  destruct (write "sio_mous_summary.tex" t4) as [w4 | e4]; cbn;
    split; try (exists 4; split; [lia | reflexivity]);
    (split; [intros _; now right | intros _ H; now contradiction H]).
Qed.

(** ** The optional download *)

Section DownloadFacts.
Variable retrieve_data_from_uid : cell -> result unit.

Lemma requests_download_loop uids :
  requests (download_loop retrieve_data_from_uid uids) = uids.
Proof.
  induction uids as [| uid rest IH]; [reflexivity |].
  cbn [download_loop]. destruct (retrieve_data_from_uid uid);
    cbn [requests flat_map app];
    fold (requests (download_loop retrieve_data_from_uid rest));
    now rewrite IH.
Qed.
End DownloadFacts.

Lemma cell_eqb_notna a b : cell_eqb a b = true -> isna a = false /\ isna b = false.
Proof.
  destruct a, b; simpl; try discriminate; [auto | apply eqb_notnan].
Qed.

Lemma cell_same_refl a : cell_same a a = true.
Proof.
  unfold cell_same. destruct (isna a) eqn:E; [apply orb_true_r |].
  now rewrite cell_eqb_refl.
Qed.

Lemma cell_same_sym a b : cell_same a b = cell_same b a.
Proof. unfold cell_same. now rewrite cell_eqb_sym, andb_comm. Qed.

Lemma cell_same_trans a b c :
  cell_same a b = true -> cell_same b c = true -> cell_same a c = true.
Proof.
  unfold cell_same. rewrite !orb_true_iff, !andb_true_iff.
  intros [Hab | [Ha Hb]] [Hbc | [Hb' Hc]].
  - left. now apply (cell_eqb_trans a b c).
  - apply cell_eqb_notna in Hab. destruct Hab. congruence.
  - apply cell_eqb_notna in Hbc. destruct Hbc. congruence.
  - right. auto.
Qed.

(** Among values no two of which are the same, exactly one is the same as a
    value that has its like among them. *)
Lemma count_one_same u v :
  ForallOrdPairs (fun a b => cell_same b a = false) u ->
  (exists y, In y u /\ cell_same v y = true) ->
  List.length (filter (fun k => cell_same k v) u) = 1.
Proof.
  induction 1 as [| a u Ha Hu IH]; intros [y [Hy Hvy]]; [destruct Hy |].
  simpl. destruct (cell_same a v) eqn:Eav.
  - simpl. f_equal.
    replace (filter (fun k => cell_same k v) u) with (@nil cell); [reflexivity |].
    symmetry. rewrite Forall_forall in Ha.
    clear IH Hu Hy. induction u as [| b u IHu]; [reflexivity |].
    simpl. destruct (cell_same b v) eqn:Ebv.
    + assert (Hba : cell_same b a = true).
      { apply (cell_same_trans b v a Ebv). now rewrite cell_same_sym. }
      rewrite (Ha b (or_introl eq_refl)) in Hba. discriminate.
    + apply IHu. intros x Hx. apply Ha. now right.
  - apply IH. exists y. split; [| exact Hvy].
    destruct Hy as [-> | Hy]; [| exact Hy].
    rewrite cell_same_sym, Hvy in Eav. discriminate.
Qed.

(** X16. The download stage raises only when the table has no [MOUS_ID]
    column.  Otherwise it asks for every identifier of the table exactly once
    and for nothing else, whichever retrievals raise: a failed retrieval is
    reported and the identifiers after it are still asked for.  It ends as the
    stage of the run does. *)
Theorem download_requests_each_once
        (retrieve_data_from_uid : cell -> result unit) (mous_table : DataFrame) :
  (has_column "MOUS_ID" mous_table = false ->
   download_events retrieve_data_from_uid mous_table = Raise (KeyError "MOUS_ID"))
  /\ (has_column "MOUS_ID" mous_table = true ->
      exists events,
        download_events retrieve_data_from_uid mous_table = Ok events
        /\ requests events = unique cell_same (column mous_table "MOUS_ID")
        /\ (forall uid, In uid (column mous_table "MOUS_ID") ->
              List.length (filter (fun k => cell_same k uid) (requests events)) = 1)
        /\ (forall uid, In uid (requests events) ->
              In uid (column mous_table "MOUS_ID"))
        /\ (forall uid e, In (ReportedFailure uid e) events ->
              retrieve_data_from_uid uid = Raise e))
  /\ download_mous_products mous_table
     = (_ <- download_events retrieve_data_from_uid mous_table ;; Ok tt).
Proof.
  unfold download_events, download_mous_products, getitem.
  split; [| split].
  - intros ->. reflexivity.
  - intros ->. cbn [bind]. eexists. split; [reflexivity |].
    change (map (fun r => value_at (columns mous_table) r "MOUS_ID") (rows mous_table))
      with (column mous_table "MOUS_ID").
    rewrite requests_download_loop. split; [reflexivity |]. split; [| split].
    + intros uid Hin. apply count_one_same; [apply unique_from_pairwise |].
      destruct (unique_from_covers cell_same [] _ uid (cell_same_refl uid) Hin)
        as [Hs | Hy]; [discriminate | exact Hy].
    + intros uid Hin. now apply unique_from_In in Hin.
    + intros uid e. generalize (unique cell_same (column mous_table "MOUS_ID")).
      induction l as [| u l IH]; [intros [] |].
      cbn [download_loop]. destruct (retrieve_data_from_uid u) eqn:Eu; cbn [In].
      * intros [H | H]; [discriminate | now apply IH].
      * intros [H | [H | H]]; [discriminate | | now apply IH].
        injection H as <- <-. exact Eu.
  - destruct (has_column "MOUS_ID" mous_table); reflexivity.
Qed.

Example download_events_example :
  download_events
    (fun uid => if cell_eqb uid (Str "uid://A001/X133d/X1a")
                then Raise (RuntimeError "no products") else Ok tt)
    (mkDataFrame ["MOUS_ID"; "Source"]
       [ [Str "uid://A001/X133d/X1a"; Str "AS 209"];
         [Str "uid://A001/X133d/X3c"; Str "IM Lup"];
         [Str "uid://A001/X133d/X1a"; Str "GM Aur"] ])
  = Ok [ Requested (Str "uid://A001/X133d/X1a");
         ReportedFailure (Str "uid://A001/X133d/X1a") (RuntimeError "no products");
         Requested (Str "uid://A001/X133d/X3c") ].
Proof. reflexivity. Qed.

(** ** A joined field depends on the set of strings only *)

Lemma sorted_strings_unique l1 l2 :
  StronglySorted (fun s t => String.leb s t = true) l1 ->
  StronglySorted (fun s t => String.leb s t = true) l2 ->
  NoDup l1 -> NoDup l2 ->
  (forall s, In s l1 <-> In s l2) ->
  l1 = l2.
Proof.
  intros S1. revert l2. induction S1 as [| a l1 S1 IH Ha]; intros l2 S2 N1 N2 Hsame.
  - destruct l2 as [| b l2]; [reflexivity |].
    destruct (proj2 (Hsame b) (or_introl eq_refl)).
  - destruct l2 as [| b l2]; [destruct (proj1 (Hsame a) (or_introl eq_refl)) |].
    inversion S2 as [| ? ? S2' Hb]; subst.
    inversion N1 as [| ? ? Na N1']; subst. inversion N2 as [| ? ? Nb N2']; subst.
    rewrite Forall_forall in Ha, Hb.
    assert (Eab : a = b).
    { destruct (proj1 (Hsame a) (or_introl eq_refl)) as [E | Hin]; [now symmetry |].
      destruct (proj2 (Hsame b) (or_introl eq_refl)) as [E | Hin']; [assumption |].
      apply String.leb_antisym; [now apply Ha | now apply Hb]. }
    subst b. f_equal. apply IH; try assumption.
    intros s. split; intros Hs.
    + destruct (proj1 (Hsame s) (or_intror Hs)) as [E | Hin]; [| assumption].
      subst s. contradiction.
    + destruct (proj2 (Hsame s) (or_intror Hs)) as [E | Hin]; [| assumption].
      subst s. contradiction.
Qed.

Lemma sort_strings_StronglySorted l :
  StronglySorted (fun s t => String.leb s t = true) (sort String.leb l).
Proof.
  apply sort_StronglySorted; [apply string_leb_total | apply string_leb_trans].
Qed.

(** X17. A joined field depends only on which string representations occur in
    the series, not on their order or on how often they occur; in particular
    it does not change when the rows of the group are reordered. *)
Theorem join_unique_set (float_str : float -> string) (series1 series2 : list cell) :
  (forall s, In s (map (astype_str float_str) series1)
             <-> In s (map (astype_str float_str) series2)) ->
  join_unique float_str series1 = join_unique float_str series2.
Proof.
  intros Hsame. unfold join_unique. f_equal.
  apply sorted_strings_unique; try apply sort_strings_StronglySorted.
  - apply (Permutation_NoDup (Permutation_sym (sort_Permutation _ _))).
    apply unique_strings_NoDup.
  - apply (Permutation_NoDup (Permutation_sym (sort_Permutation _ _))).
    apply unique_strings_NoDup.
  - intros s. split; intros H.
    + apply (Permutation_in _ (Permutation_sym (sort_Permutation _ _))).
      apply unique_strings_In, Hsame, unique_strings_In.
      now apply (Permutation_in _ (sort_Permutation String.leb _)).
    + apply (Permutation_in _ (Permutation_sym (sort_Permutation _ _))).
      apply unique_strings_In, Hsame, unique_strings_In.
      now apply (Permutation_in _ (sort_Permutation String.leb _)).
Qed.

Lemma join_unique_set_witness :
  join_unique transition_str [Str "GM Aur"; Str "AS 209"; Str "GM Aur"]
  = join_unique transition_str [Str "AS 209"; Str "GM Aur"].
Proof.
  apply (join_unique_set transition_str).
  intros s. simpl. tauto.
Defined.

(** ** Harmonizing twice *)

Lemma set_cell_same cols r c v :
  cell_at cols r c = Some v -> set_cell cols r c v = r.
Proof.
  revert r. induction cols as [| c0 cols IH]; intros [| u r]; simpl;
    try discriminate.
  destruct (String.eqb c c0); intros H; [now injection H as -> |].
  now rewrite IH.
Qed.

Lemma cell_at_present cols r c :
  List.length r = List.length cols -> In c cols ->
  cell_at cols r c = Some (value_at cols r c).
Proof.
  unfold value_at. revert r.
  induction cols as [| c0 cols IH]; intros [| u r] Hlen Hin; simpl in *;
    try discriminate; try contradiction.
  destruct (String.eqb_spec c c0) as [-> | Hne]; [reflexivity |].
  injection Hlen as Hlen. destruct Hin as [-> | Hin]; [contradiction |].
  now apply IH.
Qed.

(** Assigning to a column the cells it holds changes nothing. *)
Lemma assign_same df c f :
  well_formed df = true -> has_column c df = true ->
  (forall r, In r (rows df) -> f r = value_at (columns df) r c) ->
  assign df c f = df.
Proof.
  intros Hwf Hc Hf. unfold assign. rewrite Hc. destruct df as [cols rs].
  cbn [columns rows] in *. f_equal.
  rewrite <- (map_id rs) at 2. apply map_ext_in. intros r Hr.
  apply set_cell_same. rewrite (Hf r Hr). apply cell_at_present.
  - now apply (well_formed_rows (mkDataFrame cols rs)).
  - now apply (has_column_In c (mkDataFrame cols rs)).
Qed.

(** X18. The harmonizer is idempotent on well-formed tables: a table it has
    returned is returned as it is. *)
Theorem harmonize_columns_idempotent (df out : DataFrame) :
  well_formed df = true ->
  harmonize_columns df = Ok out ->
  harmonize_columns out = Ok out.
Proof.
  intros Hwf H.
  destruct (harmonize_columns_frequency_columns _ _ H) as [Hmin Hmax].
  destruct (harmonize_columns_Ok _ _ H) as [src [Hsrc Eout]].
  pose proof (well_formed_defaulted _ Hwf) as Hwfd.
  assert (Hwfo : well_formed out = true)
    by (rewrite Eout; now apply well_formed_assign).
  assert (Hhas : forall c,
             has_column c out
             = has_column c df || String.eqb c "ang_res_arcsec"
               || (String.eqb c "band_list" && has_column "band" df)
               || String.eqb c "MOUS_ID").
  { intros c. rewrite Eout. unfold setitem_column.
    now rewrite has_column_assign, has_column_defaulted_all. }
  assert (Hdef : defaulted out = out).
  { unfold defaulted. rewrite (Hhas "ang_res_arcsec").
    cbn [String.eqb Ascii.eqb Bool.eqb andb orb negb].
    rewrite orb_true_r. cbn [orb negb].
    rewrite (Hhas "band_list"), (Hhas "band").
    cbn [String.eqb Ascii.eqb Bool.eqb andb orb negb]. rewrite !orb_false_r.
    destruct (has_column "band_list" df), (has_column "band" df); reflexivity. }
  rewrite harmonize_columns_unfold, Hdef. unfold require_columns.
  rewrite Hmin, Hmax. cbn [bind].
  assert (Hu : has_column "member_ous_uid" out = has_column "member_ous_uid" df).
  { rewrite Hhas. cbn [String.eqb Ascii.eqb Bool.eqb andb orb].
    now rewrite !orb_false_r. }
  assert (Hi : has_column "member_ous_id" out = has_column "member_ous_id" df).
  { rewrite Hhas. cbn [String.eqb Ascii.eqb Bool.eqb andb orb].
    now rewrite !orb_false_r. }
  assert (Hid : has_column "MOUS_ID" out = true).
  { rewrite Hhas, String.eqb_refl. apply orb_true_r. }
  assert (Hsame : forall r, In r (rows out) ->
             value_at (columns out) r src = value_at (columns out) r "MOUS_ID").
  { intros r Hr. rewrite Eout in Hr |- *. unfold setitem_column, assign in Hr.
    cbn [rows] in Hr. apply in_map_iff in Hr. destruct Hr as [r0 [<- Hr0]].
    pose proof (well_formed_rows _ _ Hwfd Hr0) as Hlen.
    unfold setitem_column. rewrite columns_assign.
    rewrite value_at_set_cell_same by assumption.
    apply value_at_set_cell_other; [assumption |].
    destruct Hsrc as [[-> _] | [-> _]]; discriminate. }
  rewrite Hu, Hi.
  destruct Hsrc as [[-> Hsu] | [-> [Hsu Hsi]]]; rewrite Hsu; [| rewrite Hsi];
    f_equal; unfold setitem_column; now apply assign_same.
Qed.

Lemma harmonize_columns_idempotent_witness :
  harmonize_columns legacy_harmonized = Ok legacy_harmonized.
Proof.
  apply (harmonize_columns_idempotent legacy_obs legacy_harmonized); reflexivity.
Defined.
